(** * ChenDesk: the remote-session protocol engine of chendesk.py

    A shallow embedding of the screen, control and file channels of
    [chendesk.py] and the properties of its specification.

    Python integers are [Z]; byte strings are [list byte]; text is
    [string]; a [try]/[except] is a match on an [outcome]; a [while] loop
    is the iteration of its body, a function from the loop state to
    either the next state or the result of leaving the loop. *)

From Stdlib Require Import ZArith List String Ascii Bool.
From Stdlib.Strings Require Import Byte.
From Stdlib Require Import PrimFloat FloatOps SpecFloat.
From stdpp Require Import base option list gmap strings pretty.

Open Scope Z_scope.

#[local] Set Warnings "-register-all".

(** ** Python outcomes *)

(** The exception classes that the modelled code can meet. *)
Inductive exn : Set :=
| OSError | StructError | ZlibError | Cv2Error | JSONDecodeError
| UnicodeDecodeError | KeyError | TypeError | AttributeError
| ValueError | OverflowError | ZeroDivisionError.

(** A call either returns a value or raises. *)
Inductive outcome (A : Type) : Type :=
| Return (a : A)
| Raise (e : exn).
Arguments Return {A} a.
Arguments Raise {A} e.

(** ** [while] loops *)

(** One pass through a loop body: go round again, or leave with a result
    ([break], [return], a raised exception or a false loop condition). *)
Inductive flow (S R : Type) : Type :=
| Again (s : S)
| Leave (r : R).
Arguments Again {S R} s.
Arguments Leave {S R} r.

(** [while n body s] runs at most [n] passes; [None] says that the
    bound was reached before the loop was left.  A body that itself
    contains a loop passes that loop's [None] on. *)
Fixpoint while {S R : Type} (n : nat) (body : S -> option (flow S R)) (s : S)
  : option R :=
  match n with
  | O => None
  | S n' =>
      match body s with
      | Some (Again s') => while n' body s'
      | Some (Leave r) => Some r
      | None => None
      end
  end.

(** ** Configuration constants (chendesk.py, CONFIG) *)

Definition SCREEN_PORT : Z := 5900.
Definition CONTROL_PORT : Z := 5901.
Definition FILE_PORT : Z := 5902.
Definition BUFFER_SIZE : Z := 65536.

(** ** Byte strings and [struct] *)

Definition bytes : Type := list byte.

Definition len (b : bytes) : Z := Z.of_nat (length b).

Definition byte_val (b : byte) : Z := Z.of_N (Byte.to_N b).

Definition byte_of_Z (z : Z) : byte :=
  match Byte.of_N (Z.to_N (Z.land z 255)) with
  | Some b => b
  | None => x00
  end.

(** A big-endian unsigned 32-bit field, the [I] of format [!II]. *)
Definition be32 (b0 b1 b2 b3 : byte) : Z :=
  Z.lor (Z.shiftl (byte_val b0) 24)
    (Z.lor (Z.shiftl (byte_val b1) 16)
       (Z.lor (Z.shiftl (byte_val b2) 8) (byte_val b3))).

Definition be32_bytes (z : Z) : bytes :=
  [byte_of_Z (Z.shiftr z 24); byte_of_Z (Z.shiftr z 16);
   byte_of_Z (Z.shiftr z 8); byte_of_Z z].

(** [struct.pack('!II', a, b)]: [struct.error] when a field is not a
    u32. *)
Definition pack_II (a b : Z) : outcome bytes :=
  if (0 <=? a) && (a <? 2 ^ 32) && (0 <=? b) && (b <? 2 ^ 32)
  then Return (be32_bytes a ++ be32_bytes b)
  else Raise StructError.

(** [struct.unpack('!II', h)]: [struct.error] unless [h] has exactly 8
    bytes. *)
Definition unpack_II (h : bytes) : outcome (Z * Z) :=
  match h with
  | [a0; a1; a2; a3; b0; b1; b2; b3] =>
      Return (be32 a0 a1 a2 a3, be32 b0 b1 b2 b3)
  | _ => Raise StructError
  end.

(** ** Sockets *)

(** What the network hands to one [recv] at a time: a non-empty run of
    bytes.  A connection's incoming byte stream is a list of such
    segments, so that every way the network can split the stream is a
    value of the model. *)
Definition segment : Type := (byte * bytes)%type.

Definition seg_bytes (g : segment) : bytes := g.1 :: g.2.

(** The segments of a list of byte strings (empty ones carry nothing). *)
Fixpoint segments (l : list bytes) : list segment :=
  match l with
  | [] => []
  | [] :: l' => segments l'
  | (b :: bs) :: l' => (b, bs) :: segments l'
  end.

Definition stream (gs : list segment) : bytes := concat (map seg_bytes gs).

(** How the incoming stream ends: the peer closes in order (further
    reads return [b'']) or the connection breaks (further reads raise).
    Every connection of the model carries finitely many bytes and then
    ends in one of these two ways, so that every [recv] returns or
    raises; a peer that stays silent while the connection is open, on
    which a blocking [recv] would wait for ever, is not modelled. *)
Inductive hangup : Set := PeerClosed | ConnReset.

Record socket : Type := Socket {
  incoming : list segment;   (* bytes still to arrive, as segmented *)
  ending : hangup;           (* what follows the last segment *)
  recv_calls : list Z;       (* buffer size of each recv call made *)
  send_fails : bool;         (* whether a write to this socket raises *)
  outgoing : list bytes;     (* arguments of the sendall calls that returned *)
  closed : bool              (* close() was called on it *)
}.

Definition fresh_socket (gs : list segment) (e : hangup) : socket :=
  Socket gs e [] false [] false.

Definition set_incoming (gs : list segment) (s : socket) : socket :=
  Socket gs (ending s) (recv_calls s) (send_fails s) (outgoing s) (closed s).

Definition note_recv (n : Z) (s : socket) : socket :=
  Socket (incoming s) (ending s) (recv_calls s ++ [n]) (send_fails s)
    (outgoing s) (closed s).

(** [sock.recv(n)]: at most [n] bytes of the next segment; [b''] when
    [n = 0] or when the peer has closed; raises on a closed or broken
    socket and on a negative size. *)
Definition recv (n : Z) (s : socket) : outcome bytes * socket :=
  let s := note_recv n s in
  if closed s then (Raise OSError, s)
  else if n <? 0 then (Raise ValueError, s)
  else if n =? 0 then (Return [], s)
  else
    match incoming s with
    | [] =>
        match ending s with
        | PeerClosed => (Return [], s)
        | ConnReset => (Raise OSError, s)
        end
    | g :: rest =>
        match drop (Z.to_nat n) (seg_bytes g) with
        | [] => (Return (seg_bytes g), set_incoming rest s)
        | b :: bs =>
            (Return (take (Z.to_nat n) (seg_bytes g)),
             set_incoming ((b, bs) :: rest) s)
        end
    end.

(** [sock.sendall(data)] *)
Definition sendall (data : bytes) (s : socket) : outcome unit * socket :=
  if closed s || send_fails s then (Raise OSError, s)
  else
    (Return tt,
     Socket (incoming s) (ending s) (recv_calls s) (send_fails s)
       (outgoing s ++ [data]) (closed s)).

(** [sock.close()] *)
Definition close (s : socket) : socket :=
  Socket (incoming s) (ending s) (recv_calls s) (send_fails s)
    (outgoing s) true.

(** ** Console output *)

(** The lines the channels print. *)
Inductive log_line : Type :=
| ReceiveErrorLine (e : exn)                    (* "Receive error: ..." *)
| ControlErrorLine (e : exn)                    (* "Control error: ..." *)
| FileReceiveErrorLine (e : exn)                (* "File receive error: ..." *)
| ReceivedFileLine (name : string) (size : Z)   (* "Received file: name (size bytes)" *)
| StreamErrorLine (e : exn).                    (* "Stream error: ..." *)

(** ** Decoded images *)

Record bitmap : Type := Bitmap {
  rows : Z;
  cols : Z;
  pixels : bytes
}.

(** ** Values decoded from JSON *)

(** What [json.loads] can return.  A dict keeps its insertion order, as
    Python's does, and holds each key once. *)
Inductive pyval : Type :=
| PNone
| PBool (b : bool)
| PInt (z : Z)
| PFloat (f : float)
| PStr (s : string)
| PList (l : list pyval)
| PDict (d : list (string * pyval)).

Fixpoint assoc {A : Type} (k : string) (d : list (string * A)) : option A :=
  match d with
  | [] => None
  | (k', v) :: d' => if String.eqb k k' then Some v else assoc k d'
  end.

(** [v[k]]: [KeyError] for a dict without the key, [TypeError] for a
    value that cannot be indexed by a string. *)
Definition getitem (v : pyval) (k : string) : outcome pyval :=
  match v with
  | PDict d =>
      match assoc k d with
      | Some x => Return x
      | None => Raise KeyError
      end
  | _ => Raise TypeError
  end.

(** [v == 'literal'] *)
Definition eq_str (v : pyval) (s : string) : bool :=
  match v with
  | PStr s' => String.eqb s' s
  | _ => false
  end.

(** ** Keys and input injection (pynput) *)

(** The members of [pynput.keyboard.Key] that the program names. *)
Module Key.
Inductive t : Set :=
| shift | ctrl | alt | enter | backspace | tab | esc | space
| up | down | left | right | delete | home | end_ | page_up | page_down
| f1 | f2 | f3 | f4 | f5 | f6 | f7 | f8 | f9 | f10 | f11 | f12.

Definition members : list (string * t) :=
  [("shift", shift); ("ctrl", ctrl); ("alt", alt); ("enter", enter);
   ("backspace", backspace); ("tab", tab); ("esc", esc); ("space", space);
   ("up", up); ("down", down); ("left", left); ("right", right);
   ("delete", delete); ("home", home); ("end", end_);
   ("page_up", page_up); ("page_down", page_down);
   ("f1", f1); ("f2", f2); ("f3", f3); ("f4", f4); ("f5", f5); ("f6", f6);
   ("f7", f7); ("f8", f8); ("f9", f9); ("f10", f10); ("f11", f11);
   ("f12", f12)]%string.

(** [getattr(keyboard.Key, name)] *)
Definition getattr (name : string) : outcome t :=
  match assoc name members with
  | Some k => Return k
  | None => Raise AttributeError
  end.
End Key.

(** What [_parse_key] hands to the keyboard controller: a member of
    [Key], or a string. *)
Inductive key : Type :=
| KeySpecial (k : Key.t)
| KeyText (s : string).

Inductive button : Set := ButtonLeft | ButtonRight.

(** The calls made on the pynput controllers. *)
Inductive input_call : Type :=
| SetPosition (x y : pyval)        (* mouse_ctrl.position = (x, y) *)
| MousePress (b : button)          (* mouse_ctrl.press(b) *)
| MouseRelease (b : button)        (* mouse_ctrl.release(b) *)
| MouseScroll (dx dy : pyval)      (* mouse_ctrl.scroll(dx, dy) *)
| KeyPress (k : key)               (* keyboard_ctrl.press(k) *)
| KeyRelease (k : key).            (* keyboard_ctrl.release(k) *)

(** ** The libraries the program calls

    zlib, OpenCV, the text codec, json, pynput and the file system are
    collaborators, not code of the program: the model takes them as an
    interface, and every property is stated for all its
    implementations. *)
Class Library : Type := {
  (* zlib.decompress(data) *)
  zlib_decompress : bytes -> outcome bytes;
  (* cv2.imdecode(np.frombuffer(buffer, np.uint8), cv2.IMREAD_COLOR):
     an image, or None for bytes that are no image *)
  imdecode : bytes -> outcome (option bitmap);
  (* data.decode() and text.encode() *)
  utf8_decode : bytes -> outcome string;
  utf8_encode : string -> bytes;
  (* text.lower() for a text with a character outside ASCII: the case
     tables of the Unicode database *)
  unicode_lower : string -> string;
  (* json.loads(text) and json.dumps(value) *)
  json_loads : string -> outcome pyval;
  json_dumps : pyval -> outcome string;
  (* whether a call on a pynput controller raises *)
  inject : input_call -> outcome unit;
  (* os.path.join(a, b) and os.path.basename(p) *)
  path_join : string -> string -> string;
  path_basename : string -> string;
  (* whether open(path, 'wb') raises *)
  open_wb : string -> outcome unit
}.

(** * Stream Receiver: class ScreenClient *)

Module ScreenClient.

Record t : Type := Make {
  on_frame : bool;            (* a display callback is installed *)
  running : bool;
  sock : socket;
  displayed : list bitmap;    (* the bitmaps passed to on_frame, in order *)
  stdout : list log_line
}.

Definition set_sock (s : socket) (c : t) : t :=
  Make (on_frame c) (running c) s (displayed c) (stdout c).

Definition print (l : log_line) (c : t) : t :=
  Make (on_frame c) (running c) (sock c) (displayed c) (stdout c ++ [l]).

Definition show (f : bitmap) (c : t) : t :=
  Make (on_frame c) (running c) (sock c) (displayed c ++ [f]) (stdout c).

(** The body of the loop of [_recv_exact]; the loop state is the data
    accumulated so far and the socket. *)
Definition recv_exact_body (size : Z) (st : bytes * socket)
  : flow (bytes * socket) (outcome (option bytes) * socket) :=
  let '(data, s) := st in
  if len data <? size then
    match recv (Z.min (size - len data) BUFFER_SIZE) s with
    | (Raise e, s') => Leave (Raise e, s')
    | (Return [], s') => Leave (Return None, s')
    | (Return chunk, s') => Again (data ++ chunk, s')
    end
  else Leave (Return (Some data), s).

(** [_recv_exact(size)].  Every pass that does not leave the loop adds
    at least one byte, so [size] passes and one more to leave suffice
    (theorem [recv_exact_total]). *)
Definition _recv_exact (size : Z) (s : socket)
  : option (outcome (option bytes) * socket) :=
  while (S (Z.to_nat size)) (fun st => Some (recv_exact_body size st)) ([], s).

(** [not v], for [v] a byte string or [None]. *)
Definition falsy (v : option bytes) : bool :=
  match v with
  | None | Some [] => true
  | Some (_ :: _) => false
  end.

Section WithLibrary.
Context {L : Library}.

(** How the [try] block of one pass of [_receive_stream] ends. *)
Inductive pass_end : Set :=
| FellThrough   (* reached the end of the block *)
| Broke.        (* executed [break] *)

(** The [try] block of [_receive_stream]. *)
Definition receive_stream_try (c : t) : option (outcome pass_end * t) :=
  (* header = self._recv_exact(8) *)
  '(r, s) ← _recv_exact 8 (sock c);
  let c := set_sock s c in
  match r with
  | Raise e => Some (Raise e, c)
  | Return header =>
      if falsy header then Some (Return Broke, c)
      else
        (* size, scale = struct.unpack('!II', header) *)
        match unpack_II (default [] header) with
        | Raise e => Some (Raise e, c)
        | Return (size, scale) =>
            (* data = self._recv_exact(size) *)
            '(r, s) ← _recv_exact size (sock c);
            let c := set_sock s c in
            match r with
            | Raise e => Some (Raise e, c)
            | Return data =>
                if falsy data then Some (Return Broke, c)
                else
                  (* buffer = zlib.decompress(data) *)
                  match zlib_decompress (default [] data) with
                  | Raise e => Some (Raise e, c)
                  | Return buffer =>
                      (* frame = cv2.imdecode(nparr, cv2.IMREAD_COLOR) *)
                      match imdecode buffer with
                      | Raise e => Some (Raise e, c)
                      | Return frame =>
                          (* if self.on_frame and frame is not None *)
                          match on_frame c, frame with
                          | true, Some f => Some (Return FellThrough, show f c)
                          | _, _ => Some (Return FellThrough, c)
                          end
                      end
                  end
            end
        end
  end.

(** One pass of [while self.running: try: ... except Exception as e:
    print(f"Receive error: {e}"); break]. *)
Definition receive_stream_body (c : t) : option (flow t t) :=
  if running c then
    '(r, c) ← receive_stream_try c;
    match r with
    | Return FellThrough => Some (Again c)
    | Return Broke => Some (Leave c)
    | Raise e => Some (Leave (print (ReceiveErrorLine e) c))
    end
  else Some (Leave c).

(** [_receive_stream()].  A pass that goes round again has read the 8
    bytes of a header, so the loop makes no more passes than bytes are
    pending, and one to leave (theorem [receive_stream_total]). *)
Definition _receive_stream (c : t) : option t :=
  while (S (length (stream (incoming (sock c))))) receive_stream_body c.

End WithLibrary.

(** [disconnect()] *)
Definition disconnect (c : t) : t :=
  Make (on_frame c) false (close (sock c)) (displayed c) (stdout c).

End ScreenClient.

(** * Control Channel, server side: class ControlServer *)

(** [x ← m; k] on outcomes: the first exception raised ends the
    evaluation. *)
#[global] Instance outcome_ret : MRet outcome := @Return.
#[global] Instance outcome_bind : MBind outcome :=
  fun A B f m =>
    match m with
    | Return a => f a
    | Raise e => Raise e
    end.

#[global] Instance outcome_fmap : FMap outcome :=
  fun A B f m =>
    match m with
    | Return a => Return (f a)
    | Raise e => Raise e
    end.

(** ** Text

    A [str] is held in a [string] as the bytes of its UTF-8 encoding. *)

(** [s.isascii()] *)
Fixpoint isascii (s : string) : bool :=
  match s with
  | EmptyString => true
  | String c s' => (N_of_ascii c <? 128)%N && isascii s'
  end.

(** [len(s)], the number of characters of the text: the bytes that
    start a character are all but the continuation bytes [10xxxxxx]. *)
Definition starts_char (c : ascii) : bool :=
  let n := N_of_ascii c in negb ((128 <=? n)%N && (n <=? 191)%N).

Fixpoint str_len (s : string) : nat :=
  match s with
  | EmptyString => O
  | String c s' => if starts_char c then S (str_len s') else str_len s'
  end.

(** The lower case of an ASCII character: the letters A to Z. *)
Definition lower_char (c : ascii) : ascii :=
  let n := N_of_ascii c in
  if (65 <=? n)%N && (n <=? 90)%N then ascii_of_N (n + 32) else c.

Fixpoint ascii_lower (s : string) : string :=
  match s with
  | EmptyString => EmptyString
  | String c s' => String (lower_char c) (ascii_lower s')
  end.

(** [s.lower()]: an ASCII text has its letters A to Z lowered; a text
    with a character outside ASCII is lowered by the Unicode tables,
    which may lower such a character to an ASCII letter (the Kelvin
    sign to [k]) or to more than one character. *)
Definition lower {L : Library} (s : string) : string :=
  if isascii s then ascii_lower s else unicode_lower s.

Module ControlServer.

Record t : Type := Make {
  running : bool;
  calls : list input_call;   (* the calls made on the controllers, in order *)
  stdout : list log_line
}.

Definition print (l : log_line) (c : t) : t :=
  Make (running c) (calls c) (stdout c ++ [l]).

Definition record (k : input_call) (c : t) : t :=
  Make (running c) (calls c ++ [k]) (stdout c).

(** The dict literal of [_parse_key]. *)
Definition special_keys_literal : list (string * Key.t) :=
  [("shift", Key.shift); ("ctrl", Key.ctrl); ("alt", Key.alt);
   ("enter", Key.enter); ("backspace", Key.backspace); ("tab", Key.tab);
   ("escape", Key.esc); ("space", Key.space); ("up", Key.up);
   ("down", Key.down); ("left", Key.left); ("right", Key.right);
   ("delete", Key.delete); ("home", Key.home); ("end", Key.end_);
   ("page_up", Key.page_up); ("page_down", Key.page_down)]%string.

(** [for i in ...: special_keys[f'f{i}'] = getattr(keyboard.Key, f'f{i}')] *)
Fixpoint add_f_keys (range : list Z) (m : gmap string Key.t)
  : outcome (gmap string Key.t) :=
  match range with
  | [] => Return m
  | i :: range' =>
      k ← Key.getattr ("f" +:+ pretty i);
      add_f_keys range' (<["f" +:+ pretty i := k]> m)
  end.

(** The table [special_keys] as [_parse_key] builds it on each call. *)
Definition special_keys : outcome (gmap string Key.t) :=
  add_f_keys (seqZ 1 12)
    (foldl (fun m kv => <[kv.1 := kv.2]> m) ∅ special_keys_literal).

Section WithLibrary.
Context {L : Library}.

(** [_parse_key(key_str)]:
    [special_keys.get(key_str.lower(), key_str)]. *)
Definition _parse_key (key_str : pyval) : outcome key :=
  table ← special_keys;
  match key_str with
  | PStr s =>
      Return match table !! lower s with
             | Some k => KeySpecial k
             | None => KeyText s
             end
  | _ => Raise AttributeError
  end.

(** The controller call that the [try] block of [_execute_command]
    arrives at: none for a [type] that no branch tests for. *)
Definition command_call (cmd : pyval) : outcome (option input_call) :=
  ty ← getitem cmd "type";
  if eq_str ty "mouse_move" then
    x ← getitem cmd "x";
    y ← getitem cmd "y";
    Return (Some (SetPosition x y))
  else if eq_str ty "mouse_click" then
    b ← getitem cmd "button";
    let btn := if eq_str b "left" then ButtonLeft else ButtonRight in
    a ← getitem cmd "action";
    Return (Some (if eq_str a "press" then MousePress btn
                  else MouseRelease btn))
  else if eq_str ty "mouse_scroll" then
    dx ← getitem cmd "dx";
    dy ← getitem cmd "dy";
    Return (Some (MouseScroll dx dy))
  else if eq_str ty "key" then
    k ← getitem cmd "key";
    key ← _parse_key k;
    a ← getitem cmd "action";
    Return (Some (if eq_str a "press" then KeyPress key else KeyRelease key))
  else Return None.

(** [_execute_command(cmd)]: [try: ... except Exception as e:
    print(f"Control error: {e}")]. *)
Definition _execute_command (cmd : pyval) (c : t) : t :=
  match command_call cmd with
  | Raise e => print (ControlErrorLine e) c
  | Return None => c
  | Return (Some k) =>
      match inject k with
      | Return _ => record k c
      | Raise e => print (ControlErrorLine e) (record k c)
      end
  end.

(** The [try] block of [_handle_client]: [Return None] for [break]. *)
Definition handle_client_try (c : t) (client : socket)
  : outcome (option t) * socket :=
  (* data = client.recv(BUFFER_SIZE) *)
  let '(r, client) := recv BUFFER_SIZE client in
  (match r with
   | Raise e => Raise e
   | Return [] => Return None
   | Return data =>
       (* cmd = json.loads(data.decode()) *)
       text ← utf8_decode data;
       cmd ← json_loads text;
       Return (Some (_execute_command cmd c))
   end, client).

(** One pass of [while self.running: try: ... except: break]. *)
Definition handle_client_body (st : t * socket) : flow (t * socket) (t * socket) :=
  let '(c, client) := st in
  if running c then
    match handle_client_try c client with
    | (Return (Some c'), client') => Again (c', client')
    | (Return None, client') => Leave (c, client')
    | (Raise _, client') => Leave (c, client')
    end
  else Leave (c, client).

(** [_handle_client(client)]: the loop, then [client.close()].  A pass
    that goes round again has taken bytes from a segment, and takes at
    most [BUFFER_SIZE] of them (theorem [handle_client_total]). *)
Definition _handle_client (c : t) (client : socket) : option (t * socket) :=
  '(c, client) ← while (S (length (stream (incoming client))))
                   (fun st => Some (handle_client_body st)) (c, client);
  Some (c, close client).

End WithLibrary.

End ControlServer.

(** * Control Channel, client side: class ControlClient *)

(** The float nearest to an integer ([OverflowError] when there is
    none), as Python converts the integer operand of [x / scale]. *)
Definition float_of_int (x : Z) : outcome float :=
  let f := SF2Prim (binary_normalize 53 1024 x 0 false) in
  if is_infinity f then Raise OverflowError else Return f.

(** [x / s] for an integer [x] and a float [s]. *)
Definition truediv (x : Z) (s : float) : outcome float :=
  fx ← float_of_int x;
  if PrimFloat.eqb s 0 then Raise ZeroDivisionError
  else Return (PrimFloat.div fx s).

(** [int(f)]: truncation towards zero. *)
Definition int_of_float (f : float) : outcome Z :=
  match Prim2SF f with
  | S754_zero _ => Return 0
  | S754_infinity _ => Raise OverflowError
  | S754_nan => Raise ValueError
  | S754_finite sign m e =>
      let magnitude :=
        if 0 <=? e then Z.shiftl (Z.pos m) e else Z.shiftr (Z.pos m) (- e) in
      Return (if sign then - magnitude else magnitude)
  end.

Module ControlClient.

Record t : Type := Make {
  sock : socket;
  connected : bool;
  scale : float
}.

Section WithLibrary.
Context {L : Library}.

(** [_send(cmd)]: a failed write marks the client disconnected. *)
Definition _send (cmd : pyval) (c : t) : t :=
  match json_dumps cmd with
  | Raise _ => Make (sock c) false (scale c)
  | Return text =>
      match sendall (utf8_encode text) (sock c) with
      | (Return _, s) => Make s (connected c) (scale c)
      | (Raise _, s) => Make s false (scale c)
      end
  end.

(** [{'type': 'mouse_move', 'x': x, 'y': y}] *)
Definition mouse_move_cmd (x y : Z) : pyval :=
  PDict [("type", PStr "mouse_move"); ("x", PInt x); ("y", PInt y)]%string.

(** [send_mouse_move(x, y)]; an exception of the arithmetic is not
    caught here and reaches the caller. *)
Definition send_mouse_move (x y : Z) (c : t) : outcome unit * t :=
  if connected c then
    match (fx ← truediv x (scale c); int_of_float fx) with
    | Raise e => (Raise e, c)
    | Return x' =>
        match (fy ← truediv y (scale c); int_of_float fy) with
        | Raise e => (Raise e, c)
        | Return y' => (Return tt, _send (mouse_move_cmd x' y') c)
        end
    end
  else (Return tt, c).

(** [send_mouse_click(button, action)] *)
Definition send_mouse_click (button action : pyval) (c : t) : t :=
  if connected c then
    _send (PDict [("type", PStr "mouse_click"); ("button", button);
                  ("action", action)]%string) c
  else c.

(** [send_mouse_scroll(dx, dy)] *)
Definition send_mouse_scroll (dx dy : pyval) (c : t) : t :=
  if connected c then
    _send (PDict [("type", PStr "mouse_scroll"); ("dx", dx);
                  ("dy", dy)]%string) c
  else c.

(** [send_key(key, action)] *)
Definition send_key (key action : pyval) (c : t) : t :=
  if connected c then
    _send (PDict [("type", PStr "key"); ("key", key);
                  ("action", action)]%string) c
  else c.

End WithLibrary.

(** [disconnect()] *)
Definition disconnect (c : t) : t := Make (close (sock c)) false (scale c).

End ControlClient.

(** * File Channel, receiver: class FileServer *)

Module FileServer.

Record t : Type := Make {
  save_dir : string;
  running : bool;
  files : gmap string bytes;   (* the files on disk, each under the path
                                  it was opened by; two spellings of a
                                  path are two keys *)
  stdout : list log_line
}.

Definition print (l : log_line) (c : t) : t :=
  Make (save_dir c) (running c) (files c) (stdout c ++ [l]).

Definition set_files (fs : gmap string bytes) (c : t) : t :=
  Make (save_dir c) (running c) fs (stdout c).

(** [f.write(chunk)] on the file opened at [path]. *)
Definition write (path : string) (chunk : bytes) (fs : gmap string bytes)
  : gmap string bytes :=
  alter (fun old => old ++ chunk) path fs.

(** One pass of the copy loop of [_receive_file]; the loop state is
    [received], the disk and the socket. *)
Definition copy_body (path : string) (file_size : Z)
    (st : Z * gmap string bytes * socket)
  : flow (Z * gmap string bytes * socket)
         (outcome unit * gmap string bytes * socket) :=
  let '(received, fs, client) := st in
  if received <? file_size then
    match recv (Z.min BUFFER_SIZE (file_size - received)) client with
    | (Raise e, client') => Leave (Raise e, fs, client')
    | (Return [], client') => Leave (Return tt, fs, client')
    | (Return chunk, client') =>
        Again (received + len chunk, write path chunk fs, client')
    end
  else Leave (Return tt, fs, client).

Section WithLibrary.
Context {L : Library}.

(** The [try] block of [_receive_file].  Each pass of the copy loop
    that goes round again has received at least one byte (theorem
    [receive_file_total]). *)
Definition receive_file_try (c : t) (client : socket)
  : option (outcome unit * t * socket) :=
  (* header = client.recv(8) *)
  let '(r, client) := recv 8 client in
  match r with
  | Raise e => Some (Raise e, c, client)
  | Return header =>
      (* name_len, file_size = struct.unpack('!II', header) *)
      match unpack_II header with
      | Raise e => Some (Raise e, c, client)
      | Return (name_len, file_size) =>
          (* filename = client.recv(name_len).decode() *)
          let '(r, client) := recv name_len client in
          match (raw ← r; utf8_decode raw) with
          | Raise e => Some (Raise e, c, client)
          | Return filename =>
              let filepath := path_join (save_dir c) filename in
              (* with open(filepath, 'wb') as f *)
              match open_wb filepath with
              | Raise e => Some (Raise e, c, client)
              | Return _ =>
                  '(r, fs, client) ←
                    while (S (Z.to_nat file_size))
                      (fun st => Some (copy_body filepath file_size st))
                      (0, <[filepath := []]> (files c), client);
                  let c := set_files fs c in
                  match r with
                  | Raise e => Some (Raise e, c, client)
                  | Return _ =>
                      Some (Return tt,
                            print (ReceivedFileLine filename file_size) c,
                            client)
                  end
              end
          end
      end
  end.

(** [_receive_file(client)]: [try: ... except Exception as e:
    print(f"File receive error: {e}") finally: client.close()]. *)
Definition _receive_file (c : t) (client : socket) : option (t * socket) :=
  '(r, c, client) ← receive_file_try c client;
  match r with
  | Return _ => Some (c, close client)
  | Raise e => Some (print (FileReceiveErrorLine e) c, close client)
  end.

End WithLibrary.

End FileServer.

(** * File Channel, sender: class FileClient *)

Module FileClient.

(** One pass of [while True: chunk = f.read(BUFFER_SIZE) ...]; the loop
    state is the unread rest of the file and the socket. *)
Definition send_body (st : bytes * socket)
  : flow (bytes * socket) (outcome unit * socket) :=
  let '(rest, sock) := st in
  match take (Z.to_nat BUFFER_SIZE) rest with
  | [] => Leave (Return tt, sock)
  | chunk =>
      match sendall chunk sock with
      | (Raise e, sock') => Leave (Raise e, sock')
      | (Return _, sock') => Again (drop (Z.to_nat BUFFER_SIZE) rest, sock')
      end
  end.

Section WithLibrary.
Context {L : Library}.

(** The [try] block of [send_file], from the connected socket on; a
    file that is not on disk makes [os.path.getsize] raise. *)
Definition send_file_try (fs : gmap string bytes) (sock : socket)
    (filepath : string) : option (outcome unit * socket) :=
  let filename := path_basename filepath in
  match fs !! filepath with
  | None => Some (Raise OSError, sock)
  | Some content =>
      match pack_II (len (utf8_encode filename)) (len content) with
      | Raise e => Some (Raise e, sock)
      | Return header =>
          match sendall header sock with
          | (Raise e, sock) => Some (Raise e, sock)
          | (Return _, sock) =>
              match sendall (utf8_encode filename) sock with
              | (Raise e, sock) => Some (Raise e, sock)
              | (Return _, sock) =>
                  '(r, sock) ← while (S (length content))
                                  (fun st => Some (send_body st))
                                  (content, sock);
                  match r with
                  | Raise e => Some (Raise e, sock)
                  | Return _ => Some (Return tt, close sock)
                  end
              end
          end
      end
  end.

(** [send_file(ip, filepath)]: [True] when the [try] block ended,
    [False] when it raised. *)
Definition send_file (fs : gmap string bytes) (sock : socket)
    (filepath : string) : option (bool * socket) :=
  '(r, sock) ← send_file_try fs sock filepath;
  match r with
  | Return _ => Some (true, sock)
  | Raise _ => Some (false, sock)
  end.

End WithLibrary.

End FileClient.

(** * Stream Broadcaster: class ScreenServer *)

Module ScreenServer.

(** What a broadcast cycle does to the viewers, in order. *)
Inductive event : Set :=
| Sent (client : nat)       (* sendall returned *)
| Failed (client : nat)     (* sendall raised: appended to dead_clients *)
| Removed (client : nat).   (* self.clients.remove(client) *)

(** [clients] is the list [self.clients] of socket objects, each named
    by a number; [conns] holds the state of each of them. *)
Record t : Type := Make {
  running : bool;
  clients : list nat;
  conns : gmap nat socket;
  trace : list event;
  stdout : list log_line
}.

Definition print (l : log_line) (c : t) : t :=
  Make (running c) (clients c) (conns c) (trace c) (stdout c ++ [l]).

Definition note (e : event) (c : t) : t :=
  Make (running c) (clients c) (conns c) (trace c ++ [e]) (stdout c).

Definition set_clients (l : list nat) (c : t) : t :=
  Make (running c) l (conns c) (trace c) (stdout c).

Definition set_conn (i : nat) (s : socket) (c : t) : t :=
  Make (running c) (clients c) (<[i := s]> (conns c)) (trace c) (stdout c).

(** [client.sendall(packet)] inside [try: ... except:], returning
    whether it raised; a name without a socket behind it is a
    descriptor that is gone. *)
Definition send_to (packet : bytes) (i : nat) (c : t) : bool * t :=
  match conns c !! i with
  | None => (true, note (Failed i) c)
  | Some s =>
      match sendall packet s with
      | (Return _, s') => (false, note (Sent i) (set_conn i s' c))
      | (Raise _, s') => (true, note (Failed i) (set_conn i s' c))
      end
  end.

(** [for client in self.clients: try: client.sendall(header + data)
    except: dead_clients.append(client)], over the viewers [l] still to
    visit. *)
Fixpoint send_to_all (packet : bytes) (l : list nat) (dead : list nat) (c : t)
  : list nat * t :=
  match l with
  | [] => (dead, c)
  | i :: l' =>
      let '(raised, c') := send_to packet i c in
      send_to_all packet l' (if raised then dead ++ [i] else dead) c'
  end.

(** [l.remove(x)]: drops the first [x]; [ValueError] without one. *)
Fixpoint list_remove (x : nat) (l : list nat) : outcome (list nat) :=
  match l with
  | [] => Raise ValueError
  | y :: l' =>
      if Nat.eqb x y then Return l'
      else l'' ← list_remove x l'; Return (y :: l'')
  end.

(** [for client in dead_clients: self.clients.remove(client)] *)
Fixpoint remove_dead (dead : list nat) (c : t) : outcome unit * t :=
  match dead with
  | [] => (Return tt, c)
  | i :: dead' =>
      match list_remove i (clients c) with
      | Raise e => (Raise e, c)
      | Return l => remove_dead dead' (note (Removed i) (set_clients l c))
      end
  end.

(** One cycle of [_stream_screen] from the encoded frame on: [data] is
    the compressed image and [percent] is [int(scale * 100)]. *)
Definition broadcast_cycle (data : bytes) (percent : Z) (c : t) : t :=
  let r :=
    match pack_II (len data) percent with
    | Raise e => (Raise e, c)
    | Return header =>
        let '(dead, c) := send_to_all (header ++ data) (clients c) [] c in
        remove_dead dead c
    end in
  match r with
  | (Return _, c) => c
  | (Raise e, c) => if running c then print (StreamErrorLine e) c else c
  end.

(** [min(a, b)] on floats: [b] when it is less than [a]. *)
Definition float_min (a b : float) : float :=
  if PrimFloat.ltb b a then b else a.

(** [scale = min(1.0, 1920 / w)] for a frame [w] pixels wide; the
    integers of a width convert to floats exactly, so that the quotient
    of the integers is the quotient of the floats. *)
Definition capture_scale (w : Z) : outcome float :=
  n ← float_of_int 1920;
  d ← float_of_int w;
  if PrimFloat.eqb d 0 then Raise ZeroDivisionError
  else Return (float_min 1 (PrimFloat.div n d)).

(** [int(scale * 100)] *)
Definition scale_percent (w : Z) : outcome Z :=
  s ← capture_scale w; int_of_float (PrimFloat.mul s 100).

(** One cycle of [_stream_screen] from the captured frame on: [w] is
    its width and [data] the compressed image.  A frame without pixels
    does not come so far: [cv2.cvtColor] raises on it. *)
Definition stream_cycle (w : Z) (data : bytes) (c : t) : t :=
  match (if w <=? 0 then Raise Cv2Error else scale_percent w) with
  | Return percent => broadcast_cycle data percent c
  | Raise e => if running c then print (StreamErrorLine e) c else c
  end.

(** [stop()], as far as the viewers go: every viewer socket is closed;
    a name without a socket behind it makes [close] raise, which is
    passed over. *)
Definition stop (c : t) : t :=
  Make false (clients c)
    (foldl (fun m i => match m !! i with
                       | Some s => <[i := close s]> m
                       | None => m
                       end) (conns c) (clients c))
    (trace c) (stdout c).

End ScreenServer.

(** * A reference library

    One implementation of [Library], for running the model on concrete
    inputs.  Each function follows the real library on a fragment of
    its inputs, named in its comment; the examples stay inside the
    fragments. *)

Module Ref.

(** *** zlib: streams made of stored blocks *)

Definition adler32 (data : bytes) : Z :=
  let '(a, b) :=
    foldl (fun ab x =>
             let a := (ab.1 + byte_val x) mod 65521 in
             (a, (ab.2 + a) mod 65521)) (1, 0) data in
  Z.lor (Z.shiftl b 16) a.

(** The stored blocks of a deflate stream, up to the final one: the
    data and what follows it.  A block of another type is not read. *)
Fixpoint stored_blocks (n : nat) (s : bytes) : option (bytes * bytes) :=
  match n, s with
  | S n', hd :: l0 :: l1 :: n0 :: n1 :: rest =>
      let size := byte_val l0 + 256 * byte_val l1 in
      if (Z.land (byte_val hd) 6 =? 0)
         && (size + (byte_val n0 + 256 * byte_val n1) =? 65535)
         && (size <=? len rest)
      then
        let data := take (Z.to_nat size) rest in
        let rest := drop (Z.to_nat size) rest in
        if Z.land (byte_val hd) 1 =? 1 then Some (data, rest)
        else '(more, rest) ← stored_blocks n' rest; Some (data ++ more, rest)
      else None
  | _, _ => None
  end.

(** [zlib.decompress]: the two header bytes, stored blocks, and the
    Adler-32 of the data. *)
Definition zlib_decompress (data : bytes) : outcome bytes :=
  match data with
  | cmf :: flg :: body =>
      if (Z.land (byte_val cmf) 15 =? 8)
         && (Z.shiftr (byte_val cmf) 4 <=? 7)
         && ((256 * byte_val cmf + byte_val flg) mod 31 =? 0)
         && (Z.land (byte_val flg) 32 =? 0)
      then
        match stored_blocks (length body) body with
        | Some (out, [c0; c1; c2; c3]) =>
            if be32 c0 c1 c2 c3 =? adler32 out then Return out
            else Raise ZlibError
        | _ => Raise ZlibError
        end
      else Raise ZlibError
  | _ => Raise ZlibError
  end.

(** [zlib.compress(data, 0)] for data of less than 65536 bytes: one
    stored block. *)
Definition zlib_store (data : bytes) : bytes :=
  [x78; x01; x01; byte_of_Z (len data); byte_of_Z (Z.shiftr (len data) 8);
   byte_of_Z (65535 - len data); byte_of_Z (Z.shiftr (65535 - len data) 8)]
  ++ data ++ be32_bytes (adler32 data).

(** *** OpenCV: binary portable pixmaps *)

Definition is_digit (x : byte) : bool :=
  (48 <=? byte_val x) && (byte_val x <=? 57).

Definition is_space (x : byte) : bool :=
  (byte_val x =? 32) || ((9 <=? byte_val x) && (byte_val x <=? 13)).

(** A run of decimal digits and what follows it. *)
Fixpoint digits (s : bytes) (acc : option Z) : option Z * bytes :=
  match s with
  | x :: s' =>
      if is_digit x
      then digits s' (Some (10 * default 0 acc + (byte_val x - 48)))
      else (acc, s)
  | [] => (acc, s)
  end.

(** One white-space byte, then a number. *)
Definition field (s : bytes) : option (Z * bytes) :=
  match s with
  | x :: s' =>
      if is_space x then
        match digits s' None with
        | (Some n, rest) => Some (n, rest)
        | (None, _) => None
        end
      else None
  | [] => None
  end.

(** RGB triples to the BGR order of OpenCV. *)
Fixpoint bgr (s : bytes) : bytes :=
  match s with
  | r :: g :: b :: s' => b :: g :: r :: bgr s'
  | _ => []
  end.

(** [cv2.imdecode(..., cv2.IMREAD_COLOR)]: an error for an empty
    buffer; the image of a [P6] pixmap with one white-space byte
    between its fields and 255 as its largest sample; [None] for all
    else. *)
Definition imdecode (buf : bytes) : outcome (option bitmap) :=
  match buf with
  | [] => Raise Cv2Error
  | p :: six :: s =>
      if (byte_val p =? 80) && (byte_val six =? 54) then
        match field s with
        | Some (w, s) =>
            match field s with
            | Some (h, s) =>
                match field s with
                | Some (255, x :: px) =>
                    if is_space x && (0 <? w) && (0 <? h)
                       && (len px =? 3 * w * h)
                    then Return (Some (Bitmap h w (bgr px)))
                    else Return None
                | _ => Return None
                end
            | None => Return None
            end
        | None => Return None
        end
      else Return None
  | _ => Return None
  end.

(** *** Text: UTF-8, held in a [string] byte by byte *)

Definition between (lo x hi : Z) : bool := (lo <=? x) && (x <=? hi).

Definition cont (x : byte) : bool := between 128 (byte_val x) 191.

(** Well-formed UTF-8 (Unicode, table 3-7). *)
Fixpoint utf8_valid (n : nat) (s : bytes) : bool :=
  match n with
  | O => false
  | S n' =>
      match s with
      | [] => true
      | a :: s1 =>
          let a := byte_val a in
          if a <=? 127 then utf8_valid n' s1
          else
            match s1 with
            | b :: s2 =>
                if between 194 a 223 then cont b && utf8_valid n' s2
                else
                  match s2 with
                  | c :: s3 =>
                      let lead3 :=
                        ((a =? 224) && between 160 (byte_val b) 191)
                        || ((between 225 a 236 || between 238 a 239) && cont b)
                        || ((a =? 237) && between 128 (byte_val b) 159) in
                      if between 224 a 239
                      then lead3 && cont c && utf8_valid n' s3
                      else
                        match s3 with
                        | d :: s4 =>
                            (((a =? 240) && between 144 (byte_val b) 191)
                             || (between 241 a 243 && cont b)
                             || ((a =? 244) && between 128 (byte_val b) 143))
                            && cont c && cont d && utf8_valid n' s4
                        | [] => false
                        end
                  | [] => false
                  end
            | [] => false
            end
      end
  end.

Definition utf8_decode (data : bytes) : outcome string :=
  if utf8_valid (S (length data)) data
  then Return (string_of_list_byte data)
  else Raise UnicodeDecodeError.

Definition utf8_encode (s : string) : bytes := list_byte_of_string s.

(** [lower()] beyond ASCII: the Kelvin sign (U+212A, bytes E2 84 AA),
    the one character outside ASCII whose lower case is an ASCII
    letter; the other characters outside ASCII are left as they are. *)
Fixpoint unicode_lower (s : string) : string :=
  match s with
  | EmptyString => EmptyString
  | String c s1 =>
      match s1 with
      | String c1 (String c2 s3) =>
          if (N_of_ascii c =? 226)%N && (N_of_ascii c1 =? 132)%N
             && (N_of_ascii c2 =? 170)%N
          then String "k" (unicode_lower s3)
          else String (lower_char c) (unicode_lower s1)
      | _ => String (lower_char c) (unicode_lower s1)
      end
  end.

(** *** json: ASCII text without [\u] escapes, numbers without
    fraction or exponent *)

Definition code (c : ascii) : Z := Z.of_N (N_of_ascii c).

Definition ws (c : ascii) : bool :=
  (code c =? 32) || (code c =? 9) || (code c =? 10) || (code c =? 13).

Fixpoint skip_ws (s : string) : string :=
  match s with
  | String c s' => if ws c then skip_ws s' else s
  | EmptyString => s
  end.

Fixpoint read_digits (s : string) (acc : Z) : Z * string :=
  match s with
  | String c s' =>
      if between 48 (code c) 57
      then read_digits s' (10 * acc + (code c - 48))
      else (acc, s)
  | EmptyString => (acc, s)
  end.

(** The digits of an integer, after its sign. *)
Definition read_natural (s : string) : option (Z * string) :=
  match s with
  | String c s' =>
      if code c =? 48 then Some (0, s')
      else if between 49 (code c) 57 then Some (read_digits s' (code c - 48))
      else None
  | EmptyString => None
  end.

Definition read_number (s : string) : option (pyval * string) :=
  '(n, rest) ← match s with
               | String "-" s' => '(n, rest) ← read_natural s'; Some (- n, rest)
               | _ => read_natural s
               end;
  match rest with
  | String "." _ | String "e" _ | String "E" _ => None
  | _ => Some (PInt n, rest)
  end.

Definition unescape (c : ascii) : option ascii :=
  if code c =? 34 then Some c else
  match c with
  | "\"%char | "/"%char => Some c
  | "b"%char => Some (ascii_of_N 8)
  | "f"%char => Some (ascii_of_N 12)
  | "n"%char => Some (ascii_of_N 10)
  | "r"%char => Some (ascii_of_N 13)
  | "t"%char => Some (ascii_of_N 9)
  | _ => None
  end.

(** A string literal after its opening quote. *)
Fixpoint read_string (s : string) : option (string * string) :=
  match s with
  | EmptyString => None
  | String c s' =>
      if code c =? 34 then Some (EmptyString, s')
      else if code c =? 92 then
        match s' with
        | String e s'' =>
            x ← unescape e;
            '(t, rest) ← read_string s'';
            Some (String x t, rest)
        | EmptyString => None
        end
      else if code c <? 32 then None
      else '(t, rest) ← read_string s'; Some (String c t, rest)
  end.

(** [d[k] = v] on a dict. *)
Fixpoint dict_set (k : string) (v : pyval) (d : list (string * pyval))
  : list (string * pyval) :=
  match d with
  | [] => [(k, v)]
  | (k', v') :: d' =>
      if String.eqb k k' then (k, v) :: d' else (k', v') :: dict_set k v d'
  end.

Fixpoint read_value (n : nat) (s : string) : option (pyval * string) :=
  match n with
  | O => None
  | S n' =>
      match skip_ws s with
      | String "{" s1 =>
          match skip_ws s1 with
          | String "}" s2 => Some (PDict [], s2)
          | _ =>
              '(d, rest) ← read_members n' s1;
              Some (PDict (foldl (fun d kv => dict_set kv.1 kv.2 d) [] d), rest)
          end
      | String "[" s1 =>
          match skip_ws s1 with
          | String "]" s2 => Some (PList [], s2)
          | _ => '(l, rest) ← read_elements n' s1; Some (PList l, rest)
          end
      | String "t" (String "r" (String "u" (String "e" rest))) =>
          Some (PBool true, rest)
      | String "f" (String "a" (String "l" (String "s" (String "e" rest)))) =>
          Some (PBool false, rest)
      | String "n" (String "u" (String "l" (String "l" rest))) =>
          Some (PNone, rest)
      | String c s1 as s0 =>
          if code c =? 34
          then '(t, rest) ← read_string s1; Some (PStr t, rest)
          else read_number s0
      | EmptyString => None
      end
  end
with read_members (n : nat) (s : string)
  : option (list (string * pyval) * string) :=
  match n with
  | O => None
  | S n' =>
      match skip_ws s with
      | String c s1 =>
          if code c =? 34 then
            '(k, s2) ← read_string s1;
            match skip_ws s2 with
            | String ":" s3 =>
                '(v, s4) ← read_value n' s3;
                match skip_ws s4 with
                | String "," s5 =>
                    '(d, rest) ← read_members n' s5; Some ((k, v) :: d, rest)
                | String "}" s5 => Some ([(k, v)], s5)
                | _ => None
                end
            | _ => None
            end
          else None
      | EmptyString => None
      end
  end
with read_elements (n : nat) (s : string) : option (list pyval * string) :=
  match n with
  | O => None
  | S n' =>
      '(v, s1) ← read_value n' s;
      match skip_ws s1 with
      | String "," s2 => '(l, rest) ← read_elements n' s2; Some (v :: l, rest)
      | String "]" s2 => Some ([v], s2)
      | _ => None
      end
  end.

(** [json.loads]: one value, and nothing but white space after it. *)
Definition json_loads (text : string) : outcome pyval :=
  match read_value (S (String.length text)) text with
  | Some (v, rest) =>
      match skip_ws rest with
      | EmptyString => Return v
      | _ => Raise JSONDecodeError
      end
  | None => Raise JSONDecodeError
  end.

Definition hex_digit (n : Z) : ascii :=
  ascii_of_N (Z.to_N (if n <? 10 then 48 + n else 87 + n)).

Fixpoint escape (s : string) : string :=
  match s with
  | EmptyString => EmptyString
  | String c s' =>
      (if code c =? 34 then String "\" (String c EmptyString)
       else if code c =? 92 then "\\"
       else if code c =? 10 then "\n"
       else if code c =? 13 then "\r"
       else if code c =? 9 then "\t"
       else if code c =? 8 then "\b"
       else if code c =? 12 then "\f"
       else if code c <? 32 then
         "\u00" +:+ String (hex_digit (code c / 16))
                     (String (hex_digit (code c mod 16)) EmptyString)
       else String c EmptyString) +:+ escape s'
  end.

Definition quote (s : string) : string :=
  String (ascii_of_N 34) (escape s +:+ String (ascii_of_N 34) EmptyString).

(** [json.dumps], with its separators [", "] and [": "]; a float is
    outside the fragment. *)
Fixpoint json_dumps (v : pyval) : outcome string :=
  match v with
  | PNone => Return "null"%string
  | PBool true => Return "true"%string
  | PBool false => Return "false"%string
  | PInt z => Return (pretty z)
  | PFloat _ => Raise ValueError
  | PStr s => Return (quote s)
  | PList l =>
      body ← (fix items (l : list pyval) : outcome string :=
                match l with
                | [] => Return EmptyString
                | [x] => json_dumps x
                | x :: l' =>
                    a ← json_dumps x; b ← items l'; Return (a +:+ ", " +:+ b)
                end) l;
      Return ("[" +:+ body +:+ "]")
  | PDict d =>
      body ← (fix items (d : list (string * pyval)) : outcome string :=
                match d with
                | [] => Return EmptyString
                | [(k, x)] => a ← json_dumps x; Return (quote k +:+ ": " +:+ a)
                | (k, x) :: d' =>
                    a ← json_dumps x; b ← items d';
                    Return (quote k +:+ ": " +:+ a +:+ ", " +:+ b)
                end) d;
      Return ("{" +:+ body +:+ "}")
  end.

(** *** pynput: a key given as text is one character; a position and a
    scroll take numbers *)

Definition numeric (v : pyval) : bool :=
  match v with
  | PInt _ | PFloat _ | PBool _ => true
  | _ => false
  end.

Definition inject (k : input_call) : outcome unit :=
  match k with
  | KeyPress (KeyText s) | KeyRelease (KeyText s) =>
      if (str_len s =? 1)%nat then Return tt else Raise ValueError
  | SetPosition x y | MouseScroll x y =>
      if numeric x && numeric y then Return tt else Raise TypeError
  | _ => Return tt
  end.

(** *** os.path and open, on POSIX paths *)

Fixpoint ends_with_slash (s : string) : bool :=
  match s with
  | EmptyString => false
  | String c EmptyString => code c =? 47
  | String _ s' => ends_with_slash s'
  end.

Fixpoint has_slash (s : string) : bool :=
  match s with
  | EmptyString => false
  | String c s' => (code c =? 47) || has_slash s'
  end.

Definition path_join (a b : string) : string :=
  match a, b with
  | _, String "/" _ => b
  | EmptyString, _ => b
  | _, _ => if ends_with_slash a then a +:+ b else a +:+ "/" +:+ b
  end.

Fixpoint path_basename (p : string) : string :=
  match p with
  | EmptyString => EmptyString
  | String c p' =>
      if has_slash p' then path_basename p'
      else if code c =? 47 then p' else p
  end.

(** [open(path, 'wb')]: no file can be opened at a directory. *)
Definition open_wb (path : string) : outcome unit :=
  match path with
  | EmptyString => Raise OSError
  | _ => if ends_with_slash path then Raise OSError else Return tt
  end.

Definition library : Library :=
  Build_Library zlib_decompress imdecode utf8_decode utf8_encode
    unicode_lower json_loads json_dumps inject path_join path_basename
    open_wb.

End Ref.

(** * Peer discovery: class LANDiscovery *)

Module LANDiscovery.

(** What [zc.get_service_info] returns of a service: its addresses,
    packed, and its properties, whose values may be absent. *)
Record service_info : Type := ServiceInfo {
  addresses : list bytes;
  properties : list (bytes * option bytes)
}.

(** The calls made on the two callbacks. *)
Inductive callback : Type :=
| Found (name ip hostname : string)   (* on_found(name, ip, hostname) *)
| Removed (name : string).            (* on_removed(name) *)

Record t : Type := Make {
  on_found : bool;      (* a callback is installed *)
  on_removed : bool;
  peers : gmap string (string * string);   (* name -> (ip, hostname) *)
  called : list callback
}.

(** What [add_service] can raise. *)
Inductive error : Type :=
| IndexError                  (* info.addresses[0] of an empty list *)
| InetError                   (* inet_ntoa of other than 4 bytes *)
| NoneDecode                  (* .decode() of a property without a value *)
| DecodeError (e : exn).      (* .decode() of bytes that are no text *)

(** [socket.inet_ntoa(packed)] *)
Definition inet_ntoa (packed : bytes) : option string :=
  match packed with
  | [a; b; c; d] =>
      Some (pretty (byte_val a) +:+ "." +:+ pretty (byte_val b) +:+ "."
            +:+ pretty (byte_val c) +:+ "." +:+ pretty (byte_val d))
  | _ => None
  end.

(** [a == b] on byte strings. *)
Fixpoint bytes_eqb (a b : bytes) : bool :=
  match a, b with
  | [], [] => true
  | x :: a', y :: b' => Byte.eqb x y && bytes_eqb a' b'
  | _, _ => false
  end.

(** [d.get(k, default)] on the properties. *)
Fixpoint get (k : bytes) (d : list (bytes * option bytes))
    (default : option bytes) : option bytes :=
  match d with
  | [] => default
  | (k', v) :: d' => if bytes_eqb k k' then v else get k d' default
  end.

Section WithLibrary.
Context {L : Library}.

(** [add_service(zc, type_, name)]; [info] is what
    [zc.get_service_info(type_, name)] returns. *)
Definition add_service (info : option service_info) (name : string) (c : t)
  : (unit + error) * t :=
  match info with
  | None => (inl tt, c)
  | Some info =>
      match addresses info with
      | [] => (inr IndexError, c)
      | packed :: _ =>
          match inet_ntoa packed with
          | None => (inr InetError, c)
          | Some ip =>
              match get (list_byte_of_string "hostname") (properties info)
                      (Some (list_byte_of_string "Unknown")) with
              | None => (inr NoneDecode, c)
              | Some raw =>
                  match utf8_decode raw with
                  | Raise e => (inr (DecodeError e), c)
                  | Return hostname =>
                      (inl tt,
                       Make (on_found c) (on_removed c)
                         (<[name := (ip, hostname)]> (peers c))
                         (if on_found c
                          then called c ++ [Found name ip hostname]
                          else called c))
                  end
              end
          end
      end
  end.

(** [update_service(zc, type_, name)] *)
Definition update_service (info : option service_info) (name : string) (c : t)
  : (unit + error) * t :=
  add_service info name c.

End WithLibrary.

(** [remove_service(zc, type_, name)] *)
Definition remove_service (name : string) (c : t) : t :=
  match peers c !! name with
  | Some _ =>
      Make (on_found c) (on_removed c) (delete name (peers c))
        (if on_removed c then called c ++ [Removed name] else called c)
  | None => c
  end.

End LANDiscovery.

(** * The viewer's input handlers: class ChenDeskApp *)

Module ChenDeskApp.

(** The fields of a tkinter event that the handlers read. *)
Record event : Type := Event {
  keysym : string;
  char : string;
  delta : Z;
  x : Z;
  y : Z
}.

Record t : Type := Make {
  connected : bool;
  control_client : option ControlClient.t
}.

(** The dict literal of [_tk_key_to_str]. *)
Definition special_literal : list (string * string) :=
  [("Shift_L", "shift"); ("Shift_R", "shift");
   ("Control_L", "ctrl"); ("Control_R", "ctrl");
   ("Alt_L", "alt"); ("Alt_R", "alt");
   ("Return", "enter"); ("BackSpace", "backspace"); ("Tab", "tab");
   ("Escape", "escape"); ("space", "space");
   ("Up", "up"); ("Down", "down"); ("Left", "left"); ("Right", "right");
   ("Delete", "delete"); ("Home", "home"); ("End", "end");
   ("Prior", "page_up"); ("Next", "page_down")]%string.

(** The table [special]: the literal, then
    [for i in range(1, 13): special[f'F{i}'] = f'f{i}']. *)
Definition special : gmap string string :=
  foldl (fun m i => <["F" +:+ pretty i := "f" +:+ pretty i]> m)
    (foldl (fun m kv => <[kv.1 := kv.2]> m) ∅ special_literal)
    (seqZ 1 12).

(** [_tk_key_to_str(event)]; [None] is Python's. *)
Definition _tk_key_to_str (e : event) : option string :=
  match special !! keysym e with
  | Some name => Some name
  | None =>
      if (str_len (char e) =? 1)%nat then Some (char e) else None
  end.

Section WithLibrary.
Context {L : Library}.

(** The client of [if self.connected and self.control_client:]. *)
Definition active_client (a : t) : option ControlClient.t :=
  if connected a then control_client a else None.

Definition with_client (a : t) (c : ControlClient.t) : t :=
  Make (connected a) (Some c).

(** [_on_mouse_move(event)] *)
Definition _on_mouse_move (e : event) (a : t) : outcome unit * t :=
  match active_client a with
  | Some c =>
      let '(r, c') := ControlClient.send_mouse_move (x e) (y e) c in
      (r, with_client a c')
  | None => (Return tt, a)
  end.

(** [_on_mouse_click(event, button, action)] *)
Definition _on_mouse_click (e : event) (button action : string) (a : t) : t :=
  match active_client a with
  | Some c =>
      with_client a
        (ControlClient.send_mouse_click (PStr button) (PStr action) c)
  | None => a
  end.

(** [_on_mouse_scroll(event)] *)
Definition _on_mouse_scroll (e : event) (a : t) : t :=
  match active_client a with
  | Some c =>
      let dy := if 0 <? delta e then 1 else -1 in
      with_client a (ControlClient.send_mouse_scroll (PInt 0) (PInt dy) c)
  | None => a
  end.

(** [_on_key_press(event)] and [_on_key_release(event)]; the empty
    string, like [None], is no key. *)
Definition on_key (action : string) (e : event) (a : t) : t :=
  match active_client a with
  | Some c =>
      match _tk_key_to_str e with
      | Some (String k ks) =>
          with_client a
            (ControlClient.send_key (PStr (String k ks)) (PStr action) c)
      | _ => a
      end
  | None => a
  end.

Definition _on_key_press : event -> t -> t := on_key "press".
Definition _on_key_release : event -> t -> t := on_key "release".

End WithLibrary.

End ChenDeskApp.

(** * Vocabulary of the properties *)

(** [reads s d s']: socket [s'] is [s] after the bytes [d] were taken
    from the front of its stream. *)
Definition reads (s : socket) (d : bytes) (s' : socket) : Prop :=
  stream (incoming s) = d ++ stream (incoming s')
  /\ ending s' = ending s /\ closed s' = closed s
  /\ outgoing s' = outgoing s /\ send_fails s' = send_fails s.


Section Vocabulary.
Context {L : Library}.

(** What one pass of the read loop does with a frame that has arrived
    whole, in whatever segments. *)
Definition frame_result (c : ScreenClient.t) (payload : bytes)
  : outcome ScreenClient.pass_end * ScreenClient.t :=
  match payload with
  | [] => (Return ScreenClient.Broke, c)
  | _ :: _ =>
      match zlib_decompress payload with
      | Raise e => (Raise e, c)
      | Return buffer =>
          match imdecode buffer with
          | Raise e => (Raise e, c)
          | Return frame =>
              (Return ScreenClient.FellThrough,
               match ScreenClient.on_frame c, frame with
               | true, Some f => ScreenClient.show f c
               | _, _ => c
               end)
          end
      end
  end.

End Vocabulary.

(** ** Viewers of the broadcaster *)

(** A viewer is alive when a write to its socket returns. *)
Definition alive (c : ScreenServer.t) (i : nat) : bool :=
  match ScreenServer.conns c !! i with
  | Some s => negb (closed s || send_fails s)
  | None => false
  end.

(** A socket after one more packet was written to it. *)
Definition delivered (packet : bytes) (s : socket) : socket :=
  Socket (incoming s) (ending s) (recv_calls s) (send_fails s)
    (outgoing s ++ [packet]) (closed s).

(** ** The key table and the resolution of key names, in the words of
    the specification *)

(** The fixed table: modifier keys, navigation keys, [f1] to [f12]. *)
Definition key_table : list (string * Key.t) :=
  [("shift", Key.shift); ("ctrl", Key.ctrl); ("alt", Key.alt);
   ("enter", Key.enter); ("backspace", Key.backspace); ("tab", Key.tab);
   ("escape", Key.esc); ("space", Key.space); ("up", Key.up);
   ("down", Key.down); ("left", Key.left); ("right", Key.right);
   ("delete", Key.delete); ("home", Key.home); ("end", Key.end_);
   ("page_up", Key.page_up); ("page_down", Key.page_down);
   ("f1", Key.f1); ("f2", Key.f2); ("f3", Key.f3); ("f4", Key.f4);
   ("f5", Key.f5); ("f6", Key.f6); ("f7", Key.f7); ("f8", Key.f8);
   ("f9", Key.f9); ("f10", Key.f10); ("f11", Key.f11);
   ("f12", Key.f12)]%string.

(** What a key name resolves to, as the specification words it: the
    key of the table, the character itself, or a key that does
    nothing. *)
Inductive spec_key : Type :=
| SpecSpecial (k : Key.t)
| SpecVerbatim (s : string)
| SpecNoOp.

Definition spec_parse_key (s : string) : spec_key :=
  match assoc s key_table with
  | Some k => SpecSpecial k
  | None => if (str_len s =? 1)%nat then SpecVerbatim s else SpecNoOp
  end.

(** The resolution of the specification that a result of [_parse_key]
    stands for. *)
Definition as_spec_key (k : key) : spec_key :=
  match k with
  | KeySpecial k => SpecSpecial k
  | KeyText s => SpecVerbatim s
  end.

(** ** Command records, in the words of the specification *)

(** The types of command that the server knows. *)
Definition command_types : list string :=
  ["mouse_move"; "mouse_click"; "mouse_scroll"; "key"]%string.

(** The fields that a command of a type carries beside its type. *)
Definition command_fields (ty : string) : list string :=
  (if String.eqb ty "mouse_move" then ["x"; "y"]
   else if String.eqb ty "mouse_click" then ["button"; "action"]
   else if String.eqb ty "mouse_scroll" then ["dx"; "dy"]
   else if String.eqb ty "key" then ["key"; "action"]
   else [])%string.

(** A [key] command whose key is there and is no text. *)
Definition key_is_no_text (ty : string) (d : list (string * pyval)) : bool :=
  String.eqb ty "key"
  && match assoc "key" d with
     | Some (PStr _) | None => false
     | Some _ => true
     end.

(** [{'type': 'key', 'key': name, 'action': action}] *)
Definition key_cmd (name action : string) : pyval :=
  PDict [("type", PStr "key"); ("key", PStr name);
         ("action", PStr action)]%string.

(** ** Concrete inputs *)

Module Inputs.

(** A frame packet as the broadcaster writes it. *)
Definition packet (data : bytes) (percent : Z) : bytes :=
  be32_bytes (len data) ++ be32_bytes percent ++ data.

(** A one-pixel image, and its compressed form. *)
Definition image : bytes := list_byte_of_string "P6 1 1 255 abc".
Definition good_payload : bytes := Ref.zlib_store image.
Definition pixel : bitmap := Bitmap 1 1 [x63; x62; x61].

(** A viewer whose connection carries the given byte strings, one
    segment each, before the peer closes. *)
Definition viewer (chunks : list bytes) : ScreenClient.t :=
  ScreenClient.Make true true (fresh_socket (segments chunks) PeerClosed) [] [].

(** A corrupt frame, then a good one. *)
Definition corrupt_then_good : ScreenClient.t :=
  viewer [packet [x00] 100; packet good_payload 100].

(** An empty frame, then a good one. *)
Definition empty_then_good : ScreenClient.t :=
  viewer [packet [] 100; packet good_payload 100].

(** A good frame alone. *)
Definition good_alone : ScreenClient.t := viewer [packet good_payload 100].

(** A control server, and the bytes of a [mouse_move] command. *)
Definition server : ControlServer.t := ControlServer.Make true [] [].

Definition move_bytes : bytes :=
  match Ref.json_dumps (ControlClient.mouse_move_cmd 200 400) with
  | Return text => Ref.utf8_encode text
  | Raise _ => []
  end.

(** A control connection that carries a command cut short, then a
    whole one. *)
Definition truncated_then_move : socket :=
  fresh_socket (segments [take 18 move_bytes; move_bytes]) PeerClosed.

Definition move_alone : socket :=
  fresh_socket (segments [move_bytes]) PeerClosed.

(** A record of a type that the server does not know, and a control
    connection that carries it before a [mouse_move]. *)
Definition jump : pyval := PDict [("type", PStr "jump")]%string.

Definition jump_bytes : bytes :=
  match Ref.json_dumps jump with
  | Return text => Ref.utf8_encode text
  | Raise _ => []
  end.

Definition jump_then_move : socket :=
  fresh_socket (segments [jump_bytes; move_bytes]) PeerClosed.



(** The name [backspace] with the Kelvin sign (U+212A, in UTF-8 the
    bytes E2 84 AA) for its [k]. *)
Definition kelvin_backspace : string :=
  "bac" +:+ String (ascii_of_N 226) (String (ascii_of_N 132)
                      (String (ascii_of_N 170) "space")).

(** [{'type': 'mouse_click', 'button': 'middle', 'action': 'press'}] *)
Definition middle_click : list (string * pyval) :=
  [("type", PStr "mouse_click"); ("button", PStr "middle");
   ("action", PStr "press")]%string.


(** A broadcaster with three viewers, the second of which has gone. *)
Definition broadcaster : ScreenServer.t :=
  ScreenServer.Make true [7; 8; 9]%nat
    (<[7%nat := fresh_socket [] PeerClosed]>
       (<[8%nat := Socket [] ConnReset [] true [] false]>
          (<[9%nat := fresh_socket [] PeerClosed]> ∅)))
    [] [].

(** A file server, a disk with one file to send, and the bytes that
    [send_file] writes for it. *)
Definition file_server : FileServer.t :=
  FileServer.Make "/home/u/ChenDesk_Files" true ∅ [].

Definition sender_disk : gmap string bytes :=
  {[ "/tmp/a.txt"%string := list_byte_of_string "hi" ]}.

Definition wire : bytes :=
  be32_bytes 5 ++ be32_bytes 2 ++ list_byte_of_string "a.txthi".

(** The connection of a transfer whose bytes come in the given
    pieces, before the sender closes. *)
Definition transfer (pieces : list bytes) : socket :=
  fresh_socket (segments pieces) PeerClosed.

(** A sender that announces 10 bytes and closes after 2. *)
Definition cut_short : socket :=
  transfer [be32_bytes 5 ++ be32_bytes 10; list_byte_of_string "a.txt";
            list_byte_of_string "hi"].

Definition two_chunks : socket :=
  fresh_socket (segments [[x01; x02]; [x03; x04]]) PeerClosed.

End Inputs.

(** ** Frames that decode *)

Section MoreVocabulary.
Context {L : Library}.

(** A frame, header and payload, that the receiver decodes to [bmp]. *)
Definition frame_decodes (header payload : bytes) (bmp : bitmap) : Prop :=
  payload <> []
  /\ (exists scale, unpack_II header = Return (len payload, scale))
  /\ exists buffer,
       zlib_decompress payload = Return buffer
       /\ imdecode buffer = Return (Some bmp).

End MoreVocabulary.

(** The bytes of a frame on the wire. *)
Definition frame_bytes (f : bytes * bytes * bitmap) : bytes := f.1.1 ++ f.1.2.

(** ** Commands on the wire *)

Section WireVocabulary.
Context {L : Library}.

(** The json and text codecs carry the command [cmd] as [text]: what
    [json.dumps] and [encode] write, [decode] and [json.loads] read
    back. *)
Definition carries (cmd : pyval) (text : string) : Prop :=
  json_dumps cmd = Return text
  /\ utf8_decode (utf8_encode text) = Return text
  /\ json_loads text = Return cmd.

End WireVocabulary.

(** The bytes [data] are the next segment of the connection, and fit
    one read of the command loop. *)
Definition arrives_whole (conn : socket) (data : bytes) (rest : list segment)
  : Prop :=
  closed conn = false
  /\ len data <= BUFFER_SIZE
  /\ exists g, incoming conn = g :: rest /\ seg_bytes g = data.

(** [{'type': 'mouse_click', 'button': button, 'action': action}] *)
Definition click_cmd (button action : string) : pyval :=
  PDict [("type", PStr "mouse_click"); ("button", PStr button);
         ("action", PStr action)]%string.

(** [{'type': 'mouse_scroll', 'dx': dx, 'dy': dy}] *)
Definition scroll_cmd (dx dy : Z) : pyval :=
  PDict [("type", PStr "mouse_scroll"); ("dx", PInt dx);
         ("dy", PInt dy)]%string.

(** The controller call of a button and an action, as
    [_execute_command] chooses it. *)
Definition click_call (button action : string) : input_call :=
  let btn := if String.eqb button "left" then ButtonLeft else ButtonRight in
  if String.eqb action "press" then MousePress btn else MouseRelease btn.

(** The controller call for a key and an action. *)
Definition key_call (k : key) (action : string) : input_call :=
  if String.eqb action "press" then KeyPress k else KeyRelease k.

(** ** Discovered services *)

Section DiscoveryVocabulary.
Context {L : Library}.

(** The address and the host name that [add_service] reads off a
    service: the first address as a dotted quad, and the [hostname]
    property, [Unknown] without one, as text. *)
Definition service_entry (info : LANDiscovery.service_info)
  : option (string * string) :=
  match LANDiscovery.addresses info with
  | [] => None
  | packed :: _ =>
      ip ← LANDiscovery.inet_ntoa packed;
      raw ← LANDiscovery.get (list_byte_of_string "hostname")
              (LANDiscovery.properties info)
              (Some (list_byte_of_string "Unknown"));
      match utf8_decode raw with
      | Return hostname => Some (ip, hostname)
      | Raise _ => None
      end
  end.

End DiscoveryVocabulary.

(** ** More concrete inputs *)

Module MoreInputs.

(** The bytes that the reference codecs write for a command. *)
Definition wire_text (cmd : pyval) : string :=
  match Ref.json_dumps cmd with
  | Return text => text
  | Raise _ => EmptyString
  end.

Definition wire_bytes (cmd : pyval) : bytes := Ref.utf8_encode (wire_text cmd).

(** A control connection that carries the given commands, one segment
    each, before the client closes. *)
Definition control_conn (cmds : list pyval) : socket :=
  fresh_socket (segments (map wire_bytes cmds)) PeerClosed.

(** A viewer application with a connected control client. *)
Definition app : ChenDeskApp.t :=
  ChenDeskApp.Make true
    (Some (ControlClient.Make (fresh_socket [] PeerClosed) true 1%float)).

(** A control client whose connection is broken. *)
Definition broken_client : ControlClient.t :=
  ControlClient.Make (Socket [] ConnReset [] true [] false) true 1%float.

(** The key events of the Page Up key and of the letter [a], and a
    wheel event. *)
Definition page_up_event : ChenDeskApp.event :=
  ChenDeskApp.Event "Prior" EmptyString 0 0 0.

Definition letter_event : ChenDeskApp.event :=
  ChenDeskApp.Event "a" "a" 0 0 0.

(** The key event of the letter e with an acute accent, whose [char]
    is one character of two bytes (C3 A9). *)
Definition eacute : string :=
  String (ascii_of_N 195) (String (ascii_of_N 169) EmptyString).

Definition eacute_event : ChenDeskApp.event :=
  ChenDeskApp.Event "eacute" eacute 0 0 0.

Definition wheel_down_event : ChenDeskApp.event :=
  ChenDeskApp.Event EmptyString EmptyString (-120) 10 20.

(** A browser with both callbacks, and two services: one that names
    its host, at 192.168.1.5, and one without properties, at
    10.0.0.7. *)
Definition browser : LANDiscovery.t := LANDiscovery.Make true true ∅ [].

Definition named_service : LANDiscovery.service_info :=
  LANDiscovery.ServiceInfo [[xc0; xa8; x01; x05]]
    [(list_byte_of_string "hostname", Some (list_byte_of_string "desk"))].

Definition bare_service : LANDiscovery.service_info :=
  LANDiscovery.ServiceInfo [[x0a; x00; x00; x07]] [].

(** Two good frames, the packet of the second cut in three. *)
Definition two_frames : ScreenClient.t :=
  Inputs.viewer [Inputs.packet Inputs.good_payload 100;
                 take 5 (Inputs.packet Inputs.good_payload 50);
                 take 9 (drop 5 (Inputs.packet Inputs.good_payload 50));
                 drop 14 (Inputs.packet Inputs.good_payload 50)].

Definition good_frames : list (bytes * bytes * bitmap) :=
  [(be32_bytes (len Inputs.good_payload) ++ be32_bytes 100,
    Inputs.good_payload, Inputs.pixel);
   (be32_bytes (len Inputs.good_payload) ++ be32_bytes 50,
    Inputs.good_payload, Inputs.pixel)].

End MoreInputs.

(** * Properties *)

(** ** Reading from a socket *)

Lemma reads_nil s : reads s [] s.
Proof. by repeat split. Qed.

Lemma reads_trans s d s' d' s'' :
  reads s d s' -> reads s' d' s'' -> reads s (d ++ d') s''.
Proof.
  intros (H1 & H2 & H3 & H4 & H5) (K1 & K2 & K3 & K4 & K5).
  repeat split; try congruence.
  by rewrite H1, K1, app_assoc.
Qed.

Lemma reads_note n s : reads s [] (note_recv n s).
Proof. by repeat split. Qed.

Lemma stream_cons g gs : stream (g :: gs) = seg_bytes g ++ stream gs.
Proof. reflexivity. Qed.

Lemma len_app (a b : bytes) : len (a ++ b) = len a + len b.
Proof. unfold len. rewrite length_app. lia. Qed.

Lemma len_nonneg (a : bytes) : 0 <= len a.
Proof. unfold len. lia. Qed.

(** A [recv] of a positive size on an open socket: the end of the
    stream when nothing is pending, and otherwise a non-empty chunk of
    at most the size asked for. *)
Lemma recv_spec n s :
  closed s = false -> 0 < n ->
  match incoming s with
  | [] =>
      recv n s = (match ending s with
                  | PeerClosed => Return []
                  | ConnReset => Raise OSError
                  end, note_recv n s)
  | _ :: _ =>
      exists chunk s',
        recv n s = (Return chunk, s') /\ chunk <> [] /\ len chunk <= n
        /\ reads s chunk s'
  end.
Proof.
  intros Hc Hn. unfold recv.
  change (closed (note_recv n s)) with (closed s).
  change (incoming (note_recv n s)) with (incoming s).
  change (ending (note_recv n s)) with (ending s).
  rewrite Hc.
  destruct (Z.ltb_spec n 0); [lia|].
  destruct (Z.eqb_spec n 0); [lia|].
  destruct (incoming s) as [|g rest] eqn:Hin.
  - by destruct (ending s).
  - destruct (drop (Z.to_nat n) (seg_bytes g)) as [|b bs] eqn:Hd.
    + eexists _, _. split; [reflexivity|]. split; [done|]. split.
      * apply (f_equal length) in Hd. rewrite length_drop in Hd.
        unfold len. simpl in *. lia.
      * repeat split; try done.
        change (stream (incoming s) = seg_bytes g ++ stream rest).
        by rewrite Hin.
    + eexists _, _. split; [reflexivity|]. split; [|split].
      * intros Ht. apply (f_equal length) in Ht.
        rewrite length_take in Ht. simpl in Ht. lia.
      * unfold len. rewrite length_take. lia.
      * repeat split; try done.
        change (stream (incoming s) =
                take (Z.to_nat n) (seg_bytes g) ++ stream ((b, bs) :: rest)).
        rewrite Hin, !stream_cons. change (seg_bytes (b, bs)) with (b :: bs).
        by rewrite <- Hd, app_assoc, take_drop.
Qed.

(** A [recv] whose size covers the next segment takes that segment
    whole. *)
Lemma recv_whole_segment n g rest s :
  closed s = false -> incoming s = g :: rest -> len (seg_bytes g) <= n ->
  recv n s = (Return (seg_bytes g), set_incoming rest (note_recv n s)).
Proof.
  intros Hc Hin Hlen. unfold recv.
  change (closed (note_recv n s)) with (closed s).
  change (incoming (note_recv n s)) with (incoming s).
  rewrite Hc, Hin.
  assert (0 < n) by (unfold len, seg_bytes in Hlen; cbn [length] in Hlen; lia).
  destruct (Z.ltb_spec n 0); [lia|]. destruct (Z.eqb_spec n 0); [lia|].
  rewrite drop_ge; [done|]. unfold len in Hlen. lia.
Qed.

Lemma recv_closed n s :
  closed s = true -> recv n s = (Raise OSError, note_recv n s).
Proof.
  intros Hc. unfold recv.
  change (closed (note_recv n s)) with (closed s). by rewrite Hc.
Qed.

Lemma BUFFER_SIZE_pos : 0 < BUFFER_SIZE.
Proof. reflexivity. Qed.

(** ** [_recv_exact] *)

(** The loop of [_recv_exact] from any state it can reach, on an open
    socket: with enough passes allowed it is left, with all of [size]
    bytes, or because the stream ended short of them. *)
Lemma recv_exact_loop size fuel : forall data s,
  closed s = false -> len data <= size ->
  (Z.to_nat (size - len data) < fuel)%nat ->
  exists r s',
    while fuel (fun st => Some (ScreenClient.recv_exact_body size st)) (data, s)
    = Some (r, s')
    /\ match r with
       | Return (Some d) =>
           exists more, d = data ++ more /\ len d = size /\ reads s more s'
       | Return None =>
           ending s = PeerClosed
           /\ len data + len (stream (incoming s)) < size
       | Raise e =>
           ending s = ConnReset
           /\ len data + len (stream (incoming s)) < size
       end.
Proof.
  induction fuel as [|fuel IH]; intros data s Hc Hle Hfuel; [lia|].
  cbn [while]. unfold ScreenClient.recv_exact_body.
  destruct (Z.ltb_spec (len data) size) as [Hlt|Hge].
  - pose proof BUFFER_SIZE_pos as HB.
    pose proof (recv_spec (Z.min (size - len data) BUFFER_SIZE) s Hc
                  ltac:(lia)) as Hr.
    destruct (incoming s) as [|g rest] eqn:Hin.
    + rewrite Hr. destruct (ending s); eexists _, _; (split; [reflexivity|]);
        cbn; unfold len in *; cbn; split; (done || lia).
    + destruct Hr as (chunk & s1 & -> & Hne & Hlen & Hrd).
      destruct chunk as [|c cs]; [done|].
      destruct (IH (data ++ c :: cs) s1) as (r & s' & Hw & Hres).
      * destruct Hrd as (_ & _ & -> & _). done.
      * rewrite len_app. lia.
      * rewrite len_app. unfold len in *. cbn [length] in *. lia.
      * exists r, s'. split; [exact Hw|].
        pose proof Hrd as (Hst & He & Hrest).
        destruct r as [[d|]|e].
        -- destruct Hres as (more & -> & Hsz & Hrd').
           exists ((c :: cs) ++ more). split; [by rewrite app_assoc|].
           split; [done|]. by eapply reads_trans.
        -- destruct Hres as [He' Hsh]. split; [congruence|].
           rewrite <- Hin, Hst, !len_app in *. lia.
        -- destruct Hres as [He' Hsh]. split; [congruence|].
           rewrite <- Hin, Hst, !len_app in *. lia.
  - exists (Return (Some data)), s. split; [reflexivity|].
    exists []. rewrite app_nil_r. split; [done|]. split; [lia|apply reads_nil].
Qed.

(** The same loop on a closed socket. *)
Lemma recv_exact_loop_closed size fuel data s :
  closed s = true ->
  exists r s',
    while (S fuel) (fun st => Some (ScreenClient.recv_exact_body size st))
      (data, s) = Some (r, s')
    /\ match r with
       | Return (Some d) => d = data /\ size <= len d /\ s' = s
       | Return None => False
       | Raise _ => len data < size
       end.
Proof.
  intros Hc. cbn [while]. unfold ScreenClient.recv_exact_body.
  destruct (Z.ltb_spec (len data) size) as [Hlt|Hge].
  - rewrite recv_closed by done. eexists _, _. split; [reflexivity|done].
  - eexists _, _. split; [reflexivity|done].
Qed.

(** [_recv_exact] always returns or raises: its bound on the passes is
    never reached. *)
Lemma recv_exact_total size s : is_Some (ScreenClient._recv_exact size s).
Proof.
  unfold ScreenClient._recv_exact.
  destruct (closed s) eqn:Hc.
  - destruct (recv_exact_loop_closed size (Z.to_nat size) [] s Hc)
      as (r & s' & Hw & _). eexists. exact Hw.
  - destruct (Z.le_gt_cases 0 size) as [Hs|Hs].
    + destruct (recv_exact_loop size (S (Z.to_nat size)) [] s Hc)
        as (r & s' & Hw & _);
        [done | change (len []) with 0; lia |]. eexists. exact Hw.
    + cbn [while]. unfold ScreenClient.recv_exact_body.
      destruct (Z.ltb_spec (len []) size) as [Hlt|_];
        [change (len []) with 0 in Hlt; lia | done].
Qed.

Lemma recv_exact_zero s :
  ScreenClient._recv_exact 0 s = Some (Return (Some []), s).
Proof. reflexivity. Qed.

(** C8: for every [n >= 0], [_recv_exact(n)] returns or raises; a byte
    string it returns has exactly [n] bytes, never fewer; it returns
    [None] only when the peer closed the connection before [n] bytes
    had come; and for [n = 0] it returns the empty byte string and
    leaves the socket as it was, without any [recv] call. *)
Theorem recv_exact_all_or_nothing (n : Z) (s : socket) :
  0 <= n ->
  exists r s',
    ScreenClient._recv_exact n s = Some (r, s')
    /\ (forall d, r = Return (Some d) -> len d = n)
    /\ (r = Return None ->
        ending s = PeerClosed /\ len (stream (incoming s)) < n)
    /\ (n = 0 ->
        r = Return (Some []) /\ s' = s /\ recv_calls s' = recv_calls s).
Proof.
  intros Hn.
  assert (exists r s',
    ScreenClient._recv_exact n s = Some (r, s')
    /\ (forall d, r = Return (Some d) -> len d = n)
    /\ (r = Return None ->
        ending s = PeerClosed /\ len (stream (incoming s)) < n))
    as (r & s' & Hw & Hd & Hnone).
  { unfold ScreenClient._recv_exact.
    destruct (closed s) eqn:Hc.
    - destruct (recv_exact_loop_closed n (Z.to_nat n) [] s Hc)
        as (r & s' & Hw & Hres).
      exists r, s'. split; [exact Hw|].
      change (len []) with 0 in Hres.
      destruct r as [[d|]|e]; [|done|done].
      destruct Hres as (-> & Hle & ->). change (len []) with 0 in Hle.
      split; [|done]. intros ? [= <-]. change (len []) with 0. lia.
    - destruct (recv_exact_loop n (S (Z.to_nat n)) [] s Hc)
        as (r & s' & Hw & Hres); [done | change (len []) with 0; lia |].
      exists r, s'. split; [exact Hw|].
      change (len []) with 0 in Hres.
      destruct r as [[d|]|e]; [|split; [done|intros _; split; [tauto|lia]]|done].
      destruct Hres as (more & -> & Hsz & Hrd).
      split; [by intros ? [= <-]|done]. }
  exists r, s'. split; [done|]. split; [done|]. split; [done|].
  intros ->. rewrite recv_exact_zero in Hw. by simplify_eq.
Qed.

Lemma recv_exact_all_or_nothing_witness :
  exists r s',
    ScreenClient._recv_exact 3 Inputs.two_chunks = Some (r, s')
    /\ forall d, r = Return (Some d) -> len d = 3.
Proof.
  destruct (recv_exact_all_or_nothing 3 Inputs.two_chunks ltac:(lia))
    as (r & s' & Hr & Hd & _).
  exists r, s'. split; [exact Hr | exact Hd].
Defined.

Example recv_exact_two_chunks :
  ScreenClient._recv_exact 3 Inputs.two_chunks
  = Some (Return (Some [x01; x02; x03]),
          Socket [(x04, [])] PeerClosed [3; 1] false [] false).
Proof. reflexivity. Qed.

Example recv_exact_short :
  ScreenClient._recv_exact 5 Inputs.two_chunks
  = Some (Return None, Socket [] PeerClosed [5; 3; 1] false [] false).
Proof. reflexivity. Qed.

(** A byte string that [_recv_exact] returns was read off the front of
    the stream. *)
Lemma recv_exact_reads n s d s' :
  ScreenClient._recv_exact n s = Some (Return (Some d), s') ->
  reads s d s' /\ (0 <= n -> len d = n).
Proof.
  intros Hw. unfold ScreenClient._recv_exact in Hw.
  destruct (closed s) eqn:Hc.
  - destruct (recv_exact_loop_closed n (Z.to_nat n) [] s Hc)
      as (r & s1 & Hw' & Hres).
    assert (Some (r, s1) = Some (Return (Some d), s')) as Heq
      by (etrans; [symmetry; exact Hw' | exact Hw]).
    simplify_eq. destruct Hres as (-> & Hle & ->).
    split; [apply reads_nil|]. change (len []) with 0 in *. lia.
  - destruct (Z.le_gt_cases 0 n) as [Hn|Hn].
    + destruct (recv_exact_loop n (S (Z.to_nat n)) [] s Hc)
        as (r & s1 & Hw' & Hres); [change (len []) with 0; lia ..|].
      assert (Some (r, s1) = Some (Return (Some d), s')) as Heq
        by (etrans; [symmetry; exact Hw' | exact Hw]).
      simplify_eq. destruct Hres as (more & -> & Hsz & Hrd). done.
    + cbn [while] in Hw. unfold ScreenClient.recv_exact_body in Hw.
      destruct (Z.ltb_spec (len []) n) as [Hlt|_];
        [change (len []) with 0 in Hlt; lia|].
      simplify_eq. split; [apply reads_nil|lia].
Qed.

(** With [n] bytes pending, however segmented, [_recv_exact(n)]
    returns exactly the first [n] of them. *)
Lemma recv_exact_enough n s d rest :
  closed s = false -> stream (incoming s) = d ++ rest -> len d = n ->
  exists s',
    ScreenClient._recv_exact n s = Some (Return (Some d), s') /\ reads s d s'.
Proof.
  intros Hc Hst Hlen. pose proof (len_nonneg d).
  destruct (recv_exact_loop n (S (Z.to_nat n)) [] s Hc)
    as (r & s' & Hw & Hres); [change (len []) with 0; lia ..|].
  change (len []) with 0 in Hres.
  assert (len (stream (incoming s)) = n + len rest) as Htot
    by (rewrite Hst, len_app; lia).
  pose proof (len_nonneg rest).
  destruct r as [[d'|]|e]; [|lia|lia].
  destruct Hres as (more & -> & Hsz & Hrd). cbn [app] in *.
  assert (more = d) as ->.
  { destruct Hrd as (Hs & _). rewrite Hst in Hs.
    apply app_inj_1 in Hs; [by destruct Hs|].
    unfold len in *. lia. }
  exists s'. split; [exact Hw|done].
Qed.

Section ScreenClientFacts.
Context {L : Library}.

Lemma receive_stream_try_frame c header payload rest size scale :
  closed (ScreenClient.sock c) = false ->
  stream (incoming (ScreenClient.sock c)) = header ++ payload ++ rest ->
  unpack_II header = Return (size, scale) ->
  len payload = size ->
  exists s',
    reads (ScreenClient.sock c) (header ++ payload) s'
    /\ ScreenClient.receive_stream_try c
       = Some (frame_result (ScreenClient.set_sock s' c) payload).
Proof.
  intros Hc Hst Hun Hlen.
  assert (len header = 8) as Hh.
  { unfold unpack_II in Hun.
    do 9 (destruct header as [|? header]; try done). }
  destruct (recv_exact_enough 8 _ header _ Hc Hst Hh) as (s1 & Hr1 & Hrd1).
  assert (closed s1 = false) as Hc1
    by (destruct Hrd1 as (_ & _ & -> & _); done).
  assert (stream (incoming s1) = payload ++ rest) as Hst1.
  { destruct Hrd1 as (Hs & _). rewrite Hst in Hs. by apply app_inv_head in Hs. }
  destruct (recv_exact_enough size s1 payload _ Hc1 Hst1 Hlen)
    as (s2 & Hr2 & Hrd2).
  exists s2. split; [by eapply reads_trans|].
  unfold ScreenClient.receive_stream_try. rewrite Hr1. cbn [mbind option_bind].
  assert (ScreenClient.falsy (Some header) = false) as ->
    by (destruct header; [done|reflexivity]).
  change (default [] (Some header)) with header. rewrite Hun.
  change (ScreenClient.sock (ScreenClient.set_sock s1 c)) with s1.
  rewrite Hr2. cbn [mbind option_bind].
  unfold frame_result. destruct payload as [|p ps]; [reflexivity|].
  cbn [ScreenClient.falsy].
  change (default [] (Some (p :: ps))) with (p :: ps).
  destruct (zlib_decompress (p :: ps)); [|reflexivity].
  destruct (imdecode a) as [[f|]|]; try reflexivity.
  all: cbn; by destruct (ScreenClient.on_frame c).
Qed.

End ScreenClientFacts.

(** ** The read loop of ScreenClient *)

(** A loop whose body always ends and lowers a measure on every pass
    that goes round again is left within the measure's passes. *)
Lemma while_total {S R : Type} (mu : S -> nat) (body : S -> option (flow S R)) :
  (forall s, is_Some (body s)) ->
  (forall s s', body s = Some (Again s') -> (mu s' < mu s)%nat) ->
  forall n s, (mu s < n)%nat -> is_Some (while n body s).
Proof.
  intros Htot Hdec. induction n as [|n IH]; intros s Hn; [lia|].
  cbn [while]. destruct (Htot s) as [[s'|r] Hb]; rewrite Hb; [|done].
  apply IH. specialize (Hdec _ _ Hb). lia.
Qed.

(** A loop left on its first pass. *)
Lemma while_leave {S R : Type} (body : S -> option (flow S R)) n s r :
  body s = Some (Leave r) -> while (Datatypes.S n) body s = Some r.
Proof. intros Hb. cbn [while]. by rewrite Hb. Qed.

Section ScreenClientLoop.
Context {L : Library}.

Lemma receive_stream_try_total c :
  is_Some (ScreenClient.receive_stream_try c).
Proof.
  unfold ScreenClient.receive_stream_try.
  destruct (recv_exact_total 8 (ScreenClient.sock c)) as [[r s] ->].
  cbn [mbind option_bind].
  destruct r as [header|e]; [|done].
  destruct (ScreenClient.falsy header); [done|].
  destruct (unpack_II (default [] header)) as [[size scale]|e]; [|done].
  destruct (recv_exact_total size
              (ScreenClient.sock (ScreenClient.set_sock s c))) as [[r2 s2] ->].
  cbn [mbind option_bind].
  destruct r2 as [data|e]; [|done].
  destruct (ScreenClient.falsy data); [done|].
  destruct (zlib_decompress (default [] data)); [|done].
  destruct (imdecode a) as [[f|]|]; [| |done];
    by destruct (ScreenClient.on_frame _).
Qed.

(** A pass that runs to the end of the [try] block has read a header
    of 8 bytes. *)
Lemma receive_stream_try_progress c c' :
  ScreenClient.receive_stream_try c
  = Some (Return ScreenClient.FellThrough, c') ->
  (length (stream (incoming (ScreenClient.sock c')))
   < length (stream (incoming (ScreenClient.sock c))))%nat.
Proof.
  unfold ScreenClient.receive_stream_try. intros Ht.
  destruct (ScreenClient._recv_exact 8 (ScreenClient.sock c))
    as [[r s]|] eqn:Hr1; [|done].
  cbn [mbind option_bind] in Ht.
  destruct r as [header|e]; [|done].
  destruct header as [[|h hs]|]; [done| |done].
  cbn [ScreenClient.falsy] in Ht.
  destruct (unpack_II _) as [[size scale]|e]; [|done].
  destruct (ScreenClient._recv_exact size _) as [[r2 s2]|] eqn:Hr2; [|done].
  cbn [mbind option_bind] in Ht.
  destruct r2 as [data|e]; [|done].
  destruct data as [[|p ps]|]; [done| |done].
  cbn [ScreenClient.falsy] in Ht.
  apply recv_exact_reads in Hr1 as [(Hs1 & _) _].
  apply recv_exact_reads in Hr2 as [(Hs2 & _) _].
  change (ScreenClient.sock (ScreenClient.set_sock s c)) with s in Hs2.
  assert (ScreenClient.sock c' = s2) as ->.
  { destruct (zlib_decompress _); [|done].
    destruct (imdecode _) as [[f|]|]; [| |done];
      destruct (ScreenClient.on_frame _); by simplify_eq. }
  rewrite Hs1, Hs2, !length_app. cbn [length]. lia.
Qed.

(** On a connection that carries its bytes and then ends, by the
    peer's close or by an error, the read loop ends: a pass that goes
    round again has taken at least a header off the stream, so the
    bound on the passes, one more than the bytes pending, is never
    reached.  (A peer that stays silent on an open connection, on
    which [recv] waits for ever, is no connection of the model.) *)
Theorem receive_stream_total c : is_Some (ScreenClient._receive_stream c).
Proof.
  unfold ScreenClient._receive_stream.
  apply (while_total
           (fun c => length (stream (incoming (ScreenClient.sock c))))).
  - intros c0. unfold ScreenClient.receive_stream_body.
    destruct (ScreenClient.running c0); [|done].
    destruct (receive_stream_try_total c0) as [[r c1] ->].
    cbn [mbind option_bind]. by destruct r as [[]|].
  - intros c0 c1. unfold ScreenClient.receive_stream_body.
    destruct (ScreenClient.running c0); [|done].
    destruct (ScreenClient.receive_stream_try c0) as [[r c2]|] eqn:Ht; [|done].
    cbn [mbind option_bind]. destruct r as [[]|]; intros; simplify_eq.
    by apply receive_stream_try_progress.
  - lia.
Qed.

(** One pass of the loop over a frame that has arrived whole. *)
Lemma receive_stream_body_frame c header payload rest size scale :
  ScreenClient.running c = true ->
  closed (ScreenClient.sock c) = false ->
  stream (incoming (ScreenClient.sock c)) = header ++ payload ++ rest ->
  unpack_II header = Return (size, scale) ->
  len payload = size ->
  exists s',
    reads (ScreenClient.sock c) (header ++ payload) s'
    /\ ScreenClient.receive_stream_body c
       = Some match frame_result (ScreenClient.set_sock s' c) payload with
              | (Return ScreenClient.FellThrough, c') => Again c'
              | (Return ScreenClient.Broke, c') => Leave c'
              | (Raise e, c') =>
                  Leave (ScreenClient.print (ReceiveErrorLine e) c')
              end.
Proof.
  intros Hrun Hc Hst Hun Hlen.
  destruct (receive_stream_try_frame c header payload rest size scale)
    as (s' & Hrd & Ht); try done.
  exists s'. split; [done|].
  unfold ScreenClient.receive_stream_body. rewrite Hrun, Ht.
  cbn [mbind option_bind].
  by destruct (frame_result _ _) as [[[]|] ?].
Qed.

(** C2, as the code has it: a frame whose payload does not decompress,
    or whose decoding raises, is logged and ends the read loop; a frame
    whose payload decompresses to bytes that are no image is skipped,
    without a log line and without a call of the display callback, and
    the loop goes on to the next header. *)
Theorem corrupt_frame_handling c header payload rest size scale :
  ScreenClient.running c = true ->
  closed (ScreenClient.sock c) = false ->
  stream (incoming (ScreenClient.sock c)) = header ++ payload ++ rest ->
  unpack_II header = Return (size, scale) ->
  len payload = size ->
  payload <> [] ->
  exists s',
    reads (ScreenClient.sock c) (header ++ payload) s'
    /\ (forall e,
          zlib_decompress payload = Raise e
          \/ (exists buffer, zlib_decompress payload = Return buffer
                             /\ imdecode buffer = Raise e) ->
          let c' := ScreenClient.print (ReceiveErrorLine e)
                      (ScreenClient.set_sock s' c) in
          ScreenClient.receive_stream_body c = Some (Leave c')
          /\ ScreenClient._receive_stream c = Some c')
    /\ (forall buffer,
          zlib_decompress payload = Return buffer ->
          imdecode buffer = Return None ->
          ScreenClient.receive_stream_body c
          = Some (Again (ScreenClient.set_sock s' c))).
Proof.
  intros Hrun Hc Hst Hun Hlen Hne.
  destruct (receive_stream_body_frame c header payload rest size scale)
    as (s' & Hrd & Hb); try done.
  exists s'. split; [done|].
  destruct payload as [|p ps]; [done|]. unfold frame_result in Hb.
  split.
  - intros e [He|(buffer & Hz & He)] c'.
    + rewrite He in Hb. split; [done|]. by apply while_leave.
    + rewrite Hz, He in Hb. split; [done|]. by apply while_leave.
  - intros buffer Hz Hi. rewrite Hz, Hi in Hb.
    rewrite Hb. by destruct (ScreenClient.on_frame _).
Qed.

(** C5, as the code has it: a frame with [payload_length = 0] does not
    block the reader, for [_recv_exact(0)] returns the empty byte
    string and leaves the socket as the header read left it; the read
    loop then ends as it does when the connection closes, with nothing
    displayed or logged, and reads no further header. *)
Theorem empty_frame_ends_loop c header rest scale :
  ScreenClient.running c = true ->
  closed (ScreenClient.sock c) = false ->
  stream (incoming (ScreenClient.sock c)) = header ++ rest ->
  unpack_II header = Return (0, scale) ->
  exists s',
    ScreenClient._recv_exact 8 (ScreenClient.sock c)
    = Some (Return (Some header), s')
    /\ ScreenClient._recv_exact 0 s' = Some (Return (Some []), s')
    /\ reads (ScreenClient.sock c) header s'
    /\ ScreenClient.receive_stream_body c
       = Some (Leave (ScreenClient.set_sock s' c))
    /\ ScreenClient._receive_stream c = Some (ScreenClient.set_sock s' c).
Proof.
  intros Hrun Hc Hst Hun.
  assert (len header = 8) as Hh.
  { unfold unpack_II in Hun.
    do 9 (destruct header as [|? header]; try done). }
  destruct (recv_exact_enough 8 _ header rest Hc Hst Hh) as (s' & Hr & Hrd).
  exists s'. split; [done|]. split; [apply recv_exact_zero|].
  split; [done|].
  assert (ScreenClient.receive_stream_body c
          = Some (Leave (ScreenClient.set_sock s' c))) as Hb.
  { unfold ScreenClient.receive_stream_body, ScreenClient.receive_stream_try.
    rewrite Hrun, Hr. cbn [mbind option_bind].
    assert (ScreenClient.falsy (Some header) = false) as ->
      by (destruct header; [done|reflexivity]).
    change (default [] (Some header)) with header. rewrite Hun.
    change (ScreenClient.sock (ScreenClient.set_sock s' c)) with s'.
    rewrite recv_exact_zero. reflexivity. }
  split; [done|]. by apply while_leave.
Qed.

End ScreenClientLoop.

Lemma corrupt_frame_handling_witness :
  exists c',
    ScreenClient.receive_stream_body (L := Ref.library) Inputs.corrupt_then_good
    = Some (Leave c')
    /\ ScreenClient._receive_stream (L := Ref.library) Inputs.corrupt_then_good
       = Some c'
    /\ ScreenClient.stdout c' = [ReceiveErrorLine ZlibError].
Proof.
  destruct (corrupt_frame_handling (L := Ref.library) Inputs.corrupt_then_good
              (be32_bytes 1 ++ be32_bytes 100) [x00]
              (Inputs.packet Inputs.good_payload 100) 1 100)
    as (s' & _ & Herr & _); try reflexivity; [done|].
  destruct (Herr ZlibError (or_introl eq_refl)) as [Hb Hl].
  eexists. split; [exact Hb|]. split; [exact Hl|reflexivity].
Defined.

(** C2 fails as stated: after a frame whose payload does not
    decompress the loop is left, and the good frame behind it, which
    alone is decoded and displayed, is never read. *)
Lemma corrupt_frame_stops_stream :
  (exists c',
     ScreenClient.receive_stream_body (L := Ref.library)
       Inputs.corrupt_then_good = Some (Leave c'))
  /\ ScreenClient.displayed
       <$> ScreenClient._receive_stream (L := Ref.library)
             Inputs.corrupt_then_good = Some []
  /\ (stream ∘ incoming ∘ ScreenClient.sock)
       <$> ScreenClient._receive_stream (L := Ref.library)
             Inputs.corrupt_then_good
     = Some (Inputs.packet Inputs.good_payload 100)
  /\ ScreenClient.displayed
       <$> ScreenClient._receive_stream (L := Ref.library) Inputs.good_alone
     = Some [Inputs.pixel].
Proof.
  split; [eexists; vm_compute; reflexivity|].
  split; [vm_compute; reflexivity|].
  split; vm_compute; reflexivity.
Qed.

Lemma empty_frame_ends_loop_witness :
  exists s',
    ScreenClient._recv_exact 0 s' = Some (Return (Some []), s')
    /\ ScreenClient._receive_stream (L := Ref.library) Inputs.empty_then_good
       = Some (ScreenClient.set_sock s' Inputs.empty_then_good).
Proof.
  destruct (empty_frame_ends_loop (L := Ref.library) Inputs.empty_then_good
              (be32_bytes 0 ++ be32_bytes 100)
              (Inputs.packet Inputs.good_payload 100) 100)
    as (s' & _ & Hz & _ & _ & Hl); try reflexivity.
  exists s'. split; [exact Hz | exact Hl].
Defined.

(** C5 fails as stated: after a frame of length 0 the loop is left and
    the good frame behind it is never read. *)
Lemma empty_frame_stops_stream :
  (exists c',
     ScreenClient.receive_stream_body (L := Ref.library)
       Inputs.empty_then_good = Some (Leave c'))
  /\ ScreenClient.displayed
       <$> ScreenClient._receive_stream (L := Ref.library)
             Inputs.empty_then_good = Some []
  /\ (stream ∘ incoming ∘ ScreenClient.sock)
       <$> ScreenClient._receive_stream (L := Ref.library)
             Inputs.empty_then_good
     = Some (Inputs.packet Inputs.good_payload 100)
  /\ ScreenClient.displayed
       <$> ScreenClient._receive_stream (L := Ref.library) Inputs.good_alone
     = Some [Inputs.pixel].
Proof.
  split; [eexists; vm_compute; reflexivity|].
  split; [vm_compute; reflexivity|].
  split; vm_compute; reflexivity.
Qed.

(** ** Key names: [_parse_key] *)

(** The table that [_parse_key] builds, the dict literal and the loop
    over [range(1, 13)], is the fixed table. *)
Lemma special_keys_table :
  ControlServer.special_keys = Return (list_to_map key_table).
Proof. vm_compute. reflexivity. Qed.

Lemma list_to_map_assoc {A : Type} (l : list (string * A)) (k : string) :
  (list_to_map l : gmap string A) !! k = assoc k l.
Proof.
  induction l as [|[k' v] l IH]; [done|].
  cbn [list_to_map foldr assoc].
  change (foldr _ ∅ l) with (list_to_map l : gmap string A).
  rewrite lookup_insert. cbn.
  destruct (String.eqb_spec k k') as [->|Hne].
  - by rewrite decide_True.
  - by rewrite decide_False.
Qed.

Lemma key_table_names_long name :
  is_Some (assoc name key_table) -> (2 <= String.length name)%nat.
Proof.
  intros [k Hk]. unfold key_table in Hk. cbn [assoc] in Hk.
  repeat match type of Hk with
         | (if String.eqb ?a ?b then _ else _) = _ =>
             destruct (String.eqb_spec a b) as [->|_]; [cbn; lia|]
         end.
  done.
Qed.

Lemma ascii_lower_length s : String.length (ascii_lower s) = String.length s.
Proof. induction s as [|c s IH]; [done|]. cbn. by rewrite IH. Qed.

(** An ASCII text has as many characters as bytes. *)
Lemma str_len_ascii s : isascii s = true -> str_len s = String.length s.
Proof.
  induction s as [|c s IH]; [done|]. cbn [isascii str_len String.length].
  intros [Hc Hs]%andb_true_iff. rewrite (IH Hs). unfold starts_char.
  apply N.ltb_lt in Hc. destruct (N.leb_spec 128 (N_of_ascii c)); [lia|done].
Qed.

Section KeyNames.
Context {L : Library}.

(** [_parse_key] on a string: the key that the table has for the
    lowercased name, and the string itself when it has none. *)
Lemma parse_key_lookup (s : string) :
  ControlServer._parse_key (PStr s)
  = Return match assoc (lower s) key_table with
           | Some k => KeySpecial k
           | None => KeyText s
           end.
Proof.
  unfold ControlServer._parse_key. rewrite special_keys_table.
  cbn [mbind outcome_bind]. by rewrite list_to_map_assoc.
Qed.

(** The names of the table are in lower case. *)
Lemma key_table_assoc name k :
  In (name, k) key_table -> assoc name key_table = Some k /\ lower name = name.
Proof.
  intros Hin. unfold key_table in Hin. cbn [In] in Hin.
  repeat (destruct Hin as [Hin|Hin]; [simplify_eq; split; reflexivity|]).
  done.
Qed.

(** A single ASCII character is no name of the table, in either
    case. *)
Lemma ascii_char_not_in_table s :
  isascii s = true -> str_len s = 1%nat -> assoc (lower s) key_table = None.
Proof.
  intros Ha Hone. unfold lower. rewrite Ha.
  destruct (assoc _ key_table) as [k|] eqn:Hk; [|done].
  pose proof (key_table_names_long _ (mk_is_Some _ _ Hk)) as Hlen.
  rewrite ascii_lower_length, <- (str_len_ascii s Ha) in Hlen. lia.
Qed.

(** C6, as the code has it: the name is looked up in lower case in the
    fixed table; a name of the table resolves to its special key; every
    other string, of one character or of any other length, is passed
    through verbatim, and a single ASCII character is always such a
    string; a value that is no string raises.  No input resolves to a
    key that does nothing: for a name of several characters outside the
    table the keyboard controller is called with the name itself. *)
Theorem parse_key_resolution :
  (forall name k s,
     In (name, k) key_table -> lower s = name ->
     ControlServer._parse_key (PStr s) = Return (KeySpecial k))
  /\ (forall s,
        isascii s = true -> str_len s = 1%nat ->
        ControlServer._parse_key (PStr s) = Return (KeyText s))
  /\ (forall s,
        assoc (lower s) key_table = None ->
        ControlServer._parse_key (PStr s) = Return (KeyText s)
        /\ ControlServer.command_call (key_cmd s "press")
           = Return (Some (KeyPress (KeyText s)))
        /\ ControlServer.command_call (key_cmd s "release")
           = Return (Some (KeyRelease (KeyText s))))
  /\ (forall v,
        (forall s, v <> PStr s) ->
        ControlServer._parse_key v = Raise AttributeError).
Proof.
  split; [|split; [|split]].
  - intros name k s Hin Hlow. rewrite parse_key_lookup, Hlow.
    by destruct (key_table_assoc _ _ Hin) as [-> _].
  - intros s Ha Hone.
    by rewrite parse_key_lookup, (ascii_char_not_in_table s Ha Hone).
  - intros s Hs.
    assert (ControlServer._parse_key (PStr s) = Return (KeyText s)) as Hp
      by (by rewrite parse_key_lookup, Hs).
    split; [done|].
    unfold ControlServer.command_call, key_cmd. cbn [getitem assoc].
    cbn. rewrite Hp. done.
  - intros v Hv. unfold ControlServer._parse_key.
    rewrite special_keys_table. cbn [mbind outcome_bind].
    destruct v; try done. by destruct (Hv s).
Qed.

End KeyNames.

Lemma parse_key_resolution_witness :
  ControlServer._parse_key (L := Ref.library) (PStr "Page_Up")
  = Return (KeySpecial Key.page_up)
  /\ ControlServer._parse_key (L := Ref.library) (PStr "A")
     = Return (KeyText "A")
  /\ ControlServer._parse_key (L := Ref.library) (PStr "hello")
     = Return (KeyText "hello").
Proof.
  destruct (parse_key_resolution (L := Ref.library))
    as (Htable & Hchar & Hother & _).
  split; [|split].
  - apply (Htable "page_up"%string); [|reflexivity].
    unfold key_table. cbn [In]. do 15 right. left. reflexivity.
  - apply (Hchar "A"%string); reflexivity.
  - apply (Hother "hello"%string). reflexivity.
Defined.

(** C6 fails as stated: the name [hello], of several characters and
    not in the table, for which the specification has the key that
    does nothing, resolves to the text [hello], as a single character
    does, and the keyboard controller is called with it. *)
Lemma parse_key_has_no_noop :
  spec_parse_key "hello" = SpecNoOp
  /\ (as_spec_key <$> ControlServer._parse_key (L := Ref.library)
                        (PStr "hello"))
     = Return (SpecVerbatim "hello")
  /\ ControlServer.calls
       (ControlServer._execute_command (L := Ref.library)
          (key_cmd "hello" "press") Inputs.server)
     = [KeyPress (KeyText "hello")].
Proof. split; [|split]; vm_compute; reflexivity. Qed.

(** The lower case is that of Unicode: [backspace] written with the
    Kelvin sign for its [k] is the backspace key, where the lower case
    of the text is [backspace]. *)
Example parse_key_kelvin_sign :
  str_len Inputs.kelvin_backspace = 9%nat
  /\ isascii Inputs.kelvin_backspace = false
  /\ ControlServer._parse_key (L := Ref.library)
       (PStr Inputs.kelvin_backspace)
     = Return (KeySpecial Key.backspace).
Proof. split; [|split]; vm_compute; reflexivity. Qed.

(** ** Commands: [_execute_command] and [_handle_client] *)

Lemma eq_str_false v s : v <> PStr s -> eq_str v s = false.
Proof.
  intros Hne. destruct v; try done. cbn.
  destruct (String.eqb_spec s0 s) as [->|]; done.
Qed.

Section ControlServerFacts.
Context {L : Library}.

Lemma execute_command_running cmd c :
  ControlServer.running (ControlServer._execute_command cmd c)
  = ControlServer.running c.
Proof.
  unfold ControlServer._execute_command.
  destruct (ControlServer.command_call cmd) as [[k|]|e]; try done.
  by destruct (inject k).
Qed.

(** C10: a [mouse_click] command whose button is anything but the
    string [left] makes the server press the right button when the
    action is [press], and release the right button otherwise; no
    button value is refused or passed over. *)
Theorem mouse_click_other_button_is_right
    (d : list (string * pyval)) (b a : pyval) (c : ControlServer.t) :
  assoc "type" d = Some (PStr "mouse_click") ->
  assoc "button" d = Some b ->
  b <> PStr "left" ->
  assoc "action" d = Some a ->
  let call := if eq_str a "press" then MousePress ButtonRight
              else MouseRelease ButtonRight in
  ControlServer.command_call (PDict d) = Return (Some call)
  /\ ControlServer.calls (ControlServer._execute_command (PDict d) c)
     = ControlServer.calls c ++ [call].
Proof.
  intros Hty Hb Hne Ha call.
  assert (ControlServer.command_call (PDict d) = Return (Some call)) as Hc.
  { unfold ControlServer.command_call. cbn [getitem]. rewrite Hty.
    cbn [mbind outcome_bind]. cbn [eq_str].
    change (String.eqb "mouse_click" "mouse_move") with false.
    change (String.eqb "mouse_click" "mouse_click") with true.
    cbn iota. rewrite Hb, Ha. cbn [mbind outcome_bind].
    rewrite (eq_str_false b "left" Hne). done. }
  split; [done|].
  unfold ControlServer._execute_command. rewrite Hc.
  by destruct (inject call).
Qed.

(** One pass of the command loop over a chunk that fits the buffer:
    the loop is left when the chunk is not the text of a JSON value, and
    goes round again, after [_execute_command], when it is. *)
Lemma handle_client_body_chunk
    (c : ControlServer.t) (client : socket) (g : segment)
    (rest : list segment) :
  ControlServer.running c = true ->
  closed client = false ->
  incoming client = g :: rest ->
  len (seg_bytes g) <= BUFFER_SIZE ->
  ControlServer.handle_client_body (c, client)
  = match (text ← utf8_decode (seg_bytes g); json_loads text) with
    | Return cmd =>
        Again (ControlServer._execute_command cmd c,
               set_incoming rest (note_recv BUFFER_SIZE client))
    | Raise _ => Leave (c, set_incoming rest (note_recv BUFFER_SIZE client))
    end.
Proof.
  intros Hrun Hc Hin Hlen.
  unfold ControlServer.handle_client_body, ControlServer.handle_client_try.
  rewrite Hrun, (recv_whole_segment _ g rest client Hc Hin Hlen). cbn [seg_bytes].
  change (g.1 :: g.2) with (seg_bytes g).
  destruct (utf8_decode (seg_bytes g)) as [text|e]; [|done].
  cbn [mbind outcome_bind]. by destruct (json_loads text).
Qed.

(** What [_execute_command] does with a value that is no command. *)
Lemma execute_not_a_dict cmd c :
  (forall d, cmd <> PDict d) ->
  ControlServer._execute_command cmd c
  = ControlServer.print (ControlErrorLine TypeError) c.
Proof. intros Hnd. destruct cmd; try done. by destruct (Hnd d). Qed.

Lemma execute_no_type d c :
  assoc "type" d = None ->
  ControlServer._execute_command (PDict d) c
  = ControlServer.print (ControlErrorLine KeyError) c.
Proof.
  intros Hty. unfold ControlServer._execute_command, ControlServer.command_call.
  cbn [getitem]. by rewrite Hty.
Qed.

Lemma execute_unknown_type d ty c :
  assoc "type" d = Some ty ->
  (forall name, In name command_types -> ty <> PStr name) ->
  ControlServer._execute_command (PDict d) c = c.
Proof.
  intros Hty Hun.
  unfold ControlServer._execute_command, ControlServer.command_call.
  cbn [getitem]. rewrite Hty. cbn [mbind outcome_bind].
  rewrite !eq_str_false; [done|apply Hun; cbn; tauto..].
Qed.

Lemma execute_missing_field d ty f c :
  assoc "type" d = Some (PStr ty) ->
  In f (command_fields ty) ->
  assoc f d = None ->
  ControlServer._execute_command (PDict d) c
  = ControlServer.print
      (ControlErrorLine
         (if key_is_no_text ty d then AttributeError else KeyError)) c.
Proof.
  intros Hty Hf Hnone.
  unfold ControlServer._execute_command, ControlServer.command_call.
  cbn [getitem]. rewrite Hty. cbn [mbind outcome_bind eq_str].
  unfold command_fields, key_is_no_text in *.
  destruct (String.eqb_spec ty "mouse_move") as [->|_].
  { cbn [In] in Hf. destruct Hf as [<-|[<-|[]]].
    - by rewrite Hnone.
    - destruct (assoc "x" d); cbn [mbind outcome_bind]; by rewrite ?Hnone. }
  destruct (String.eqb_spec ty "mouse_click") as [->|_].
  { cbn [In] in Hf. destruct Hf as [<-|[<-|[]]].
    - by rewrite Hnone.
    - destruct (assoc "button" d); cbn [mbind outcome_bind];
        by rewrite ?Hnone. }
  destruct (String.eqb_spec ty "mouse_scroll") as [->|_].
  { cbn [In] in Hf. destruct Hf as [<-|[<-|[]]].
    - by rewrite Hnone.
    - destruct (assoc "dx" d); cbn [mbind outcome_bind]; by rewrite ?Hnone. }
  destruct (String.eqb_spec ty "key") as [->|_]; [|done].
  cbn [In andb] in *. destruct Hf as [<-|[<-|[]]].
  - by rewrite Hnone.
  - destruct (assoc "key" d) as [v|]; [|done]. cbn [mbind outcome_bind].
    destruct v as [| | | |s| |];
      try (unfold ControlServer._parse_key; rewrite special_keys_table; done).
    rewrite parse_key_lookup. cbn [mbind outcome_bind]. by rewrite Hnone.
Qed.

(** C1, as the code has it: a chunk that is not the text of a JSON
    value ends the command loop, and the connection is closed, as on a
    socket error; a chunk that is a JSON value is handed to
    [_execute_command] and the loop goes on to the next chunk.  A value
    that is no command is dropped, no controller call is made: with the
    line of a [TypeError] when it is no dict, of a [KeyError] when it
    has no type or when a field of its type is missing (of an
    [AttributeError] when the key of a [key] command is there and is no
    text), and without any line when its type is none of the four. *)
Theorem malformed_command_handling
    (c : ControlServer.t) (client : socket) (g : segment)
    (rest : list segment) :
  ControlServer.running c = true ->
  closed client = false ->
  incoming client = g :: rest ->
  len (seg_bytes g) <= BUFFER_SIZE ->
  let client' := set_incoming rest (note_recv BUFFER_SIZE client) in
  ((forall text, utf8_decode (seg_bytes g) = Return text ->
                 exists e, json_loads text = Raise e) ->
   ControlServer.handle_client_body (c, client) = Leave (c, client')
   /\ ControlServer._handle_client c client = Some (c, close client'))
  /\ (forall text cmd,
        utf8_decode (seg_bytes g) = Return text ->
        json_loads text = Return cmd ->
        let c' := ControlServer._execute_command cmd c in
        ControlServer.handle_client_body (c, client) = Again (c', client')
        /\ ControlServer.running c' = true
        /\ ((forall d, cmd <> PDict d) ->
            c' = ControlServer.print (ControlErrorLine TypeError) c)
        /\ (forall d,
              cmd = PDict d -> assoc "type" d = None ->
              c' = ControlServer.print (ControlErrorLine KeyError) c)
        /\ (forall d ty f,
              cmd = PDict d -> assoc "type" d = Some (PStr ty) ->
              In f (command_fields ty) -> assoc f d = None ->
              c' = ControlServer.print
                     (ControlErrorLine
                        (if key_is_no_text ty d then AttributeError
                         else KeyError)) c)
        /\ (forall d ty,
              cmd = PDict d -> assoc "type" d = Some ty ->
              (forall name, In name command_types -> ty <> PStr name) ->
              c' = c)).
Proof.
  intros Hrun Hc Hin Hlen client'.
  pose proof (handle_client_body_chunk c client g rest Hrun Hc Hin Hlen) as Hb.
  split.
  - intros Hbad.
    assert (ControlServer.handle_client_body (c, client) = Leave (c, client'))
      as Hl.
    { rewrite Hb. destruct (utf8_decode (seg_bytes g)) as [text|e]; [|done].
      cbn [mbind outcome_bind]. by destruct (Hbad text eq_refl) as [e ->]. }
    split; [done|]. unfold ControlServer._handle_client.
    rewrite (while_leave _ _ _ (c, client')); [done|]. by rewrite Hl.
  - intros text cmd Hd Hj c'. split; [|split; [|split; [|split; [|split]]]].
    + rewrite Hb, Hd. cbn [mbind outcome_bind]. by rewrite Hj.
    + unfold c'. by rewrite execute_command_running.
    + intros Hnd. by apply execute_not_a_dict.
    + intros d -> Hty. by apply execute_no_type.
    + intros d ty f -> Hty Hf Hnone.
      exact (execute_missing_field d ty f c Hty Hf Hnone).
    + intros d ty -> Hty Hun. by apply (execute_unknown_type d ty).
Qed.

(** On a connection that carries its bytes and then ends, by the
    peer's close or by an error, the command loop ends: a pass that
    goes round again has taken at least one byte off the stream, so
    the loop makes no more passes than one more than the bytes
    pending.  (A peer that stays silent on an open connection, on
    which [recv] waits for ever, is no connection of the model.) *)
Theorem handle_client_total c client :
  is_Some (ControlServer._handle_client c client).
Proof.
  unfold ControlServer._handle_client.
  destruct (while_total (R := ControlServer.t * socket)
              (fun st => length (stream (incoming st.2)))
              (fun st => Some (ControlServer.handle_client_body st)))
    with (n := S (length (stream (incoming client)))) (s := (c, client))
    as [[c1 client1] ->]; [done| |cbn; lia|done].
  intros [c0 s0] [c1 s1]. unfold ControlServer.handle_client_body.
  destruct (ControlServer.running c0); [|done].
  unfold ControlServer.handle_client_try.
  destruct (recv BUFFER_SIZE s0) as [r s2] eqn:Hr.
  destruct r as [[|b bs]|e]; try done.
  destruct (utf8_decode (b :: bs)) as [text|]; [|done].
  cbn [mbind outcome_bind].
  destruct (json_loads text) as [cmd|]; cbn [mbind outcome_bind]; [|done].
  intros [= <- <-]. cbn [snd].
  destruct (closed s0) eqn:Hc; [by rewrite recv_closed in Hr|].
  pose proof (recv_spec BUFFER_SIZE s0 Hc BUFFER_SIZE_pos) as Hs.
  destruct (incoming s0) as [|g rest] eqn:Hin.
  - rewrite Hr in Hs. by destruct (ending s0).
  - destruct Hs as (chunk & s' & Hr' & _ & _ & (Hst & _)).
    rewrite Hr in Hr'. simplify_eq. rewrite <- Hin, Hst, length_app.
    cbn [length]. lia.
Qed.

End ControlServerFacts.

Lemma mouse_click_other_button_is_right_witness :
  ControlServer.calls
    (ControlServer._execute_command (L := Ref.library)
       (PDict Inputs.middle_click) Inputs.server)
  = [MousePress ButtonRight].
Proof.
  apply (mouse_click_other_button_is_right (L := Ref.library)
           Inputs.middle_click (PStr "middle") (PStr "press") Inputs.server
           eq_refl eq_refl ltac:(discriminate) eq_refl).
Defined.

Lemma malformed_command_handling_witness :
  ControlServer._handle_client (L := Ref.library) Inputs.server
    Inputs.truncated_then_move
  = Some (Inputs.server,
          close (set_incoming (segments [Inputs.move_bytes])
                   (note_recv BUFFER_SIZE Inputs.truncated_then_move)))
  /\ ControlServer.handle_client_body (L := Ref.library)
       (Inputs.server, Inputs.jump_then_move)
     = Again (Inputs.server,
              set_incoming (segments [Inputs.move_bytes])
                (note_recv BUFFER_SIZE Inputs.jump_then_move)).
Proof.
  split.
  - destruct (malformed_command_handling (L := Ref.library) Inputs.server
                Inputs.truncated_then_move
                (x7b, drop 1 (take 18 Inputs.move_bytes))
                (segments [Inputs.move_bytes])
                eq_refl eq_refl eq_refl ltac:(vm_compute; discriminate))
      as [Hbad _].
    apply Hbad. intros text [= <-]. eexists. vm_compute. reflexivity.
  - destruct (malformed_command_handling (L := Ref.library) Inputs.server
                Inputs.jump_then_move
                (x7b, drop 1 Inputs.jump_bytes)
                (segments [Inputs.move_bytes])
                eq_refl eq_refl eq_refl ltac:(vm_compute; discriminate))
      as [_ Hval].
    destruct (Hval (string_of_list_byte Inputs.jump_bytes) Inputs.jump
                eq_refl eq_refl)
      as (Hagain & _ & _ & _ & _ & Hunknown).
    rewrite Hagain.
    rewrite (Hunknown [("type", PStr "jump")]%string (PStr "jump") eq_refl
               eq_refl); [reflexivity|].
    intros name Hname. cbn [In command_types] in Hname.
    destruct Hname as [<-|[<-|[<-|[<-|[]]]]]; discriminate.
Defined.

(** A value that is no command is dropped and the command behind it
    executed. *)
Example dropped_command_then_move :
  (fun r => (ControlServer.calls r.1, ControlServer.stdout r.1))
    <$> ControlServer._handle_client (L := Ref.library) Inputs.server
          Inputs.jump_then_move
  = Some ([SetPosition (PInt 200) (PInt 400)], []).
Proof. vm_compute. reflexivity. Qed.

(** C1 fails as stated: after a chunk that is a command cut short the
    connection is closed, and the whole command behind it, which alone
    moves the pointer, is never read. *)
Lemma malformed_command_closes_connection :
  ControlServer.handle_client_body (L := Ref.library)
    (Inputs.server, Inputs.truncated_then_move)
  = Leave (Inputs.server,
           set_incoming (segments [Inputs.move_bytes])
             (note_recv BUFFER_SIZE Inputs.truncated_then_move))
  /\ (fun r => (ControlServer.calls r.1, closed r.2, stream (incoming r.2)))
       <$> ControlServer._handle_client (L := Ref.library) Inputs.server
             Inputs.truncated_then_move
     = Some ([], true, Inputs.move_bytes)
  /\ (fun r => (ControlServer.calls r.1, closed r.2, stream (incoming r.2)))
       <$> ControlServer._handle_client (L := Ref.library) Inputs.server
             Inputs.move_alone
     = Some ([SetPosition (PInt 200) (PInt 400)], true, []).
Proof. split; [|split]; vm_compute; reflexivity. Qed.

(** ** The control client: [send_mouse_move] *)

Section ControlClientFacts.
Context {L : Library}.



End ControlClientFacts.


(** The example of the specification: [send_mouse_move(100, 200)] with
    scale 0.5 is decoded by the server as [mouse_move(x=200, y=400)]. *)
Example send_mouse_move_half_scale :
  (fx ← truediv 100 0.5; int_of_float fx) = Return 200
  /\ (fy ← truediv 200 0.5; int_of_float fy) = Return 400
  /\ (text ← Ref.utf8_decode Inputs.move_bytes; Ref.json_loads text)
     = Return (ControlClient.mouse_move_cmd 200 400).
Proof. repeat split; vm_compute; reflexivity. Qed.


(** ** The broadcast cycle of ScreenServer *)

Lemma sendall_alive packet s :
  closed s || send_fails s = false ->
  sendall packet s = (Return tt, delivered packet s).
Proof. intros H. unfold sendall. by rewrite H. Qed.

Lemma sendall_dead packet s :
  closed s || send_fails s = true -> sendall packet s = (Raise OSError, s).
Proof. intros H. unfold sendall. by rewrite H. Qed.

(** One write: what it returns, and what it leaves. *)
Lemma send_to_spec packet i c :
  let r := ScreenServer.send_to packet i c in
  r.1 = negb (alive c i)
  /\ ScreenServer.clients r.2 = ScreenServer.clients c
  /\ ScreenServer.running r.2 = ScreenServer.running c
  /\ ScreenServer.stdout r.2 = ScreenServer.stdout c
  /\ ScreenServer.trace r.2
     = ScreenServer.trace c
       ++ [if alive c i then ScreenServer.Sent i else ScreenServer.Failed i]
  /\ (forall j, alive r.2 j = alive c j)
  /\ (forall j, j <> i ->
        ScreenServer.conns r.2 !! j = ScreenServer.conns c !! j)
  /\ (alive c i = true ->
      exists s, ScreenServer.conns c !! i = Some s
                /\ ScreenServer.conns r.2 !! i = Some (delivered packet s)).
Proof.
  unfold ScreenServer.send_to, alive.
  destruct (ScreenServer.conns c !! i) as [s|] eqn:Hs.
  - destruct (closed s || send_fails s) eqn:Hd.
    + rewrite sendall_dead by done. cbn.
      repeat split; try done.
      * intros j. destruct (decide (j = i)) as [->|Hne].
        -- by rewrite lookup_insert_eq, Hs.
        -- by rewrite lookup_insert_ne.
      * intros j Hne. by rewrite lookup_insert_ne.
    + rewrite sendall_alive by done. cbn.
      repeat split; try done.
      * intros j. destruct (decide (j = i)) as [->|Hne].
        -- by rewrite lookup_insert_eq, Hs.
        -- by rewrite lookup_insert_ne.
      * intros j Hne. by rewrite lookup_insert_ne.
      * intros _. exists s. by rewrite lookup_insert_eq.
  - cbn. rewrite Hs. repeat split; done.
Qed.

(** The pass over the viewers. *)
Lemma send_to_all_spec packet : forall l dead c,
  NoDup l ->
  let r := ScreenServer.send_to_all packet l dead c in
  r.1 = dead ++ List.filter (fun i => negb (alive c i)) l
  /\ ScreenServer.clients r.2 = ScreenServer.clients c
  /\ ScreenServer.running r.2 = ScreenServer.running c
  /\ ScreenServer.stdout r.2 = ScreenServer.stdout c
  /\ ScreenServer.trace r.2
     = ScreenServer.trace c
       ++ map (fun i => if alive c i then ScreenServer.Sent i
                        else ScreenServer.Failed i) l
  /\ (forall j, alive r.2 j = alive c j)
  /\ (forall j, j ∉ l ->
        ScreenServer.conns r.2 !! j = ScreenServer.conns c !! j)
  /\ (forall j, j ∈ l -> alive c j = true ->
        exists s, ScreenServer.conns c !! j = Some s
                  /\ ScreenServer.conns r.2 !! j = Some (delivered packet s)).
Proof.
  induction l as [|i l IH]; intros dead c Hnd.
  - cbn. rewrite !app_nil_r. repeat split; try done.
    intros j Hj. by apply elem_of_nil in Hj.
  - apply NoDup_cons in Hnd as [Hi Hnd].
    cbn [ScreenServer.send_to_all].
    pose proof (send_to_spec packet i c) as Hs. cbn zeta in Hs.
    destruct (ScreenServer.send_to packet i c) as [raised c1].
    cbn [fst snd] in Hs.
    destruct Hs as (-> & Hcl & Hru & Hso & Htr & Hal & Hot & Hde).
    specialize (IH (if negb (alive c i) then dead ++ [i] else dead) c1 Hnd).
    cbn zeta in IH.
    destruct (ScreenServer.send_to_all packet l _ c1) as [dead' c2].
    cbn [fst snd] in *.
    destruct IH as (-> & Hcl2 & Hru2 & Hso2 & Htr2 & Hal2 & Hot2 & Hde2).
    assert (List.filter (fun j => negb (alive c1 j)) l
            = List.filter (fun j => negb (alive c j)) l) as ->
      by (apply List.filter_ext; intros j; by rewrite Hal).
    assert (map (fun j => if alive c1 j then ScreenServer.Sent j
                          else ScreenServer.Failed j) l
            = map (fun j => if alive c j then ScreenServer.Sent j
                            else ScreenServer.Failed j) l) as Hmap
      by (apply map_ext; intros j; by rewrite Hal).
    split; [|split; [|split; [|split; [|split; [|split; [|split]]]]]].
    + cbn [List.filter]. destruct (alive c i); cbn [negb];
        [done | by rewrite <- app_assoc].
    + congruence.
    + congruence.
    + congruence.
    + rewrite Htr2, Htr, Hmap. cbn [map]. by rewrite <- app_assoc.
    + intros j. by rewrite Hal2, Hal.
    + intros j Hj. apply not_elem_of_cons in Hj as [Hne Hj].
      rewrite Hot2 by done. by apply Hot.
    + intros j Hj Ha. apply elem_of_cons in Hj as [->|Hj].
      * destruct (Hde Ha) as (s & Hs1 & Hs2). exists s. split; [done|].
        by rewrite Hot2.
      * rewrite <- Hal in Ha. destruct (Hde2 j Hj Ha) as (s & Hs1 & Hs2).
        exists s. split; [|done]. rewrite <- Hs1. symmetry. apply Hot.
        by intros ->.
Qed.

(** Removing the first [x] of a list that has none before an [x] that
    differs from all its predecessors by a test. *)
Lemma list_remove_first (P : nat -> bool) x : forall pre l,
  Forall (fun y => P y = true) pre -> P x = false ->
  ScreenServer.list_remove x (pre ++ x :: l) = Return (pre ++ l).
Proof.
  induction pre as [|y pre IH]; intros l Hpre Hx.
  - cbn. by rewrite Nat.eqb_refl.
  - apply Forall_cons in Hpre as [Hy Hpre]. cbn.
    destruct (Nat.eqb_spec x y) as [->|_]; [congruence|].
    by rewrite IH.
Qed.

(** The removals after the pass: every viewer found dead is taken out
    of the list, none of the others is, and no removal raises. *)
Lemma remove_dead_spec (P : nat -> bool) : forall l pre c,
  ScreenServer.clients c = pre ++ l ->
  Forall (fun y => P y = true) pre ->
  exists c',
    ScreenServer.remove_dead (List.filter (fun i => negb (P i)) l) c
    = (Return tt, c')
    /\ ScreenServer.clients c' = pre ++ List.filter P l
    /\ ScreenServer.trace c'
       = ScreenServer.trace c
         ++ map ScreenServer.Removed (List.filter (fun i => negb (P i)) l)
    /\ ScreenServer.conns c' = ScreenServer.conns c
    /\ ScreenServer.running c' = ScreenServer.running c
    /\ ScreenServer.stdout c' = ScreenServer.stdout c.
Proof.
  induction l as [|x l IH]; intros pre c Hcl Hpre.
  - exists c. cbn [List.filter map ScreenServer.remove_dead].
    rewrite !app_nil_r in *. by rewrite Hcl.
  - cbn [List.filter]. destruct (P x) eqn:Hx; cbn [negb].
    + destruct (IH (pre ++ [x]) c) as (c' & Hr & Hc' & Ht & Hrest).
      * by rewrite <- app_assoc.
      * apply Forall_app. split; [done|]. by apply Forall_singleton.
      * exists c'. rewrite <- app_assoc in Hc'. done.
    + cbn [ScreenServer.remove_dead]. rewrite Hcl.
      rewrite (list_remove_first P x pre l Hpre Hx).
      destruct (IH pre (ScreenServer.note (ScreenServer.Removed x)
                          (ScreenServer.set_clients (pre ++ l) c)))
        as (c' & Hr & Hc' & Ht & Hrest); [done..|].
      exists c'. split; [done|]. split; [done|]. split; [|done].
      rewrite Ht. cbn. by rewrite <- app_assoc.
Qed.

(** C7: in one broadcast cycle every viewer of the list is written to,
    in order, and a viewer whose write fails is only marked during that
    pass; the removals come after the last write of the pass.  After
    the cycle the dead viewers are gone from the list, the others are
    all still in it, in their order, and each of them has received the
    packet; no removal raises and nothing is printed. *)
Theorem broadcast_cycle_drops_dead
    (data header : bytes) (percent : Z) (c : ScreenServer.t) :
  NoDup (ScreenServer.clients c) ->
  pack_II (len data) percent = Return header ->
  let c' := ScreenServer.broadcast_cycle data percent c in
  ScreenServer.clients c' = List.filter (alive c) (ScreenServer.clients c)
  /\ ScreenServer.trace c'
     = ScreenServer.trace c
       ++ map (fun i => if alive c i then ScreenServer.Sent i
                        else ScreenServer.Failed i) (ScreenServer.clients c)
       ++ map ScreenServer.Removed
            (List.filter (fun i => negb (alive c i)) (ScreenServer.clients c))
  /\ (forall i, i ∈ ScreenServer.clients c -> alive c i = false ->
        i ∉ ScreenServer.clients c')
  /\ (forall i, i ∈ ScreenServer.clients c -> alive c i = true ->
        i ∈ ScreenServer.clients c'
        /\ exists s,
             ScreenServer.conns c !! i = Some s
             /\ ScreenServer.conns c' !! i
                = Some (delivered (header ++ data) s))
  /\ ScreenServer.stdout c' = ScreenServer.stdout c.
Proof.
  intros Hnd Hpack c'. unfold c', ScreenServer.broadcast_cycle.
  rewrite Hpack.
  pose proof (send_to_all_spec (header ++ data) (ScreenServer.clients c) [] c
                Hnd) as Hs. cbn zeta in Hs.
  destruct (ScreenServer.send_to_all _ _ _ c) as [dead c1].
  cbn [fst snd] in Hs.
  destruct Hs as (-> & Hcl & Hru & Hso & Htr & Hal & Hot & Hde).
  cbn [app].
  destruct (remove_dead_spec (alive c) (ScreenServer.clients c) [] c1)
    as (c2 & -> & Hcl2 & Htr2 & Hco2 & Hru2 & Hso2); [done..|].
  cbn [app] in Hcl2.
  split; [done|]. split; [by rewrite Htr2, Htr, <- app_assoc|].
  split; [|split; [|congruence]].
  - intros i _ Hdead Hin. rewrite Hcl2 in Hin.
    apply list_elem_of_In, List.filter_In in Hin as [_ Hin]. congruence.
  - intros i Hin Ha. split.
    + rewrite Hcl2. apply list_elem_of_In, List.filter_In.
      split; [by apply list_elem_of_In|done].
    + rewrite Hco2. by apply Hde.
Qed.

Lemma broadcast_cycle_drops_dead_witness :
  ScreenServer.clients
    (ScreenServer.broadcast_cycle [x01; x02] 100 Inputs.broadcaster)
  = [7; 9]%nat.
Proof.
  destruct (broadcast_cycle_drops_dead [x01; x02]
              (be32_bytes 2 ++ be32_bytes 100) 100 Inputs.broadcaster)
    as (Hcl & _).
  - apply (bool_decide_unpack _). reflexivity.
  - reflexivity.
  - exact Hcl.
Defined.

(** The run of the cycle on three viewers, the second of them gone. *)
Example broadcast_cycle_three_viewers :
  let c' := ScreenServer.broadcast_cycle [x01; x02] 100 Inputs.broadcaster in
  ScreenServer.clients c' = [7; 9]%nat
  /\ ScreenServer.trace c'
     = [ScreenServer.Sent 7; ScreenServer.Failed 8; ScreenServer.Sent 9;
        ScreenServer.Removed 8]
  /\ outgoing <$> ScreenServer.conns c' !! 9%nat
     = Some [[x00; x00; x00; x02; x00; x00; x00; x64; x01; x02]].
Proof. repeat split; vm_compute; reflexivity. Qed.

(** ** The file channel *)

Lemma insert_write path chunk v (fs : gmap string bytes) :
  <[path := v]> (FileServer.write path chunk fs) = <[path := v]> fs.
Proof.
  apply map_eq. intros k. unfold FileServer.write.
  destruct (decide (k = path)) as [->|Hne].
  - by rewrite !lookup_insert_eq.
  - by rewrite !lookup_insert_ne, lookup_alter_ne.
Qed.

(** The copy loop of [_receive_file] from any state it can reach, on an
    open socket: the file grows by the bytes taken from the stream, as
    many of the missing ones as come before the stream ends; the loop
    is left in order when they have all come or when the peer has
    closed, and by the exception of [recv] when the connection
    broke. *)
Lemma copy_loop path file_size fuel : forall received fs client old,
  closed client = false -> fs !! path = Some old ->
  (Z.to_nat (file_size - received) < fuel)%nat ->
  exists r fs' client' got,
    while fuel (fun st => Some (FileServer.copy_body path file_size st))
      (received, fs, client) = Some (r, fs', client')
    /\ reads client got client'
    /\ fs' = <[path := old ++ got]> fs
    /\ len got = Z.min (Z.max 0 (file_size - received))
                   (len (stream (incoming client)))
    /\ match r with
       | Return _ =>
           file_size - received <= len (stream (incoming client))
           \/ ending client = PeerClosed
       | Raise e =>
           e = OSError /\ ending client = ConnReset
           /\ len (stream (incoming client)) < file_size - received
       end.
Proof.
  induction fuel as [|fuel IH]; intros received fs client old Hc Hold Hfuel;
    [lia|].
  cbn [while]. unfold FileServer.copy_body.
  pose proof (len_nonneg (stream (incoming client))) as Hav.
  destruct (Z.ltb_spec received file_size) as [Hlt|Hge].
  - pose proof BUFFER_SIZE_pos as HB.
    pose proof (recv_spec (Z.min BUFFER_SIZE (file_size - received)) client Hc
                  ltac:(lia)) as Hr.
    destruct (incoming client) as [|g rest] eqn:Hin.
    + rewrite Hr. change (len (stream [])) with 0 in *.
      destruct (ending client) eqn:He;
        eexists _, _, _, []; (split; [reflexivity|]);
        (split; [apply reads_note|]);
        (split; [by rewrite app_nil_r, insert_id|]);
        (split; [change (len []) with 0; lia|]).
      * by right.
      * split; [done|]. split; [done|lia].
    + destruct Hr as (chunk & s1 & -> & Hne & Hlen & Hrd).
      destruct chunk as [|b bs]; [done|].
      pose proof Hrd as (Hst & He & Hc1 & _).
      destruct (IH (received + len (b :: bs))
                  (FileServer.write path (b :: bs) fs) s1 (old ++ b :: bs))
        as (r & fs' & client' & got & Hw & Hrd' & Hfs & Hgot & Hres).
      * congruence.
      * unfold FileServer.write. rewrite lookup_alter_eq.
        unfold bytes in *. by rewrite Hold.
      * unfold len in *. cbn [length] in *. lia.
      * exists r, fs', client', ((b :: bs) ++ got).
        split; [exact Hw|]. split; [by eapply reads_trans|].
        split; [by rewrite Hfs, insert_write, app_assoc|].
        rewrite <- Hin, Hst, !len_app in *.
        pose proof (len_nonneg (stream (incoming s1))).
        split; [lia|].
        destruct r as [|e].
        -- destruct Hres as [Hres|Hres]; [left; lia|right; congruence].
        -- destruct Hres as (-> & Hres & Hsh).
           split; [done|]. split; [congruence|lia].
  - exists (Return tt), fs, client, [].
    split; [reflexivity|]. split; [apply reads_nil|].
    split; [by rewrite app_nil_r, insert_id|].
    split; [change (len []) with 0; lia|]. left. lia.
Qed.

Section FileServerFacts.
Context {L : Library}.

(** [_receive_file] after a first read that returned the whole header
    and a second read that returned the whole name. *)
Lemma receive_file_after_name
    (c : FileServer.t) (client client1 client2 : socket)
    (header raw : bytes) (name_len file_size : Z) (filename : string) :
  recv 8 client = (Return header, client1) ->
  unpack_II header = Return (name_len, file_size) ->
  recv name_len client1 = (Return raw, client2) ->
  utf8_decode raw = Return filename ->
  open_wb (path_join (FileServer.save_dir c) filename) = Return tt ->
  closed client2 = false ->
  let path := path_join (FileServer.save_dir c) filename in
  let avail := stream (incoming client2) in
  exists client' got,
    reads client2 got client'
    /\ len got = Z.min (Z.max 0 file_size) (len avail)
    /\ FileServer._receive_file c client
       = Some (FileServer.print
                 (if (file_size <=? len avail)
                     || match ending client2 with
                        | PeerClosed => true
                        | ConnReset => false
                        end
                  then ReceivedFileLine filename file_size
                  else FileReceiveErrorLine OSError)
                 (FileServer.set_files
                    (<[path := got]> (FileServer.files c)) c),
               close client').
Proof.
  intros Hr1 Hun Hr2 Hdec Hopen Hc2 path avail.
  destruct (copy_loop path file_size (S (Z.to_nat file_size)) 0
              (<[path := []]> (FileServer.files c)) client2 [] Hc2)
    as (r & fs' & client' & got & Hw & Hrd & Hfs & Hgot & Hres).
  { by rewrite lookup_insert_eq. }
  { lia. }
  rewrite Z.sub_0_r in *. cbn [app] in Hfs. rewrite insert_insert_eq in Hfs.
  exists client', got. split; [done|]. split; [done|].
  unfold FileServer._receive_file, FileServer.receive_file_try.
  rewrite Hr1, Hun, Hr2. cbn [mbind outcome_bind]. rewrite Hdec, Hopen.
  fold path. rewrite Hw. cbn [mbind option_bind]. subst fs'.
  fold avail in Hres, Hgot |- *.
  destruct r as [u|e].
  - cbn [mbind option_bind].
    destruct (Z.leb_spec file_size (len avail)) as [|Hsh]; [done|].
    destruct Hres as [? | ->]; [lia|done].
  - destruct Hres as (-> & -> & Hsh). cbn [mbind option_bind].
    destruct (Z.leb_spec file_size (len avail)); [lia|done].
Qed.

(** C9: when the peer closes the connection before [file_length] bytes
    of content have come, [_receive_file] leaves the copy loop, keeps
    on disk the file with the bytes that did come, and prints the line
    of a successful receive, with the full expected size; no error is
    raised or printed.  The header and the name are taken to have come
    whole, each in its read. *)
Theorem truncated_transfer_reported_received
    (c : FileServer.t) (client client1 client2 : socket)
    (header raw : bytes) (name_len file_size : Z) (filename : string) :
  recv 8 client = (Return header, client1) ->
  unpack_II header = Return (name_len, file_size) ->
  recv name_len client1 = (Return raw, client2) ->
  utf8_decode raw = Return filename ->
  open_wb (path_join (FileServer.save_dir c) filename) = Return tt ->
  closed client2 = false ->
  ending client2 = PeerClosed ->
  len (stream (incoming client2)) < file_size ->
  exists c' client',
    FileServer._receive_file c client = Some (c', client')
    /\ FileServer.files c'
       = <[path_join (FileServer.save_dir c) filename
           := stream (incoming client2)]> (FileServer.files c)
    /\ FileServer.stdout c'
       = FileServer.stdout c ++ [ReceivedFileLine filename file_size]
    /\ closed client' = true
    /\ incoming client' = [].
Proof.
  intros Hr1 Hun Hr2 Hdec Hopen Hc2 Hend Hshort.
  destruct (receive_file_after_name c client client1 client2 header raw
              name_len file_size filename)
    as (client' & got & Hrd & Hgot & Hrecv); try done.
  pose proof (len_nonneg (stream (incoming client2))) as Hav.
  assert (got = stream (incoming client2) /\ stream (incoming client') = [])
    as [-> Hnil].
  { destruct Hrd as (Hst & _).
    assert (len (stream (incoming client')) = 0) as H0
      by (apply (f_equal len) in Hst; rewrite len_app in Hst; lia).
    destruct (stream (incoming client')) as [|? ?]; [|done].
    by rewrite app_nil_r in Hst. }
  rewrite Hend in Hrecv. rewrite orb_true_r in Hrecv.
  eexists _, _. split; [exact Hrecv|].
  split; [reflexivity|]. split; [reflexivity|]. split; [reflexivity|].
  change (incoming (close client')) with (incoming client').
  destruct (incoming client') as [|g ?]; [done|]. by destruct g.
Qed.

(** What the copy loop achieves: once the header and the name have come
    whole, each in its read, the file on disk is the first
    [file_length] bytes of what follows, however the network has cut
    them into segments. *)
Theorem content_received_under_any_chunking
    (c : FileServer.t) (client client1 client2 : socket)
    (header raw content rest : bytes) (name_len : Z) (filename : string) :
  recv 8 client = (Return header, client1) ->
  unpack_II header = Return (name_len, len content) ->
  recv name_len client1 = (Return raw, client2) ->
  utf8_decode raw = Return filename ->
  open_wb (path_join (FileServer.save_dir c) filename) = Return tt ->
  closed client2 = false ->
  stream (incoming client2) = content ++ rest ->
  exists c' client',
    FileServer._receive_file c client = Some (c', client')
    /\ FileServer.files c' !! path_join (FileServer.save_dir c) filename
       = Some content
    /\ FileServer.stdout c'
       = FileServer.stdout c ++ [ReceivedFileLine filename (len content)].
Proof.
  intros Hr1 Hun Hr2 Hdec Hopen Hc2 Hst.
  destruct (receive_file_after_name c client client1 client2 header raw
              name_len (len content) filename)
    as (client' & got & Hrd & Hgot & Hrecv); try done.
  pose proof (len_nonneg content). pose proof (len_nonneg rest).
  rewrite Hst, len_app in Hgot, Hrecv.
  assert (got = content) as ->.
  { destruct Hrd as (Hs & _). rewrite Hst in Hs.
    apply app_inj_1 in Hs; [by destruct Hs|]. unfold len in *. lia. }
  destruct (Z.leb_spec (len content) (len content + len rest)); [|lia].
  eexists _, _. split; [exact Hrecv|]. split; [|done].
  cbn. by rewrite lookup_insert_eq.
Qed.

End FileServerFacts.

Lemma truncated_transfer_reported_received_witness :
  exists c' client',
    FileServer._receive_file (L := Ref.library) Inputs.file_server
      Inputs.cut_short = Some (c', client')
    /\ FileServer.files c'
       = {[ "/home/u/ChenDesk_Files/a.txt"%string := list_byte_of_string "hi" ]}
    /\ FileServer.stdout c' = [ReceivedFileLine "a.txt" 10].
Proof.
  destruct (truncated_transfer_reported_received (L := Ref.library)
              Inputs.file_server Inputs.cut_short
              (set_incoming
                 (segments [list_byte_of_string "a.txt";
                            list_byte_of_string "hi"])
                 (note_recv 8 Inputs.cut_short))
              (set_incoming (segments [list_byte_of_string "hi"])
                 (note_recv 5 (set_incoming
                    (segments [list_byte_of_string "a.txt";
                               list_byte_of_string "hi"])
                    (note_recv 8 Inputs.cut_short))))
              (be32_bytes 5 ++ be32_bytes 10) (list_byte_of_string "a.txt")
              5 10 "a.txt"
              eq_refl eq_refl eq_refl eq_refl eq_refl eq_refl eq_refl eq_refl)
    as (c' & client' & Hr & Hf & Hs & _).
  exists c', client'. split; [exact Hr|]. split; [exact Hf | exact Hs].
Defined.

(** The run of the truncated transfer. *)
Example truncated_transfer_run :
  (fun r => (FileServer.files r.1, FileServer.stdout r.1, closed r.2))
    <$> FileServer._receive_file (L := Ref.library) Inputs.file_server
          Inputs.cut_short
  = Some ({[ "/home/u/ChenDesk_Files/a.txt"%string
             := list_byte_of_string "hi" ]},
          [ReceivedFileLine "a.txt" 10], true).
Proof. vm_compute. reflexivity. Qed.

(** C3 does not hold of the code: [send_file] writes the header, the
    name and the content of a file of two bytes; when the network
    hands these bytes over whole the receiver stores the file; when it
    hands over the first three bytes of the header first, the single
    [recv(8)] returns those three, [struct.unpack] raises, and no file
    is stored; and when it cuts the name in two, the single
    [recv(name_len)] returns its first part, and the file is stored
    under that name with the rest of the name as its content. *)
Theorem split_header_loses_file :
  (fun r => (r.1, concat (outgoing r.2)))
    <$> FileClient.send_file (L := Ref.library) Inputs.sender_disk
          (fresh_socket [] PeerClosed) "/tmp/a.txt"
  = Some (true, Inputs.wire)
  /\ (fun r => (FileServer.files r.1, FileServer.stdout r.1))
       <$> FileServer._receive_file (L := Ref.library) Inputs.file_server
             (Inputs.transfer [Inputs.wire])
     = Some ({[ "/home/u/ChenDesk_Files/a.txt"%string
                := list_byte_of_string "hi" ]},
             [ReceivedFileLine "a.txt" 2])
  /\ (fun r => (FileServer.files r.1, FileServer.stdout r.1))
       <$> FileServer._receive_file (L := Ref.library) Inputs.file_server
             (Inputs.transfer [take 3 Inputs.wire; drop 3 Inputs.wire])
     = Some (∅, [FileReceiveErrorLine StructError])
  /\ (fun r => (FileServer.files r.1, FileServer.stdout r.1))
       <$> FileServer._receive_file (L := Ref.library) Inputs.file_server
             (Inputs.transfer [take 10 Inputs.wire; drop 10 Inputs.wire])
     = Some ({[ "/home/u/ChenDesk_Files/a."%string
                := list_byte_of_string "tx" ]},
             [ReceivedFileLine "a." 2]).
Proof. repeat split; vm_compute; reflexivity. Qed.

Lemma recv_return_open n s d s' :
  recv n s = (Return d, s') -> closed s = false /\ closed s' = false.
Proof.
  unfold recv. change (closed (note_recv n s)) with (closed s).
  change (incoming (note_recv n s)) with (incoming s).
  change (ending (note_recv n s)) with (ending s).
  destruct (closed s) eqn:Hc; [done|].
  destruct (n <? 0); [done|].
  destruct (n =? 0); [by intros [= <- <-]|].
  destruct (incoming s) as [|g rest].
  - destruct (ending s); [by intros [= <- <-]|done].
  - destruct (drop _ _); by intros [= <- <-].
Qed.

(** On a connection that carries its bytes and then ends, by the
    peer's close or by an error, [_receive_file] ends: a pass of its
    copy loop that goes round again has received at least one byte, so
    the bound on the passes, one more than [file_length], is never
    reached.  (A sender that stays silent on an open connection, on
    which [recv] waits for ever, is no connection of the model.) *)
Theorem receive_file_total {L : Library} c client :
  is_Some (FileServer._receive_file c client).
Proof.
  unfold FileServer._receive_file, FileServer.receive_file_try.
  destruct (recv 8 client) as [[header|e] client1] eqn:Hr1; [|done].
  destruct (unpack_II header) as [[name_len file_size]|e]; [|done].
  destruct (recv name_len client1) as [[raw|e] client2] eqn:Hr2; [|done].
  cbn [mbind outcome_bind].
  destruct (utf8_decode raw) as [filename|e]; [|done].
  destruct (open_wb _) as [u|e]; [|done].
  apply recv_return_open in Hr2 as [_ Hc2].
  destruct (copy_loop (path_join (FileServer.save_dir c) filename) file_size
              (S (Z.to_nat file_size)) 0
              (<[path_join (FileServer.save_dir c) filename := []]>
                 (FileServer.files c)) client2 [] Hc2)
    as (r & fs' & client' & got & Hw & _).
  { by rewrite lookup_insert_eq. }
  { lia. }
  rewrite Hw. cbn [mbind option_bind]. by destruct r.
Qed.

(** ** The sender, and a whole transfer *)

Lemma byte_val_of_Z z : byte_val (byte_of_Z z) = Z.land z 255.
Proof.
  assert (0 <= Z.land z 255 < 256) as Hr.
  { change 255 with (Z.ones 8). rewrite Z.land_ones by lia.
    apply Z.mod_pos_bound. lia. }
  unfold byte_val, byte_of_Z.
  destruct (Byte.of_N (Z.to_N (Z.land z 255))) as [b|] eqn:Hb.
  - apply Byte.to_of_N in Hb. rewrite Hb. lia.
  - apply Byte.of_N_None_iff in Hb. lia.
Qed.

Lemma land_ones_bit x m :
  Z.testbit (Z.land x (Z.ones 8)) m
  = Z.testbit x m && (0 <=? m) && (m <? 8).
Proof.
  rewrite Z.land_spec.
  destruct (Z.leb_spec 0 m); [|by rewrite !Z.testbit_neg_r by lia].
  destruct (Z.ltb_spec m 8).
  - rewrite Z.ones_spec_low by lia. by rewrite !andb_true_r.
  - rewrite Z.ones_spec_high by lia. by rewrite !andb_false_r.
Qed.

(** [struct.unpack] reads back the fields that [struct.pack] wrote. *)
Lemma be32_be32_bytes z b0 b1 b2 b3 :
  0 <= z < 2 ^ 32 -> be32_bytes z = [b0; b1; b2; b3] -> be32 b0 b1 b2 b3 = z.
Proof.
  intros Hz [= <- <- <- <-]. unfold be32. rewrite !byte_val_of_Z.
  change 255 with (Z.ones 8).
  apply Z.bits_inj'. intros n Hn.
  rewrite !Z.lor_spec, !Z.shiftl_spec, !land_ones_bit by lia.
  assert (32 <= n -> Z.testbit z n = false) as Hhigh.
  { intros Hn32. destruct (Z.eq_dec z 0) as [->|Hz0]; [apply Z.bits_0|].
    apply Z.bits_above_log2; [lia|].
    assert (Z.log2 z < 32) by (apply Z.log2_lt_pow2; lia). lia. }
  repeat match goal with
         | |- context [Z.leb ?a ?b] => destruct (Z.leb_spec a b)
         | |- context [Z.ltb ?a ?b] => destruct (Z.ltb_spec a b)
         end;
    rewrite ?andb_false_r, ?andb_true_r, ?orb_false_r, ?orb_false_l;
    try lia;
    first [ rewrite Z.shiftr_spec by lia; f_equal; lia
          | reflexivity
          | symmetry; apply Hhigh; lia ].
Qed.

Lemma unpack_pack a b header :
  pack_II a b = Return header -> unpack_II header = Return (a, b).
Proof.
  unfold pack_II.
  destruct (Z.leb_spec 0 a); [|done]. destruct (Z.ltb_spec a (2 ^ 32)); [|done].
  destruct (Z.leb_spec 0 b); [|done]. destruct (Z.ltb_spec b (2 ^ 32)); [|done].
  cbn [andb]. intros [= <-]. unfold unpack_II, be32_bytes. cbn [app].
  by rewrite (be32_be32_bytes a _ _ _ _ ltac:(lia) eq_refl),
    (be32_be32_bytes b _ _ _ _ ltac:(lia) eq_refl).
Qed.

Lemma send_body_nil sock :
  FileClient.send_body ([], sock) = Leave (Return tt, sock).
Proof. unfold FileClient.send_body. by rewrite take_nil. Qed.

Lemma send_body_cons x rest sock n :
  Z.to_nat BUFFER_SIZE = S n ->
  closed sock || send_fails sock = false ->
  FileClient.send_body (x :: rest, sock)
  = Again (drop (S n) (x :: rest), delivered (x :: take n rest) sock).
Proof.
  intros Hn Hok. unfold FileClient.send_body. rewrite Hn. cbn [take].
  by rewrite sendall_alive.
Qed.

(** The loop of [send_file] on a socket that takes writes: it ends, and
    has written the rest of the file in order. *)
Lemma send_loop fuel : forall rest sock,
  closed sock || send_fails sock = false ->
  (length rest < fuel)%nat ->
  exists sock',
    while fuel (fun st => Some (FileClient.send_body st)) (rest, sock)
    = Some (Return tt, sock')
    /\ concat (outgoing sock') = concat (outgoing sock) ++ rest
    /\ closed sock' || send_fails sock' = false.
Proof.
  induction fuel as [|fuel IH]; intros rest sock Hok Hfuel; [lia|].
  cbn [while].
  destruct (Z.to_nat BUFFER_SIZE) as [|n] eqn:Hn;
    [unfold BUFFER_SIZE in Hn; lia|].
  destruct rest as [|x rest].
  - rewrite send_body_nil. exists sock. by rewrite app_nil_r.
  - rewrite (send_body_cons x rest sock n Hn Hok).
    destruct (IH (drop (S n) (x :: rest)) (delivered (x :: take n rest) sock))
      as (sock' & Hw & Hout & Hok').
    + done.
    + rewrite length_drop. cbn [length] in *. lia.
    + exists sock'. split; [exact Hw|]. split; [|done].
      rewrite Hout. cbn [outgoing delivered].
      rewrite concat_app. cbn [concat]. rewrite app_nil_r, <- app_assoc.
      f_equal. change (x :: take n rest) with (take (S n) (x :: rest)).
      apply take_drop.
Qed.

Section FileTransfer.
Context {L : Library}.

(** [send_file] of a file whose name and size fit the header, over a
    connection that takes writes: it returns [True], and has written
    the header, the name and the content, in this order. *)
Theorem send_file_writes_stream
    (fs : gmap string bytes) (sock : socket) (filepath : string)
    (content : bytes) :
  fs !! filepath = Some content ->
  closed sock || send_fails sock = false ->
  outgoing sock = [] ->
  len (utf8_encode (path_basename filepath)) < 2 ^ 32 ->
  len content < 2 ^ 32 ->
  exists header sock',
    pack_II (len (utf8_encode (path_basename filepath))) (len content)
    = Return header
    /\ FileClient.send_file fs sock filepath = Some (true, sock')
    /\ concat (outgoing sock')
       = header ++ utf8_encode (path_basename filepath) ++ content.
Proof.
  intros Hfs Hok Hout Hname Hsize.
  pose proof (len_nonneg (utf8_encode (path_basename filepath))).
  pose proof (len_nonneg content).
  assert (exists header,
            pack_II (len (utf8_encode (path_basename filepath))) (len content)
            = Return header) as [header Hp].
  { unfold pack_II.
    destruct (Z.leb_spec 0 (len (utf8_encode (path_basename filepath))));
      [|lia].
    destruct (Z.ltb_spec (len (utf8_encode (path_basename filepath)))
                (2 ^ 32)); [|lia].
    destruct (Z.leb_spec 0 (len content)); [|lia].
    destruct (Z.ltb_spec (len content) (2 ^ 32)); [|lia].
    by eexists. }
  exists header.
  destruct (send_loop (S (length content)) content
              (delivered (utf8_encode (path_basename filepath))
                 (delivered header sock)))
    as (sock' & Hw & Hcat & _); [done | lia |].
  exists (close sock'). split; [done|].
  unfold FileClient.send_file, FileClient.send_file_try.
  rewrite Hfs, Hp, !sendall_alive by done.
  unfold bytes in *. rewrite Hw.
  cbn [mbind option_bind]. split; [done|].
  change (outgoing (close sock')) with (outgoing sock').
  rewrite Hcat. cbn [outgoing delivered]. rewrite Hout. cbn [app concat].
  by rewrite !app_nil_r, <- !app_assoc.
Qed.

(** A whole transfer: when the header and the name reach the receiver
    each as a segment of its own, the file that the receiver stores
    has the bytes of the file that was sent, however the content is
    cut into segments. *)
Theorem transfer_with_whole_header_and_name
    (fs : gmap string bytes) (sock : socket) (filepath filename : string)
    (content : bytes) (c : FileServer.t) (gh gn : segment)
    (gs : list segment) :
  fs !! filepath = Some content ->
  closed sock || send_fails sock = false ->
  outgoing sock = [] ->
  len (utf8_encode (path_basename filepath)) < 2 ^ 32 ->
  len content < 2 ^ 32 ->
  utf8_decode (utf8_encode (path_basename filepath)) = Return filename ->
  open_wb (path_join (FileServer.save_dir c) filename) = Return tt ->
  exists header sock',
    FileClient.send_file fs sock filepath = Some (true, sock')
    /\ concat (outgoing sock')
       = header ++ utf8_encode (path_basename filepath) ++ content
    /\ (seg_bytes gh = header ->
        seg_bytes gn = utf8_encode (path_basename filepath) ->
        stream gs = content ->
        exists c' client',
          FileServer._receive_file c (fresh_socket (gh :: gn :: gs) PeerClosed)
          = Some (c', client')
          /\ FileServer.files c' !! path_join (FileServer.save_dir c) filename
             = Some content).
Proof.
  intros Hfs Hok Hout Hname Hsize Hdec Hopen.
  destruct (send_file_writes_stream fs sock filepath content)
    as (header & sock' & Hp & Hs & Hcat); try done.
  exists header, sock'. split; [done|]. split; [done|].
  intros Hgh Hgn Hgs.
  pose proof (unpack_pack _ _ _ Hp) as Hun.
  assert (length header = 8%nat) as Hh8.
  { unfold unpack_II in Hun.
    do 9 (destruct header as [|? header]; try done). }
  set (client := fresh_socket (gh :: gn :: gs) PeerClosed).
  set (name := utf8_encode (path_basename filepath)) in *.
  set (client1 := set_incoming (gn :: gs) (note_recv 8 client)).
  assert (recv 8 client = (Return header, client1)) as Hr1.
  { rewrite <- Hgh. apply recv_whole_segment; [done..|].
    rewrite Hgh. unfold len. lia. }
  assert (recv (len name) client1
          = (Return name,
             set_incoming gs (note_recv (len name) client1))) as Hr2.
  { rewrite <- Hgn. apply recv_whole_segment; [done..|lia]. }
  destruct (content_received_under_any_chunking c client client1
              (set_incoming gs (note_recv (len name) client1))
              header name content [] (len name) filename)
    as (c' & client' & Hrecv & Hfile & _); try done.
  { cbn. by rewrite app_nil_r. }
  by exists c', client'.
Qed.

End FileTransfer.

(** The whole transfer of the file of two bytes, its content cut into
    single bytes. *)
Example transfer_in_single_bytes :
  (fun r => FileServer.files r.1)
    <$> FileServer._receive_file (L := Ref.library) Inputs.file_server
          (Inputs.transfer [be32_bytes 5 ++ be32_bytes 2;
                            list_byte_of_string "a.txt"; [x68]; [x69]])
  = Some {[ "/home/u/ChenDesk_Files/a.txt"%string
            := list_byte_of_string "hi" ]}.
Proof. vm_compute. reflexivity. Qed.

(** * Further properties *)

(** ** The screen channel *)

(** However the network has cut the stream, [_recv_exact(n)] with [n]
    bytes pending makes as many reads as it takes, returns the first
    [n] bytes of the stream in order and leaves the bytes after them
    in the socket, which stays open. *)
Theorem recv_exact_accumulates (n : Z) (s : socket) (d rest : bytes) :
  closed s = false ->
  stream (incoming s) = d ++ rest ->
  len d = n ->
  exists s',
    ScreenClient._recv_exact n s = Some (Return (Some d), s')
    /\ stream (incoming s') = rest
    /\ closed s' = false
    /\ ending s' = ending s
    /\ outgoing s' = outgoing s.
Proof.
  intros Hc Hst Hlen.
  destruct (recv_exact_enough n s d rest Hc Hst Hlen) as (s' & Hr & Hrd).
  exists s'. split; [exact Hr|].
  destruct Hrd as (Hs & He & Hcl & Ho & _).
  rewrite Hst in Hs. apply app_inv_head in Hs.
  repeat split; congruence.
Qed.

Lemma recv_exact_accumulates_witness :
  exists s',
    ScreenClient._recv_exact 3 Inputs.two_chunks
    = Some (Return (Some [x01; x02; x03]), s')
    /\ stream (incoming s') = [x04].
Proof.
  destruct (recv_exact_accumulates 3 Inputs.two_chunks [x01; x02; x03] [x04]
              eq_refl eq_refl eq_refl) as (s' & Hr & Hs & _).
  exists s'. split; [exact Hr | exact Hs].
Defined.

(** With fewer than [n] bytes pending before the peer closes,
    [_recv_exact(n)] returns [None]. *)
Lemma recv_exact_eof n s :
  closed s = false -> ending s = PeerClosed ->
  len (stream (incoming s)) < n ->
  exists s', ScreenClient._recv_exact n s = Some (Return None, s').
Proof.
  intros Hc He Hlen. pose proof (len_nonneg (stream (incoming s))).
  destruct (recv_exact_loop n (S (Z.to_nat n)) [] s Hc)
    as (r & s' & Hw & Hres); [change (len []) with 0; lia ..|].
  change (len []) with 0 in Hres.
  destruct r as [[d|]|e].
  - destruct Hres as (more & -> & Hsz & (Hs & _)). cbn [app] in Hsz.
    apply (f_equal len) in Hs. rewrite len_app in Hs.
    pose proof (len_nonneg (stream (incoming s'))). lia.
  - by exists s'.
  - destruct Hres as [Hr _]. congruence.
Qed.

Section ScreenExtras.
Context {L : Library}.

(** The read loop over frames that decode, with any bound on the
    passes that exceeds the bytes pending. *)
Lemma receive_frames_loop : forall frames c fuel,
  ScreenClient.running c = true ->
  closed (ScreenClient.sock c) = false ->
  ending (ScreenClient.sock c) = PeerClosed ->
  Forall (fun f => frame_decodes f.1.1 f.1.2 f.2) frames ->
  stream (incoming (ScreenClient.sock c)) = concat (map frame_bytes frames) ->
  (length (stream (incoming (ScreenClient.sock c))) < fuel)%nat ->
  exists c',
    while fuel ScreenClient.receive_stream_body c = Some c'
    /\ ScreenClient.displayed c'
       = ScreenClient.displayed c
         ++ (if ScreenClient.on_frame c then map snd frames else [])
    /\ ScreenClient.stdout c' = ScreenClient.stdout c.
Proof.
  induction frames as [|[[header payload] bmp] frames IH];
    intros c fuel Hrun Hc He Hdec Hst Hfuel.
  - destruct fuel as [|fuel]; [lia|]. cbn [map concat] in Hst.
    destruct (recv_exact_eof 8 (ScreenClient.sock c) Hc He) as (s' & Hr).
    { rewrite Hst. change (len []) with 0. lia. }
    exists (ScreenClient.set_sock s' c).
    split.
    + apply while_leave.
      unfold ScreenClient.receive_stream_body, ScreenClient.receive_stream_try.
      by rewrite Hrun, Hr.
    + split; [by destruct (ScreenClient.on_frame c); rewrite app_nil_r|done].
  - destruct fuel as [|fuel]; [lia|].
    apply Forall_cons in Hdec as [(Hne & [scale Hun] & buffer & Hz & Hi) Hdec].
    cbn [fst snd] in *.
    cbn [map concat] in Hst. unfold frame_bytes at 1 in Hst.
    cbn [fst snd] in Hst. rewrite <- app_assoc in Hst.
    destruct (receive_stream_body_frame c header payload _ _ scale
                Hrun Hc Hst Hun eq_refl) as (s' & Hrd & Hb).
    unfold frame_result in Hb.
    destruct payload as [|p ps]; [done|]. rewrite Hz, Hi in Hb.
    pose proof Hrd as (Hs & He' & Hc' & _).
    set (c1 := match ScreenClient.on_frame (ScreenClient.set_sock s' c) with
               | true => ScreenClient.show bmp (ScreenClient.set_sock s' c)
               | false => ScreenClient.set_sock s' c
               end) in *.
    assert (ScreenClient.sock c1 = s'
            /\ ScreenClient.running c1 = true
            /\ ScreenClient.on_frame c1 = ScreenClient.on_frame c
            /\ ScreenClient.stdout c1 = ScreenClient.stdout c
            /\ ScreenClient.displayed c1
               = ScreenClient.displayed c
                 ++ (if ScreenClient.on_frame c then [bmp] else []))
      as (Hsk & Hr1 & Ho1 & Hso1 & Hd1).
    { unfold c1. cbn. destruct (ScreenClient.on_frame c) eqn:Hof; cbn;
        rewrite ?app_nil_r; repeat split; done. }
    destruct (IH c1 fuel) as (c' & Hw & Hd & Hso).
    + done.
    + rewrite Hsk. congruence.
    + rewrite Hsk. congruence.
    + done.
    + rewrite Hsk. rewrite Hst in Hs. rewrite app_assoc in Hs.
      by apply app_inv_head in Hs.
    + rewrite Hsk. rewrite Hs, !length_app in Hfuel.
      cbn [length] in Hfuel. lia.
    + exists c'. split; [cbn [while]; by rewrite Hb|].
      split; [|congruence].
      rewrite Hd, Hd1, Ho1. destruct (ScreenClient.on_frame c);
        cbn [map app]; by rewrite <- ?app_assoc, ?app_nil_r.
Qed.

(** Frames that decode are displayed one by one in the order they were
    sent, however the network has cut the byte stream, and once the
    peer closes the loop ends with nothing logged; without a display
    callback the frames are read and dropped. *)
Theorem frames_displayed_in_order
    (frames : list (bytes * bytes * bitmap)) (c : ScreenClient.t) :
  ScreenClient.running c = true ->
  closed (ScreenClient.sock c) = false ->
  ending (ScreenClient.sock c) = PeerClosed ->
  Forall (fun f => frame_decodes f.1.1 f.1.2 f.2) frames ->
  stream (incoming (ScreenClient.sock c)) = concat (map frame_bytes frames) ->
  exists c',
    ScreenClient._receive_stream c = Some c'
    /\ ScreenClient.displayed c'
       = ScreenClient.displayed c
         ++ (if ScreenClient.on_frame c then map snd frames else [])
    /\ ScreenClient.stdout c' = ScreenClient.stdout c.
Proof.
  intros Hrun Hc He Hdec Hst.
  destruct (receive_frames_loop frames c
              (S (length (stream (incoming (ScreenClient.sock c)))))
              Hrun Hc He Hdec Hst) as (c' & Hw & Hd & Hso); [lia|].
  exists c'. split; [exact Hw|]. split; [exact Hd | exact Hso].
Qed.

End ScreenExtras.

Lemma frames_displayed_in_order_witness :
  exists c',
    ScreenClient._receive_stream (L := Ref.library) MoreInputs.two_frames
    = Some c'
    /\ ScreenClient.displayed c' = [Inputs.pixel; Inputs.pixel].
Proof.
  destruct (frames_displayed_in_order (L := Ref.library)
              MoreInputs.good_frames MoreInputs.two_frames
              eq_refl eq_refl eq_refl) as (c' & Hr & Hd & _).
  - repeat constructor; try discriminate;
      first [ by eexists | eexists; split; vm_compute; reflexivity ].
  - vm_compute. reflexivity.
  - exists c'. split; [exact Hr | exact Hd].
Defined.

Section DisconnectExtras.
Context {L : Library}.


End DisconnectExtras.

(** The loop of [_recv_exact] on a stream that ends short of [size]
    bytes: it reads all that is pending, and then meets the end. *)
Lemma recv_exact_loop_short size fuel : forall data s,
  closed s = false ->
  len data + len (stream (incoming s)) < size ->
  (length (stream (incoming s)) < fuel)%nat ->
  exists s',
    while fuel (fun st => Some (ScreenClient.recv_exact_body size st)) (data, s)
    = Some (match ending s with
            | PeerClosed => Return None
            | ConnReset => Raise OSError
            end, s')
    /\ incoming s' = []
    /\ reads s (stream (incoming s)) s'.
Proof.
  induction fuel as [|fuel IH]; intros data s Hc Hsh Hfuel; [lia|].
  pose proof (len_nonneg (stream (incoming s))) as Hnn.
  pose proof (len_nonneg data) as Hnd.
  cbn [while]. unfold ScreenClient.recv_exact_body.
  destruct (Z.ltb_spec (len data) size) as [Hlt|Hge]; [|lia].
  pose proof BUFFER_SIZE_pos as HB.
  pose proof (recv_spec (Z.min (size - len data) BUFFER_SIZE) s Hc
                ltac:(lia)) as Hr.
  destruct (incoming s) as [|g rest] eqn:Hin.
  - rewrite Hr. eexists. split; [by destruct (ending s)|].
    split; [exact Hin|]. apply reads_note.
  - destruct Hr as (chunk & s1 & -> & Hne & Hlen & Hrd).
    destruct chunk as [|c cs]; [done|].
    pose proof Hrd as (Hst & He & Hc1 & _).
    rewrite <- Hin in *.
    destruct (IH (data ++ c :: cs) s1) as (s' & Hw & Hnil & Hrd').
    + by rewrite Hc1.
    + rewrite Hst, !len_app in Hsh. rewrite len_app. lia.
    + rewrite Hst, length_app in Hfuel. cbn [length] in Hfuel. lia.
    + exists s'. rewrite <- He. split; [exact Hw|]. split; [exact Hnil|].
      rewrite Hst. by eapply reads_trans.
Qed.

(** With fewer than [n] bytes left before the stream ends,
    [_recv_exact(n)] gives no data: it returns [None] when the peer
    closed in order, and raises when the connection broke.  The bytes
    that did come are dropped: all of them have been taken off the
    socket, on which nothing is pending afterwards, and none is in the
    result. *)
Theorem recv_exact_short_stream (n : Z) (s : socket) :
  closed s = false ->
  len (stream (incoming s)) < n ->
  exists s',
    ScreenClient._recv_exact n s
    = Some (match ending s with
            | PeerClosed => Return None
            | ConnReset => Raise OSError
            end, s')
    /\ incoming s' = []
    /\ reads s (stream (incoming s)) s'.
Proof.
  intros Hc Hlen. pose proof (len_nonneg (stream (incoming s))).
  unfold ScreenClient._recv_exact.
  apply recv_exact_loop_short; [done| |].
  - change (len []) with 0. lia.
  - unfold len in *. lia.
Qed.

Lemma recv_exact_short_stream_witness :
  exists s',
    ScreenClient._recv_exact 5 Inputs.two_chunks = Some (Return None, s')
    /\ incoming s' = [].
Proof.
  destruct (recv_exact_short_stream 5 Inputs.two_chunks eq_refl eq_refl)
    as (s' & Hr & Hnil & _).
  exists s'. split; [exact Hr | exact Hnil].
Defined.

(** ** The broadcaster *)

Lemma filter_none (P : nat -> bool) (l : list nat) :
  (forall i, i ∈ l -> P i = false) -> List.filter P l = [].
Proof.
  induction l as [|x l IH]; intros H; [done|]. cbn [List.filter].
  rewrite (H x) by (apply elem_of_cons; by left).
  apply IH. intros i Hi. apply H. by (apply elem_of_cons; right).
Qed.

Lemma filter_all (P : nat -> bool) (l : list nat) :
  (forall i, i ∈ l -> P i = true) -> List.filter P l = l.
Proof.
  induction l as [|x l IH]; intros H; [done|]. cbn [List.filter].
  rewrite (H x) by (apply elem_of_cons; by left).
  f_equal. apply IH. intros i Hi. apply H. by (apply elem_of_cons; right).
Qed.

Section BroadcastExtras.
Context {L : Library}.

(** From the broadcaster to the display: the packet that a broadcast
    cycle writes to a live viewer, header and payload in one write, is
    read by that viewer's loop as one frame, whose image is handed to
    the display callback, and the loop goes on to the bytes behind
    it. *)
Theorem broadcast_frame_reaches_viewer
    (data header buffer rest : bytes) (bmp : bitmap) (percent : Z)
    (c : ScreenServer.t) (i : nat) (v : ScreenClient.t) :
  NoDup (ScreenServer.clients c) ->
  i ∈ ScreenServer.clients c ->
  alive c i = true ->
  pack_II (len data) percent = Return header ->
  data <> [] ->
  zlib_decompress data = Return buffer ->
  imdecode buffer = Return (Some bmp) ->
  ScreenClient.running v = true ->
  ScreenClient.on_frame v = true ->
  closed (ScreenClient.sock v) = false ->
  stream (incoming (ScreenClient.sock v)) = (header ++ data) ++ rest ->
  exists s v',
    ScreenServer.conns c !! i = Some s
    /\ ScreenServer.conns (ScreenServer.broadcast_cycle data percent c) !! i
       = Some (delivered (header ++ data) s)
    /\ ScreenClient.receive_stream_body v = Some (Again v')
    /\ ScreenClient.displayed v' = ScreenClient.displayed v ++ [bmp]
    /\ stream (incoming (ScreenClient.sock v')) = rest
    /\ ScreenClient.stdout v' = ScreenClient.stdout v.
Proof.
  intros Hnd Hin Hal Hpack Hne Hz Hi Hrun Hon Hc Hst.
  (* the cycle *)
  unfold ScreenServer.broadcast_cycle. rewrite Hpack.
  pose proof (send_to_all_spec (header ++ data) (ScreenServer.clients c) [] c
                Hnd) as Hs. cbn zeta in Hs.
  destruct (ScreenServer.send_to_all _ _ _ c) as [dead c1].
  cbn [fst snd] in Hs.
  destruct Hs as (-> & Hcl & _ & _ & _ & _ & _ & Hde). cbn [app].
  destruct (remove_dead_spec (alive c) (ScreenServer.clients c) [] c1)
    as (c2 & -> & _ & _ & Hco2 & _); [done..|].
  destruct (Hde i Hin Hal) as (s & Hs1 & Hs2).
  (* the pass of the read loop *)
  rewrite <- app_assoc in Hst.
  destruct (receive_stream_body_frame v header data rest _ percent
              Hrun Hc Hst (unpack_pack _ _ _ Hpack) eq_refl)
    as (s' & Hrd & Hb).
  unfold frame_result in Hb. destruct data as [|b bs]; [done|].
  rewrite Hz, Hi in Hb. cbn [ScreenClient.on_frame ScreenClient.set_sock] in Hb.
  rewrite Hon in Hb.
  exists s, (ScreenClient.show bmp (ScreenClient.set_sock s' v)).
  split; [done|]. split; [by rewrite Hco2|]. split; [exact Hb|].
  split; [done|]. split; [|done].
  destruct Hrd as (Hs & _). cbn. rewrite Hst, app_assoc in Hs.
  by apply app_inv_head in Hs.
Qed.

End BroadcastExtras.

Lemma broadcast_frame_reaches_viewer_witness :
  exists v',
    ScreenClient.receive_stream_body (L := Ref.library) Inputs.good_alone
    = Some (Again v')
    /\ ScreenClient.displayed v' = [Inputs.pixel].
Proof.
  destruct (broadcast_frame_reaches_viewer (L := Ref.library)
              Inputs.good_payload
              (be32_bytes (len Inputs.good_payload) ++ be32_bytes 100)
              Inputs.image [] Inputs.pixel 100 Inputs.broadcaster 9%nat
              Inputs.good_alone)
    as (s & v' & _ & _ & Hb & Hd & _).
  - apply (bool_decide_unpack _). reflexivity.
  - apply (bool_decide_unpack _). reflexivity.
  - reflexivity.
  - reflexivity.
  - discriminate.
  - vm_compute. reflexivity.
  - vm_compute. reflexivity.
  - reflexivity.
  - reflexivity.
  - reflexivity.
  - vm_compute. reflexivity.
  - exists v'. split; [exact Hb | exact Hd].
Defined.

(** The widths checked one by one, in 16 runs of 1024. *)
Lemma scale_percent_runs :
  forallb (fun k =>
             forallb (fun w => match ScreenServer.scale_percent w with
                               | Return p => p =? Z.min 100 (192000 / w)
                               | Raise _ => false
                               end) (seqZ (1 + 1024 * k) 1024))
    (seqZ 0 16) = true.
Proof. vm_compute. reflexivity. Qed.

Lemma scale_percent_range (w : Z) :
  1 <= w <= 16384 ->
  ScreenServer.scale_percent w = Return (Z.min 100 (192000 / w)).
Proof.
  intros Hw. pose proof scale_percent_runs as Hall.
  rewrite forallb_forall in Hall.
  pose proof (Z.div_mod (w - 1) 1024 ltac:(lia)) as Hdm.
  pose proof (Z.mod_pos_bound (w - 1) 1024 ltac:(lia)) as Hmod.
  specialize (Hall ((w - 1) / 1024)).
  rewrite forallb_forall in Hall.
  assert (0 <= (w - 1) / 1024 < 16) as Hk.
  { split; [apply Z.div_pos; lia|apply Z.div_lt_upper_bound; lia]. }
  specialize (Hall ltac:(apply list_elem_of_In, elem_of_seqZ; lia) w
                ltac:(apply list_elem_of_In, elem_of_seqZ; lia)).
  destruct (ScreenServer.scale_percent w) as [p|e]; [|discriminate Hall].
  f_equal. by apply Z.eqb_eq.
Qed.

(** The scale that a cycle announces: for a captured frame [w] pixels
    wide, up to 16384, the percent of the header is 100 when the frame
    is at most 1920 wide and the whole part of [192000 / w] when it is
    wider; the floating-point arithmetic of [min(1.0, 1920 / w)] and
    [int(scale * 100)] loses nothing, and the cycle goes on to the
    broadcast with this percent. *)
Theorem stream_cycle_percent (w : Z) (data : bytes) (c : ScreenServer.t) :
  1 <= w <= 16384 ->
  ScreenServer.scale_percent w = Return (Z.min 100 (192000 / w))
  /\ 11 <= Z.min 100 (192000 / w) <= 100
  /\ ScreenServer.stream_cycle w data c
     = ScreenServer.broadcast_cycle data (Z.min 100 (192000 / w)) c.
Proof.
  intros Hw.
  assert (ScreenServer.scale_percent w = Return (Z.min 100 (192000 / w)))
    as Hp.
  { by apply scale_percent_range. }
  split; [exact Hp|]. split.
  - assert (11 <= 192000 / w) by (apply Z.div_le_lower_bound; lia). lia.
  - unfold ScreenServer.stream_cycle.
    destruct (Z.leb_spec w 0); [lia|]. by rewrite Hp.
Qed.

Lemma stream_cycle_percent_witness :
  ScreenServer.scale_percent 2560 = Return 75.
Proof.
  destruct (stream_cycle_percent 2560 [] Inputs.broadcaster ltac:(lia))
    as [Hp _].
  exact Hp.
Defined.

(** A frame without pixels makes the conversion raise: the cycle
    prints the error, writes to no viewer and keeps them all. *)
Lemma stream_cycle_zero_width data c :
  ScreenServer.running c = true ->
  ScreenServer.stream_cycle 0 data c
  = ScreenServer.print (StreamErrorLine Cv2Error) c.
Proof. intros Hrun. unfold ScreenServer.stream_cycle. cbn. by rewrite Hrun. Qed.

(** The sockets after the loop of [stop]. *)
Lemma stop_conns (l : list nat) : forall (m : gmap nat socket) (i : nat),
  foldl (fun m i => match m !! i with
                    | Some s => <[i := close s]> m
                    | None => m
                    end) m l !! i
  = if bool_decide (i ∈ l) then close <$> m !! i else m !! i.
Proof.
  induction l as [|x l IH]; intros m i; [done|].
  cbn [foldl]. rewrite IH.
  assert (forall j,
            match m !! x with
            | Some s => <[x := close s]> m
            | None => m
            end !! j
            = if bool_decide (j = x) then close <$> m !! j else m !! j) as Hx.
  { intros j. case_bool_decide as Hj.
    - subst j. destruct (m !! x) as [s|] eqn:Hm.
      + by rewrite lookup_insert_eq.
      + by rewrite Hm.
    - destruct (m !! x) as [s|]; [by rewrite lookup_insert_ne|done]. }
  rewrite Hx.
  destruct (decide (i = x)) as [->|Hne].
  - rewrite (bool_decide_eq_true_2 (x = x)) by done.
    rewrite (bool_decide_eq_true_2 (x ∈ x :: l)) by (apply elem_of_cons; by left).
    destruct (m !! x) as [s|]; by case_bool_decide.
  - rewrite (bool_decide_eq_false_2 (i = x)) by done.
    rewrite (bool_decide_ext (i ∈ x :: l) (i ∈ l)); [done|].
    rewrite elem_of_cons. tauto.
Qed.

(** [stop()] clears the running flag, keeps the list of viewers and
    closes the socket of every viewer in it, and no other; after it no
    viewer of the list is alive. *)
Theorem stop_closes_viewers (c : ScreenServer.t) :
  ScreenServer.running (ScreenServer.stop c) = false
  /\ ScreenServer.clients (ScreenServer.stop c) = ScreenServer.clients c
  /\ (forall i s,
        ScreenServer.conns c !! i = Some s ->
        ScreenServer.conns (ScreenServer.stop c) !! i
        = Some (if bool_decide (i ∈ ScreenServer.clients c) then close s
                else s))
  /\ (forall i, i ∈ ScreenServer.clients c ->
        alive (ScreenServer.stop c) i = false)
  /\ ScreenServer.stdout (ScreenServer.stop c) = ScreenServer.stdout c.
Proof.
  split; [done|]. split; [done|]. split; [|split; [|done]].
  - intros i s Hs. unfold ScreenServer.stop. cbn [ScreenServer.conns].
    rewrite stop_conns, Hs. by case_bool_decide.
  - intros i Hi. unfold alive, ScreenServer.stop. cbn [ScreenServer.conns].
    rewrite stop_conns, (bool_decide_eq_true_2 _ Hi).
    by destruct (ScreenServer.conns c !! i).
Qed.

(** A broadcast cycle that is under way when [stop()] is called: every
    write fails, every viewer is taken off the list, and nothing is
    printed. *)
Theorem cycle_after_stop_drops_all
    (data header : bytes) (percent : Z) (c : ScreenServer.t) :
  NoDup (ScreenServer.clients c) ->
  pack_II (len data) percent = Return header ->
  let c' := ScreenServer.broadcast_cycle data percent (ScreenServer.stop c) in
  ScreenServer.clients c' = []
  /\ ScreenServer.trace c'
     = ScreenServer.trace c
       ++ map ScreenServer.Failed (ScreenServer.clients c)
       ++ map ScreenServer.Removed (ScreenServer.clients c)
  /\ ScreenServer.stdout c' = ScreenServer.stdout c.
Proof.
  intros Hnd Hpack c'. unfold c', ScreenServer.broadcast_cycle.
  rewrite Hpack. set (c0 := ScreenServer.stop c).
  assert (forall i, i ∈ ScreenServer.clients c -> alive c0 i = false) as Hdead.
  { intros i Hi. unfold alive, c0, ScreenServer.stop. cbn [ScreenServer.conns].
    rewrite stop_conns, (bool_decide_eq_true_2 _ Hi).
    by destruct (ScreenServer.conns c !! i). }
  change (ScreenServer.clients c0) with (ScreenServer.clients c).
  pose proof (send_to_all_spec (header ++ data) (ScreenServer.clients c) [] c0
                Hnd) as Hs. cbn zeta in Hs.
  destruct (ScreenServer.send_to_all _ _ _ c0) as [dead c1].
  cbn [fst snd] in Hs.
  destruct Hs as (-> & Hcl & Hru & Hso & Htr & _). cbn [app].
  destruct (remove_dead_spec (alive c0) (ScreenServer.clients c) [] c1)
    as (c2 & -> & Hcl2 & Htr2 & _ & _ & Hso2); [done..|].
  cbn [app] in Hcl2.
  rewrite (filter_none (alive c0)) in Hcl2 by done.
  rewrite (filter_all (fun i => negb (alive c0 i))) in Htr2
    by (intros i Hi; by rewrite Hdead).
  split; [done|]. split; [|by rewrite Hso2, Hso].
  rewrite Htr2, Htr, <- app_assoc.
  change (ScreenServer.trace c0) with (ScreenServer.trace c). f_equal. f_equal.
  apply map_ext_in. intros i Hi. by rewrite Hdead by by apply list_elem_of_In.
Qed.

Lemma cycle_after_stop_drops_all_witness :
  ScreenServer.clients
    (ScreenServer.broadcast_cycle [x01; x02] 100
       (ScreenServer.stop Inputs.broadcaster)) = [].
Proof.
  destruct (cycle_after_stop_drops_all [x01; x02]
              (be32_bytes 2 ++ be32_bytes 100) 100 Inputs.broadcaster)
    as (Hcl & _).
  - apply (bool_decide_unpack _). reflexivity.
  - reflexivity.
  - exact Hcl.
Defined.

(** ** The control channel, from the viewer's input to the injection *)

(** Every name that the viewer's table gives to a special key is a
    name of the server's table, in ASCII and in lower case. *)
Lemma gui_special_names :
  map_Forall (fun _ name => is_Some (assoc name key_table)
                            /\ isascii name = true
                            /\ ascii_lower name = name)
    ChenDeskApp.special.
Proof. apply (bool_decide_unpack _). vm_compute. reflexivity. Qed.

(** A connection has no more segments than bytes. *)
Lemma segments_le_stream (gs : list segment) :
  (length gs <= length (stream gs))%nat.
Proof.
  induction gs as [|g gs IH]; [done|].
  rewrite stream_cons, length_app. cbn [length seg_bytes]. lia.
Qed.

Section ControlExtras.
Context {L : Library}.

(** A write on a connection that takes it. *)
Lemma send_alive cmd text c :
  json_dumps cmd = Return text ->
  closed (ControlClient.sock c) || send_fails (ControlClient.sock c) = false ->
  ControlClient._send cmd c
  = ControlClient.Make (delivered (utf8_encode text) (ControlClient.sock c))
      (ControlClient.connected c) (ControlClient.scale c).
Proof.
  intros Hd Hok. unfold ControlClient._send. by rewrite Hd, sendall_alive.
Qed.

(** A write on a connection that is closed or broken. *)
Lemma send_dead cmd c :
  closed (ControlClient.sock c) || send_fails (ControlClient.sock c) = true ->
  ControlClient._send cmd c
  = ControlClient.Make (ControlClient.sock c) false (ControlClient.scale c).
Proof.
  intros Hd. unfold ControlClient._send.
  destruct (json_dumps cmd); [|done]. by rewrite sendall_dead.
Qed.

(** One pass of the command loop over a command that arrives whole. *)
Lemma handle_command server conn cmd text rest :
  ControlServer.running server = true ->
  carries cmd text ->
  arrives_whole conn (utf8_encode text) rest ->
  ControlServer.handle_client_body (server, conn)
  = Again (ControlServer._execute_command cmd server,
           set_incoming rest (note_recv BUFFER_SIZE conn)).
Proof.
  intros Hrun (Hd & Hdec & Hload) (Hc & Hlen & g & Hin & Hg).
  rewrite (handle_client_body_chunk server conn g rest Hrun Hc Hin)
    by (by rewrite Hg).
  rewrite Hg, Hdec. cbn [mbind outcome_bind]. by rewrite Hload.
Qed.

Lemma execute_call cmd k server :
  ControlServer.command_call cmd = Return (Some k) ->
  ControlServer.calls (ControlServer._execute_command cmd server)
  = ControlServer.calls server ++ [k].
Proof.
  intros Hc. unfold ControlServer._execute_command. rewrite Hc.
  by destruct (inject k).
Qed.

Lemma click_command_call button action :
  ControlServer.command_call (click_cmd button action)
  = Return (Some (click_call button action)).
Proof.
  unfold ControlServer.command_call, click_cmd, click_call.
  cbn [getitem assoc]. cbn. by destruct (String.eqb button "left").
Qed.

Lemma scroll_command_call dx dy :
  ControlServer.command_call (scroll_cmd dx dy)
  = Return (Some (MouseScroll (PInt dx) (PInt dy))).
Proof. reflexivity. Qed.

Lemma key_command_call name action k :
  ControlServer._parse_key (PStr name) = Return k ->
  ControlServer.command_call (key_cmd name action)
  = Return (Some (key_call k action)).
Proof.
  intros Hk. unfold ControlServer.command_call, key_cmd, key_call.
  cbn [getitem assoc]. cbn. by rewrite Hk.
Qed.

(** A click on the displayed screen reaches the remote machine: with a
    live control connection [_on_mouse_click(event, button, action)]
    writes one command, and the server that reads it as one chunk
    presses or releases a button: the left one for [left], the right
    one for any other name; a press for [press], a release for any
    other action. *)
Theorem click_reaches_server
    (a : ChenDeskApp.t) (c : ControlClient.t) (e : ChenDeskApp.event)
    (button action text : string) :
  ChenDeskApp.active_client a = Some c ->
  ControlClient.connected c = true ->
  closed (ControlClient.sock c) || send_fails (ControlClient.sock c) = false ->
  carries (click_cmd button action) text ->
  exists c',
    ChenDeskApp._on_mouse_click e button action a = ChenDeskApp.with_client a c'
    /\ ControlClient.connected c' = true
    /\ outgoing (ControlClient.sock c')
       = outgoing (ControlClient.sock c) ++ [utf8_encode text]
    /\ forall server conn rest,
         ControlServer.running server = true ->
         arrives_whole conn (utf8_encode text) rest ->
         exists server',
           ControlServer.handle_client_body (server, conn)
           = Again (server', set_incoming rest (note_recv BUFFER_SIZE conn))
           /\ ControlServer.calls server'
              = ControlServer.calls server ++ [click_call button action].
Proof.
  intros Ha Hconn Hok Hcar.
  eexists. split; [|split; [|split]].
  - unfold ChenDeskApp._on_mouse_click. rewrite Ha.
    unfold ControlClient.send_mouse_click. rewrite Hconn.
    fold (click_cmd button action).
    by rewrite (send_alive _ text) by (done || apply Hcar).
  - exact Hconn.
  - reflexivity.
  - intros server conn rest Hrun Harr. eexists. split.
    + by apply handle_command with (text := text).
    + apply execute_call, click_command_call.
Qed.

(** The wheel: [_on_mouse_scroll] sends no horizontal movement and one
    step up for a positive [delta], one step down for any other, a
    [delta] of 0 included; the server scrolls by exactly these two
    numbers. *)
Theorem scroll_reaches_server
    (a : ChenDeskApp.t) (c : ControlClient.t) (e : ChenDeskApp.event)
    (text : string) :
  ChenDeskApp.active_client a = Some c ->
  ControlClient.connected c = true ->
  closed (ControlClient.sock c) || send_fails (ControlClient.sock c) = false ->
  let dy := if 0 <? ChenDeskApp.delta e then 1 else -1 in
  carries (scroll_cmd 0 dy) text ->
  exists c',
    ChenDeskApp._on_mouse_scroll e a = ChenDeskApp.with_client a c'
    /\ outgoing (ControlClient.sock c')
       = outgoing (ControlClient.sock c) ++ [utf8_encode text]
    /\ forall server conn rest,
         ControlServer.running server = true ->
         arrives_whole conn (utf8_encode text) rest ->
         exists server',
           ControlServer.handle_client_body (server, conn)
           = Again (server', set_incoming rest (note_recv BUFFER_SIZE conn))
           /\ ControlServer.calls server'
              = ControlServer.calls server
                ++ [MouseScroll (PInt 0) (PInt dy)].
Proof.
  intros Ha Hconn Hok dy Hcar.
  eexists. split; [|split].
  - unfold ChenDeskApp._on_mouse_scroll. rewrite Ha.
    unfold ControlClient.send_mouse_scroll. rewrite Hconn.
    fold dy. fold (scroll_cmd 0 dy).
    by rewrite (send_alive _ text) by (done || apply Hcar).
  - reflexivity.
  - intros server conn rest Hrun Harr. eexists. split.
    + by apply handle_command with (text := text).
    + apply execute_call, scroll_command_call.
Qed.

(** What the viewer names a key, the server knows: a key of the
    viewer's table of special keys is resolved by [_parse_key] to the
    special key of that name; any other key whose [char] is one
    character is named by that character, which [_parse_key] looks up
    in lower case and, when it is no name of the table, as every ASCII
    character is none, passes on as text. *)
Lemma tk_key_resolves (e : ChenDeskApp.event) (name : string) :
  ChenDeskApp._tk_key_to_str e = Some name ->
  name <> EmptyString
  /\ exists k,
       ControlServer._parse_key (PStr name) = Return k
       /\ match ChenDeskApp.special !! ChenDeskApp.keysym e with
          | Some name' =>
              name = name'
              /\ exists sk, assoc name key_table = Some sk /\ k = KeySpecial sk
          | None =>
              name = ChenDeskApp.char e
              /\ str_len name = 1%nat
              /\ k = match assoc (lower name) key_table with
                     | Some sk => KeySpecial sk
                     | None => KeyText name
                     end
              /\ (isascii name = true -> k = KeyText name)
          end.
Proof.
  unfold ChenDeskApp._tk_key_to_str. intros Hk.
  destruct (ChenDeskApp.special !! ChenDeskApp.keysym e) as [name'|] eqn:Hs.
  - simplify_eq.
    destruct (gui_special_names _ _ Hs) as ([sk Hsk] & Hasc & Hlow).
    pose proof (key_table_names_long _ (mk_is_Some _ _ Hsk)) as Hlen.
    split; [by destruct name|].
    exists (KeySpecial sk). split; [|by eauto].
    rewrite parse_key_lookup. unfold lower. by rewrite Hasc, Hlow, Hsk.
  - destruct (Nat.eqb_spec (str_len (ChenDeskApp.char e)) 1) as [H1|];
      [|done].
    simplify_eq. split; [by destruct (ChenDeskApp.char e)|].
    eexists. split; [apply parse_key_lookup|].
    split; [reflexivity|]. split; [exact H1|]. split; [reflexivity|].
    intros Hasc. by rewrite (ascii_char_not_in_table _ Hasc H1).
Qed.

(** A key reaches the remote machine: for a key that
    [_tk_key_to_str] names, [_on_key_press] and [_on_key_release] write
    one command, and the server that reads it presses or releases the
    special key of the viewer's table, or the character typed: a
    character of ASCII always, one outside ASCII when its lower case is
    no name of the server's table. *)
Theorem key_reaches_server
    (a : ChenDeskApp.t) (c : ControlClient.t) (e : ChenDeskApp.event)
    (action name text : string) :
  ChenDeskApp.active_client a = Some c ->
  ControlClient.connected c = true ->
  closed (ControlClient.sock c) || send_fails (ControlClient.sock c) = false ->
  ChenDeskApp._tk_key_to_str e = Some name ->
  carries (key_cmd name action) text ->
  exists c' k,
    ChenDeskApp.on_key action e a = ChenDeskApp.with_client a c'
    /\ outgoing (ControlClient.sock c')
       = outgoing (ControlClient.sock c) ++ [utf8_encode text]
    /\ ControlServer._parse_key (PStr name) = Return k
    /\ match ChenDeskApp.special !! ChenDeskApp.keysym e with
       | Some name' =>
           name = name'
           /\ exists sk, assoc name key_table = Some sk /\ k = KeySpecial sk
       | None =>
           name = ChenDeskApp.char e
           /\ str_len name = 1%nat
           /\ k = match assoc (lower name) key_table with
                  | Some sk => KeySpecial sk
                  | None => KeyText name
                  end
           /\ (isascii name = true -> k = KeyText name)
       end
    /\ forall server conn rest,
         ControlServer.running server = true ->
         arrives_whole conn (utf8_encode text) rest ->
         exists server',
           ControlServer.handle_client_body (server, conn)
           = Again (server', set_incoming rest (note_recv BUFFER_SIZE conn))
           /\ ControlServer.calls server'
              = ControlServer.calls server ++ [key_call k action].
Proof.
  intros Ha Hconn Hok Hname Hcar.
  destruct (tk_key_resolves e name Hname) as (Hne & k & Hk & Hres).
  eexists _, k. split; [|split; [|split; [|split]]].
  - unfold ChenDeskApp.on_key. rewrite Ha, Hname.
    destruct name as [|x xs]; [exfalso; exact (Hne eq_refl)|].
    unfold ControlClient.send_key. rewrite Hconn.
    fold (key_cmd (String x xs) action).
    rewrite (send_alive _ text); [reflexivity | apply Hcar | exact Hok].
  - reflexivity.
  - exact Hk.
  - exact Hres.
  - intros server conn rest Hrun Harr. eexists. split.
    + exact (handle_command server conn _ text rest Hrun Hcar Harr).
    + apply execute_call, key_command_call. exact Hk.
Qed.

(** The command loop over commands that arrive whole, with any bound
    on the passes above their number. *)
Lemma handle_commands_loop : forall gs cmds server conn fuel,
  ControlServer.running server = true ->
  closed conn = false ->
  incoming conn = gs ->
  ending conn = PeerClosed ->
  Forall2 (fun g cmd =>
             len (seg_bytes g) <= BUFFER_SIZE
             /\ (text ← utf8_decode (seg_bytes g); json_loads text)
                = Return cmd) gs cmds ->
  (length gs < fuel)%nat ->
  exists conn',
    while fuel (fun st => Some (ControlServer.handle_client_body st))
      (server, conn)
    = Some (foldl (fun s cmd => ControlServer._execute_command cmd s)
              server cmds, conn')
    /\ incoming conn' = [] /\ outgoing conn' = outgoing conn.
Proof.
  induction gs as [|g gs IH]; intros cmds server conn fuel Hrun Hc Hin He Hall
    Hfuel; destruct fuel as [|fuel]; try lia.
  - apply Forall2_nil_inv_l in Hall as ->.
    exists (note_recv BUFFER_SIZE conn). split; [|done].
    cbn [while foldl].
    unfold ControlServer.handle_client_body, ControlServer.handle_client_try.
    pose proof (recv_spec BUFFER_SIZE conn Hc BUFFER_SIZE_pos) as Hr.
    rewrite Hin, He in Hr. by rewrite Hrun, Hr.
  - apply Forall2_cons_inv_l in Hall as (cmd & cmds' & [Hlen Hcmd] & Hall & ->).
    cbn [while foldl].
    rewrite (handle_client_body_chunk server conn g gs Hrun Hc Hin Hlen), Hcmd.
    destruct (IH cmds' (ControlServer._execute_command cmd server)
                (set_incoming gs (note_recv BUFFER_SIZE conn)) fuel)
      as (conn' & Hw & Hi & Ho); try done.
    + by rewrite execute_command_running.
    + cbn [length] in Hfuel. lia.
    + by exists conn'.
Qed.

(** The commands of a connection are executed one by one in the order
    they were sent, each chunk one command; when the client closes,
    the loop ends and the server closes its side, having written
    nothing to the client. *)
Theorem commands_executed_in_order
    (cmds : list pyval) (server : ControlServer.t) (conn : socket) :
  ControlServer.running server = true ->
  closed conn = false ->
  ending conn = PeerClosed ->
  Forall2 (fun g cmd =>
             len (seg_bytes g) <= BUFFER_SIZE
             /\ (text ← utf8_decode (seg_bytes g); json_loads text)
                = Return cmd) (incoming conn) cmds ->
  exists conn',
    ControlServer._handle_client server conn
    = Some (foldl (fun s cmd => ControlServer._execute_command cmd s)
              server cmds, conn')
    /\ closed conn' = true
    /\ incoming conn' = []
    /\ outgoing conn' = outgoing conn.
Proof.
  intros Hrun Hc He Hall.
  destruct (handle_commands_loop (incoming conn) cmds server conn
              (S (length (stream (incoming conn)))) Hrun Hc eq_refl He Hall)
    as (conn' & Hw & Hi & Ho).
  { pose proof (segments_le_stream (incoming conn)). lia. }
  exists (close conn'). split; [|done].
  unfold ControlServer._handle_client. by rewrite Hw.
Qed.

(** After a write that failed the viewer is silent: the event whose
    command could not be written marks the control client
    disconnected, and from then on no handler writes anything or
    changes anything, the socket being neither closed nor tried
    again. *)
Theorem input_dropped_after_failed_write
    (a : ChenDeskApp.t) (c : ControlClient.t) (e : ChenDeskApp.event)
    (button action : string) :
  ChenDeskApp.active_client a = Some c ->
  ControlClient.connected c = true ->
  closed (ControlClient.sock c) || send_fails (ControlClient.sock c) = true ->
  let a' := ChenDeskApp._on_mouse_click e button action a in
  ChenDeskApp.control_client a'
  = Some (ControlClient.Make (ControlClient.sock c) false
            (ControlClient.scale c))
  /\ forall e' b' act',
       ChenDeskApp._on_mouse_move e' a' = (Return tt, a')
       /\ ChenDeskApp._on_mouse_click e' b' act' a' = a'
       /\ ChenDeskApp._on_mouse_scroll e' a' = a'
       /\ ChenDeskApp._on_key_press e' a' = a'
       /\ ChenDeskApp._on_key_release e' a' = a'.
Proof.
  intros Ha Hconn Hdead a'.
  assert (a' = ChenDeskApp.Make true
                 (Some (ControlClient.Make (ControlClient.sock c) false
                          (ControlClient.scale c)))) as ->.
  { unfold a', ChenDeskApp._on_mouse_click. rewrite Ha.
    unfold ControlClient.send_mouse_click. rewrite Hconn, send_dead by done.
    unfold ChenDeskApp.active_client in Ha. destruct a as [conn cl].
    cbn in *. by destruct conn. }
  split; [done|]. intros e' b' act'.
  unfold ChenDeskApp._on_mouse_move, ChenDeskApp._on_mouse_click,
    ChenDeskApp._on_mouse_scroll, ChenDeskApp._on_key_press,
    ChenDeskApp._on_key_release, ChenDeskApp.on_key.
  cbn. repeat split; try done.
  all: by destruct (ChenDeskApp._tk_key_to_str e') as [[|? ?]|].
Qed.

(** [disconnect()] closes the socket and marks the client
    disconnected; every [send_] method is then without effect, and a
    write that is tried all the same fails without reaching the
    wire. *)
Theorem disconnect_silences_client (c : ControlClient.t) :
  let c' := ControlClient.disconnect c in
  closed (ControlClient.sock c') = true
  /\ ControlClient.connected c' = false
  /\ outgoing (ControlClient.sock c') = outgoing (ControlClient.sock c)
  /\ (forall x y, ControlClient.send_mouse_move x y c' = (Return tt, c'))
  /\ (forall b act, ControlClient.send_mouse_click b act c' = c')
  /\ (forall dx dy, ControlClient.send_mouse_scroll dx dy c' = c')
  /\ (forall k act, ControlClient.send_key k act c' = c')
  /\ (forall cmd, ControlClient._send cmd c' = c').
Proof.
  intros c'. repeat split; try done.
  intros cmd. by rewrite send_dead.
Qed.

End ControlExtras.

Lemma click_reaches_server_witness :
  exists server',
    ControlServer.handle_client_body (L := Ref.library)
      (Inputs.server,
       MoreInputs.control_conn [click_cmd "right" "release"])
    = Again (server',
             set_incoming []
               (note_recv BUFFER_SIZE
                  (MoreInputs.control_conn [click_cmd "right" "release"])))
    /\ ControlServer.calls server' = [MouseRelease ButtonRight].
Proof.
  destruct (click_reaches_server (L := Ref.library) MoreInputs.app
              (ControlClient.Make (fresh_socket [] PeerClosed) true 1%float)
              MoreInputs.letter_event "right" "release"
              (MoreInputs.wire_text (click_cmd "right" "release"))
              eq_refl eq_refl eq_refl)
    as (c' & _ & _ & _ & Hsrv).
  - repeat split; vm_compute; reflexivity.
  - apply (Hsrv Inputs.server
             (MoreInputs.control_conn [click_cmd "right" "release"]) []
             eq_refl).
    split; [reflexivity|]. split; [vm_compute; discriminate|].
    eexists. split; vm_compute; reflexivity.
Defined.

Lemma scroll_reaches_server_witness :
  exists server',
    ControlServer.handle_client_body (L := Ref.library)
      (Inputs.server, MoreInputs.control_conn [scroll_cmd 0 (-1)])
    = Again (server',
             set_incoming []
               (note_recv BUFFER_SIZE
                  (MoreInputs.control_conn [scroll_cmd 0 (-1)])))
    /\ ControlServer.calls server' = [MouseScroll (PInt 0) (PInt (-1))].
Proof.
  destruct (scroll_reaches_server (L := Ref.library) MoreInputs.app
              (ControlClient.Make (fresh_socket [] PeerClosed) true 1%float)
              MoreInputs.wheel_down_event
              (MoreInputs.wire_text (scroll_cmd 0 (-1)))
              eq_refl eq_refl eq_refl)
    as (c' & _ & _ & Hsrv).
  - repeat split; vm_compute; reflexivity.
  - apply (Hsrv Inputs.server
             (MoreInputs.control_conn [scroll_cmd 0 (-1)]) [] eq_refl).
    split; [reflexivity|]. split; [vm_compute; discriminate|].
    eexists. split; vm_compute; reflexivity.
Defined.

Lemma key_reaches_server_witness :
  exists server',
    ControlServer.handle_client_body (L := Ref.library)
      (Inputs.server, MoreInputs.control_conn [key_cmd "page_up" "press"])
    = Again (server',
             set_incoming []
               (note_recv BUFFER_SIZE
                  (MoreInputs.control_conn [key_cmd "page_up" "press"])))
    /\ ControlServer.calls server' = [KeyPress (KeySpecial Key.page_up)].
Proof.
  destruct (key_reaches_server (L := Ref.library) MoreInputs.app
              (ControlClient.Make (fresh_socket [] PeerClosed) true 1%float)
              MoreInputs.page_up_event "press" "page_up"
              (MoreInputs.wire_text (key_cmd "page_up" "press"))
              eq_refl eq_refl eq_refl)
    as (c' & k & _ & _ & Hk & _ & Hsrv).
  - vm_compute. reflexivity.
  - repeat split; vm_compute; reflexivity.
  - destruct (Hsrv Inputs.server
                (MoreInputs.control_conn [key_cmd "page_up" "press"]) []
                eq_refl) as (server' & Hb & Hcalls).
    { split; [reflexivity|]. split; [vm_compute; discriminate|].
      eexists. split; vm_compute; reflexivity. }
    exists server'. split; [exact Hb|].
    rewrite Hcalls. vm_compute in Hk. by simplify_eq.
Defined.

(** A character outside ASCII is one character, though of two bytes:
    the viewer sends it and the server takes it as text. *)
Example key_outside_ascii :
  String.length MoreInputs.eacute = 2%nat
  /\ ChenDeskApp._tk_key_to_str MoreInputs.eacute_event
     = Some MoreInputs.eacute
  /\ ControlServer._parse_key (L := Ref.library) (PStr MoreInputs.eacute)
     = Return (KeyText MoreInputs.eacute).
Proof. split; [|split]; vm_compute; reflexivity. Qed.

Lemma commands_executed_in_order_witness :
  exists conn',
    ControlServer._handle_client (L := Ref.library) Inputs.server
      (MoreInputs.control_conn
         [ControlClient.mouse_move_cmd 200 400; click_cmd "left" "press";
          key_cmd "a" "press"])
    = Some (ControlServer.Make true
              [SetPosition (PInt 200) (PInt 400); MousePress ButtonLeft;
               KeyPress (KeyText "a")] [], conn')
    /\ closed conn' = true.
Proof.
  destruct (commands_executed_in_order (L := Ref.library)
              [ControlClient.mouse_move_cmd 200 400; click_cmd "left" "press";
               key_cmd "a" "press"]
              Inputs.server
              (MoreInputs.control_conn
                 [ControlClient.mouse_move_cmd 200 400;
                  click_cmd "left" "press"; key_cmd "a" "press"])
              eq_refl eq_refl eq_refl)
    as (conn' & Hr & Hc & _).
  - repeat constructor; vm_compute; (discriminate || reflexivity).
  - exists conn'. split; [exact Hr | exact Hc].
Defined.

Lemma input_dropped_after_failed_write_witness :
  ChenDeskApp._on_key_press (L := Ref.library) MoreInputs.letter_event
    (ChenDeskApp._on_mouse_click (L := Ref.library) MoreInputs.letter_event
       "left" "press"
       (ChenDeskApp.Make true (Some MoreInputs.broken_client)))
  = ChenDeskApp._on_mouse_click (L := Ref.library) MoreInputs.letter_event
      "left" "press" (ChenDeskApp.Make true (Some MoreInputs.broken_client)).
Proof.
  destruct (input_dropped_after_failed_write (L := Ref.library)
              (ChenDeskApp.Make true (Some MoreInputs.broken_client))
              MoreInputs.broken_client MoreInputs.letter_event
              "left" "press" eq_refl eq_refl eq_refl) as [_ Hall].
  destruct (Hall MoreInputs.letter_event "left"%string "press"%string)
    as (_ & _ & _ & Hk & _).
  exact Hk.
Defined.

(** ** The file channel: the sender's writes, and the receiver's ends *)

Lemma delivered_all_outgoing (chunks : list bytes) : forall sock,
  outgoing (foldl (fun s ch => delivered ch s) sock chunks)
  = outgoing sock ++ chunks
  /\ closed (foldl (fun s ch => delivered ch s) sock chunks) = closed sock
  /\ send_fails (foldl (fun s ch => delivered ch s) sock chunks)
     = send_fails sock.
Proof.
  induction chunks as [|ch chunks IH]; intros sock; cbn [foldl].
  - by rewrite app_nil_r.
  - destruct (IH (delivered ch sock)) as (-> & -> & ->).
    cbn [outgoing delivered closed send_fails]. by rewrite <- app_assoc.
Qed.

(** The loop of [send_file], write by write: the chunks written are
    the rest of the file cut at every [BUFFER_SIZE] bytes. *)
Lemma send_loop_chunks fuel : forall rest sock,
  closed sock || send_fails sock = false ->
  (length rest < fuel)%nat ->
  exists chunks,
    while fuel (fun st => Some (FileClient.send_body st)) (rest, sock)
    = Some (Return tt, foldl (fun s ch => delivered ch s) sock chunks)
    /\ concat chunks = rest
    /\ Forall (fun ch => 0 < len ch <= BUFFER_SIZE) chunks.
Proof.
  induction fuel as [|fuel IH]; intros rest sock Hok Hfuel; [lia|].
  cbn [while].
  destruct (Z.to_nat BUFFER_SIZE) as [|n] eqn:Hn;
    [unfold BUFFER_SIZE in Hn; lia|].
  destruct rest as [|x rest].
  - rewrite send_body_nil. by exists [].
  - rewrite (send_body_cons x rest sock n Hn Hok).
    destruct (IH (drop (S n) (x :: rest)) (delivered (x :: take n rest) sock))
      as (chunks & Hw & Hcat & Hall).
    + done.
    + rewrite length_drop. cbn [length] in *. lia.
    + exists ((x :: take n rest) :: chunks). split; [exact Hw|]. split.
      * cbn [concat]. rewrite Hcat.
        change (x :: take n rest) with (take (S n) (x :: rest)).
        apply take_drop.
      * apply Forall_cons. split; [|done].
        unfold len. cbn [length]. rewrite length_take. lia.
Qed.

Lemma unpack_II_short header :
  length header <> 8%nat -> unpack_II header = Raise StructError.
Proof.
  intros Hlen. unfold unpack_II.
  do 9 (destruct header as [|? header]; try done).
Qed.

Section FileExtras.
Context {L : Library}.

(** [send_file] write by write: the header in one write, the name in
    one write, then the content in chunks of at most [BUFFER_SIZE]
    bytes, none of them empty, whose concatenation is the file; then
    the socket is closed and [True] returned.  An empty file is a
    header and a name. *)
Theorem send_file_writes_in_chunks
    (fs : gmap string bytes) (sock : socket) (filepath : string)
    (content : bytes) :
  fs !! filepath = Some content ->
  closed sock || send_fails sock = false ->
  len (utf8_encode (path_basename filepath)) < 2 ^ 32 ->
  len content < 2 ^ 32 ->
  exists header chunks sock',
    pack_II (len (utf8_encode (path_basename filepath))) (len content)
    = Return header
    /\ FileClient.send_file fs sock filepath = Some (true, sock')
    /\ outgoing sock'
       = outgoing sock
         ++ [header; utf8_encode (path_basename filepath)] ++ chunks
    /\ concat chunks = content
    /\ Forall (fun ch => 0 < len ch <= BUFFER_SIZE) chunks
    /\ closed sock' = true.
Proof.
  intros Hfs Hok Hname Hsize.
  pose proof (len_nonneg (utf8_encode (path_basename filepath))).
  pose proof (len_nonneg content).
  assert (exists header,
            pack_II (len (utf8_encode (path_basename filepath))) (len content)
            = Return header) as [header Hp].
  { unfold pack_II.
    destruct (Z.leb_spec 0 (len (utf8_encode (path_basename filepath))));
      [|lia].
    destruct (Z.ltb_spec (len (utf8_encode (path_basename filepath)))
                (2 ^ 32)); [|lia].
    destruct (Z.leb_spec 0 (len content)); [|lia].
    destruct (Z.ltb_spec (len content) (2 ^ 32)); [|lia].
    by eexists. }
  set (sock2 := delivered (utf8_encode (path_basename filepath))
                  (delivered header sock)).
  destruct (send_loop_chunks (S (length content)) content sock2)
    as (chunks & Hw & Hcat & Hall); [done | lia |].
  exists header, chunks,
    (close (foldl (fun s ch => delivered ch s) sock2 chunks)).
  split; [done|]. split.
  - unfold FileClient.send_file, FileClient.send_file_try.
    rewrite Hfs, Hp, !sendall_alive by done. fold sock2.
    unfold bytes in *. by rewrite Hw.
  - split; [|done].
    change (outgoing (close ?s)) with (outgoing s).
    destruct (delivered_all_outgoing chunks sock2) as (-> & _).
    cbn [outgoing delivered sock2]. by rewrite <- !app_assoc.
Qed.

(** When the file is not there, or the connection does not take the
    first write, [send_file] returns [False]; nothing has been
    written, and the socket is left as it was: it is not closed. *)
Theorem send_file_failure_leaves_socket
    (fs : gmap string bytes) (sock : socket) (filepath : string) :
  fs !! filepath = None \/ closed sock || send_fails sock = true ->
  FileClient.send_file fs sock filepath = Some (false, sock).
Proof.
  intros Hbad. unfold FileClient.send_file, FileClient.send_file_try.
  destruct (fs !! filepath) as [content|]; [|done].
  destruct Hbad as [|Hdead]; [done|].
  destruct (pack_II _ _) as [header|e]; [|done].
  by rewrite sendall_dead.
Qed.

(** The receiver takes exactly [file_length] bytes of content: once
    the header and the name have come whole, the file at the
    destination path, whatever was there, holds the announced number
    of bytes and no more, the bytes behind the content are left
    unread, and the connection is closed.  A file of length 0 is
    created empty. *)
Theorem receive_takes_file_length
    (c : FileServer.t) (client client1 client2 : socket)
    (header raw content rest : bytes) (name_len : Z) (filename : string) :
  recv 8 client = (Return header, client1) ->
  unpack_II header = Return (name_len, len content) ->
  recv name_len client1 = (Return raw, client2) ->
  utf8_decode raw = Return filename ->
  open_wb (path_join (FileServer.save_dir c) filename) = Return tt ->
  stream (incoming client2) = content ++ rest ->
  exists c' client',
    FileServer._receive_file c client = Some (c', client')
    /\ FileServer.files c' !! path_join (FileServer.save_dir c) filename
       = Some content
    /\ stream (incoming client') = rest
    /\ closed client' = true
    /\ outgoing client' = outgoing client2
    /\ FileServer.stdout c'
       = FileServer.stdout c ++ [ReceivedFileLine filename (len content)].
Proof.
  intros Hr1 Hun Hr2 Hdec Hopen Hst.
  destruct (recv_return_open _ _ _ _ Hr2) as [_ Hc2].
  destruct (receive_file_after_name c client client1 client2 header raw
              name_len (len content) filename)
    as (client' & got & Hrd & Hgot & Hrecv); try done.
  pose proof (len_nonneg content). pose proof (len_nonneg rest).
  rewrite Hst, len_app in Hgot, Hrecv.
  assert (got = content /\ stream (incoming client') = rest) as [-> Hrest].
  { destruct Hrd as (Hs & _). rewrite Hst in Hs.
    apply app_inj_1 in Hs; [by destruct Hs|]. unfold len in *. lia. }
  destruct (Z.leb_spec (len content) (len content + len rest)); [|lia].
  eexists _, _. split; [exact Hrecv|].
  split; [cbn; by rewrite lookup_insert_eq|].
  split; [done|]. split; [done|]. split; [|done].
  destruct Hrd as (_ & _ & _ & Ho & _). exact Ho.
Qed.

(** A connection that breaks in the middle of the content: the file is
    left on disk with the bytes that had come, the error is printed and
    the line of a received file is not, and the connection is
    closed. *)
Theorem broken_transfer_keeps_partial_file
    (c : FileServer.t) (client client1 client2 : socket)
    (header raw : bytes) (name_len file_size : Z) (filename : string) :
  recv 8 client = (Return header, client1) ->
  unpack_II header = Return (name_len, file_size) ->
  recv name_len client1 = (Return raw, client2) ->
  utf8_decode raw = Return filename ->
  open_wb (path_join (FileServer.save_dir c) filename) = Return tt ->
  ending client2 = ConnReset ->
  len (stream (incoming client2)) < file_size ->
  exists c' client',
    FileServer._receive_file c client = Some (c', client')
    /\ FileServer.files c'
       = <[path_join (FileServer.save_dir c) filename
           := stream (incoming client2)]> (FileServer.files c)
    /\ FileServer.stdout c'
       = FileServer.stdout c ++ [FileReceiveErrorLine OSError]
    /\ closed client' = true.
Proof.
  intros Hr1 Hun Hr2 Hdec Hopen Hend Hshort.
  destruct (recv_return_open _ _ _ _ Hr2) as [_ Hc2].
  destruct (receive_file_after_name c client client1 client2 header raw
              name_len file_size filename)
    as (client' & got & Hrd & Hgot & Hrecv); try done.
  pose proof (len_nonneg (stream (incoming client2))) as Hav.
  assert (got = stream (incoming client2)) as ->.
  { destruct Hrd as (Hst & _).
    assert (len (stream (incoming client')) = 0) as H0
      by (apply (f_equal len) in Hst; rewrite len_app in Hst; lia).
    destruct (stream (incoming client')) as [|? ?]; [|done].
    by rewrite app_nil_r in Hst. }
  rewrite Hend in Hrecv.
  destruct (Z.leb_spec file_size (len (stream (incoming client2)))); [lia|].
  eexists _, _. split; [exact Hrecv|]. done.
Qed.

(** A transfer that fails before the file is opened leaves the disk as
    it was: a first read of other than 8 bytes makes [struct.unpack]
    raise, and a name that is no text makes [decode] raise; the error
    is printed and the connection closed. *)
Theorem bad_header_or_name_stores_nothing
    (c : FileServer.t) (client client1 : socket) (header : bytes) :
  recv 8 client = (Return header, client1) ->
  (length header <> 8%nat ->
   FileServer._receive_file c client
   = Some (FileServer.print (FileReceiveErrorLine StructError) c,
           close client1))
  /\ (forall name_len file_size raw client2 e,
        unpack_II header = Return (name_len, file_size) ->
        recv name_len client1 = (Return raw, client2) ->
        utf8_decode raw = Raise e ->
        FileServer._receive_file c client
        = Some (FileServer.print (FileReceiveErrorLine e) c, close client2)).
Proof.
  intros Hr1. split.
  - intros Hlen. unfold FileServer._receive_file, FileServer.receive_file_try.
    by rewrite Hr1, unpack_II_short.
  - intros name_len file_size raw client2 e Hun Hr2 Hdec.
    unfold FileServer._receive_file, FileServer.receive_file_try.
    rewrite Hr1, Hun, Hr2. cbn [mbind outcome_bind]. by rewrite Hdec.
Qed.

End FileExtras.

Lemma transfer_with_whole_header_and_name_witness :
  exists c' client',
    FileServer._receive_file (L := Ref.library) Inputs.file_server
      (Inputs.transfer [be32_bytes 5 ++ be32_bytes 2;
                        list_byte_of_string "a.txt"; [x68]; [x69]])
    = Some (c', client')
    /\ FileServer.files c' !! "/home/u/ChenDesk_Files/a.txt"%string
       = Some (list_byte_of_string "hi").
Proof.
  destruct (transfer_with_whole_header_and_name (L := Ref.library)
              Inputs.sender_disk (fresh_socket [] PeerClosed) "/tmp/a.txt"
              "a.txt" (list_byte_of_string "hi") Inputs.file_server
              (x00, [x00; x00; x05; x00; x00; x00; x02])
              (x61, [x2e; x74; x78; x74])
              [(x68, []); (x69, [])]
              eq_refl eq_refl eq_refl eq_refl eq_refl eq_refl eq_refl)
    as (header & sock' & Hs & Hcat & Hrecv).
  vm_compute in Hs. injection Hs as <-.
  apply Hrecv; [|reflexivity|reflexivity].
  vm_compute in Hcat.
  apply (app_inv_tail [x61; x2e; x74; x78; x74; x68; x69]
           [x00; x00; x00; x05; x00; x00; x00; x02] header Hcat).
Defined.

Lemma send_file_writes_in_chunks_witness :
  exists sock',
    FileClient.send_file (L := Ref.library) Inputs.sender_disk
      (fresh_socket [] PeerClosed) "/tmp/a.txt" = Some (true, sock')
    /\ closed sock' = true.
Proof.
  destruct (send_file_writes_in_chunks (L := Ref.library) Inputs.sender_disk
              (fresh_socket [] PeerClosed) "/tmp/a.txt"
              (list_byte_of_string "hi") eq_refl eq_refl eq_refl eq_refl)
    as (header & chunks & sock' & _ & Hs & _ & _ & _ & Hc).
  exists sock'. split; [exact Hs | exact Hc].
Defined.

Lemma send_file_failure_leaves_socket_witness :
  FileClient.send_file (L := Ref.library) Inputs.sender_disk
    (fresh_socket [] PeerClosed) "/tmp/b.txt"
  = Some (false, fresh_socket [] PeerClosed).
Proof.
  apply (send_file_failure_leaves_socket (L := Ref.library)).
  left. reflexivity.
Defined.

Lemma receive_takes_file_length_witness :
  exists c' client',
    FileServer._receive_file (L := Ref.library) Inputs.file_server
      (Inputs.transfer [be32_bytes 5 ++ be32_bytes 2;
                        list_byte_of_string "a.txt";
                        list_byte_of_string "hi!"])
    = Some (c', client')
    /\ FileServer.files c' !! "/home/u/ChenDesk_Files/a.txt"%string
       = Some (list_byte_of_string "hi")
    /\ stream (incoming client') = [x21].
Proof.
  destruct (receive_takes_file_length (L := Ref.library)
              Inputs.file_server
              (Inputs.transfer [be32_bytes 5 ++ be32_bytes 2;
                                list_byte_of_string "a.txt";
                                list_byte_of_string "hi!"])
              (set_incoming
                 (segments [list_byte_of_string "a.txt";
                            list_byte_of_string "hi!"])
                 (note_recv 8
                    (Inputs.transfer [be32_bytes 5 ++ be32_bytes 2;
                                      list_byte_of_string "a.txt";
                                      list_byte_of_string "hi!"])))
              (set_incoming (segments [list_byte_of_string "hi!"])
                 (note_recv 5
                    (set_incoming
                       (segments [list_byte_of_string "a.txt";
                                  list_byte_of_string "hi!"])
                       (note_recv 8
                          (Inputs.transfer [be32_bytes 5 ++ be32_bytes 2;
                                            list_byte_of_string "a.txt";
                                            list_byte_of_string "hi!"])))))
              (be32_bytes 5 ++ be32_bytes 2) (list_byte_of_string "a.txt")
              (list_byte_of_string "hi") [x21] 5 "a.txt"
              eq_refl eq_refl eq_refl eq_refl eq_refl eq_refl)
    as (c' & client' & Hr & Hf & Hs & _).
  exists c', client'. split; [exact Hr|]. split; [exact Hf | exact Hs].
Defined.

Lemma broken_transfer_keeps_partial_file_witness :
  exists c' client',
    FileServer._receive_file (L := Ref.library) Inputs.file_server
      (fresh_socket (segments [be32_bytes 5 ++ be32_bytes 10;
                               list_byte_of_string "a.txt";
                               list_byte_of_string "hi"]) ConnReset)
    = Some (c', client')
    /\ FileServer.files c'
       = {[ "/home/u/ChenDesk_Files/a.txt"%string := list_byte_of_string "hi" ]}
    /\ FileServer.stdout c' = [FileReceiveErrorLine OSError].
Proof.
  destruct (broken_transfer_keeps_partial_file (L := Ref.library)
              Inputs.file_server
              (fresh_socket (segments [be32_bytes 5 ++ be32_bytes 10;
                                       list_byte_of_string "a.txt";
                                       list_byte_of_string "hi"]) ConnReset)
              (Socket (segments [list_byte_of_string "a.txt";
                                 list_byte_of_string "hi"])
                 ConnReset [8] false [] false)
              (Socket (segments [list_byte_of_string "hi"])
                 ConnReset [8; 5] false [] false)
              (be32_bytes 5 ++ be32_bytes 10) (list_byte_of_string "a.txt")
              5 10 "a.txt"
              eq_refl eq_refl eq_refl eq_refl eq_refl eq_refl eq_refl)
    as (c' & client' & Hr & Hf & Hs & _).
  exists c', client'. split; [exact Hr|]. split; [exact Hf | exact Hs].
Defined.

Lemma bad_header_or_name_stores_nothing_witness :
  FileServer.files
  <$> (fst <$> FileServer._receive_file (L := Ref.library) Inputs.file_server
                 (Inputs.transfer [[x00; x00; x00]]))
  = Some ∅.
Proof.
  destruct (bad_header_or_name_stores_nothing (L := Ref.library)
              Inputs.file_server (Inputs.transfer [[x00; x00; x00]])
              (set_incoming []
                 (note_recv 8 (Inputs.transfer [[x00; x00; x00]])))
              [x00; x00; x00] eq_refl) as [Hshort _].
  rewrite Hshort; [reflexivity | discriminate].
Defined.

(** ** Peer discovery *)

Lemma bytes_eqb_eq (a b : bytes) : LANDiscovery.bytes_eqb a b = true <-> a = b.
Proof.
  revert b. induction a as [|x a IH]; intros [|y b]; cbn; try done.
  rewrite andb_true_iff, IH. split.
  - intros [Hx ->]. by rewrite (Byte.byte_dec_bl _ _ Hx).
  - intros [= -> ->]. split; [by apply Byte.byte_dec_lb|done].
Qed.

(** [d.get(k, default)] of a dict without the key. *)
Lemma get_default k d default :
  Forall (fun kv => kv.1 <> k) d -> LANDiscovery.get k d default = default.
Proof.
  induction 1 as [|[k' v] d Hk _ IH]; [done|]. cbn in *.
  destruct (LANDiscovery.bytes_eqb k k') eqn:He; [|done].
  apply bytes_eqb_eq in He. congruence.
Qed.

Lemma inet_ntoa_length packed :
  is_Some (LANDiscovery.inet_ntoa packed) <-> length packed = 4%nat.
Proof.
  unfold LANDiscovery.inet_ntoa.
  do 5 (destruct packed as [|? packed]; cbn;
        [split; [by intros [? ?] | done]|]).
  split; [by intros [? ?] | done].
Qed.

Section DiscoveryExtras.
Context {L : Library}.

(** [add_service] of a service whose address and host name can be
    read. *)
Lemma add_service_entry info name c ip hostname :
  service_entry info = Some (ip, hostname) ->
  LANDiscovery.add_service (Some info) name c
  = (inl tt,
     LANDiscovery.Make (LANDiscovery.on_found c) (LANDiscovery.on_removed c)
       (<[name := (ip, hostname)]> (LANDiscovery.peers c))
       (if LANDiscovery.on_found c
        then LANDiscovery.called c ++ [LANDiscovery.Found name ip hostname]
        else LANDiscovery.called c)).
Proof.
  unfold service_entry, LANDiscovery.add_service.
  destruct (LANDiscovery.addresses info) as [|packed ?]; [done|].
  destruct (LANDiscovery.inet_ntoa packed) as [ip'|]; [|done].
  cbn [mbind option_bind].
  destruct (LANDiscovery.get _ _ _) as [raw|]; [|done].
  cbn [mbind option_bind].
  destruct (utf8_decode raw) as [h|]; [|done].
  by intros [= -> ->].
Qed.

(** A service that appears and goes: [add_service] records the peer
    under its name, with the first address as a dotted quad and the
    host name, leaves the other peers alone and calls [on_found] once;
    [remove_service] then takes the entry out again, which leaves the
    peers as they were without that name, and calls [on_removed]
    once.  A callback that is not installed is not called. *)
Theorem service_found_then_removed
    (info : LANDiscovery.service_info) (name ip hostname : string)
    (c : LANDiscovery.t) :
  service_entry info = Some (ip, hostname) ->
  exists c1,
    LANDiscovery.add_service (Some info) name c = (inl tt, c1)
    /\ LANDiscovery.peers c1 !! name = Some (ip, hostname)
    /\ (forall other, other <> name ->
          LANDiscovery.peers c1 !! other = LANDiscovery.peers c !! other)
    /\ LANDiscovery.called c1
       = LANDiscovery.called c
         ++ (if LANDiscovery.on_found c
             then [LANDiscovery.Found name ip hostname] else [])
    /\ LANDiscovery.peers (LANDiscovery.remove_service name c1)
       = delete name (LANDiscovery.peers c)
    /\ LANDiscovery.called (LANDiscovery.remove_service name c1)
       = LANDiscovery.called c1
         ++ (if LANDiscovery.on_removed c
             then [LANDiscovery.Removed name] else []).
Proof.
  intros He. eexists. split; [by apply add_service_entry|].
  cbn [LANDiscovery.peers LANDiscovery.called].
  split; [by rewrite lookup_insert_eq|].
  split; [by intros other Hne; rewrite lookup_insert_ne|].
  split; [by destruct (LANDiscovery.on_found c); rewrite ?app_nil_r|].
  unfold LANDiscovery.remove_service.
  cbn [LANDiscovery.peers LANDiscovery.called LANDiscovery.on_removed].
  rewrite lookup_insert_eq.
  cbn [LANDiscovery.peers LANDiscovery.called].
  split; [by rewrite delete_insert_eq|].
  by destruct (LANDiscovery.on_removed c); rewrite ?app_nil_r.
Qed.

(** A service without a [hostname] property is recorded as [Unknown],
    whatever its other properties. *)
Theorem service_without_hostname_is_unknown
    (info : LANDiscovery.service_info) (name ip unknown : string)
    (packed : bytes) (others : list bytes) (c : LANDiscovery.t) :
  LANDiscovery.addresses info = packed :: others ->
  LANDiscovery.inet_ntoa packed = Some ip ->
  Forall (fun kv => kv.1 <> list_byte_of_string "hostname")
    (LANDiscovery.properties info) ->
  utf8_decode (list_byte_of_string "Unknown") = Return unknown ->
  exists c1,
    LANDiscovery.add_service (Some info) name c = (inl tt, c1)
    /\ LANDiscovery.peers c1 !! name = Some (ip, unknown).
Proof.
  intros Ha Hip Hno Hdec. eexists. split.
  - apply add_service_entry. unfold service_entry.
    rewrite Ha, Hip. cbn [mbind option_bind].
    rewrite get_default by done. cbn [mbind option_bind]. by rewrite Hdec.
  - cbn. by rewrite lookup_insert_eq.
Qed.

(** An update replaces the entry: after [add_service] and then
    [update_service] of the same name the peers hold one entry under
    that name, that of the update, and [on_found] has been called for
    each of the two. *)
Theorem update_service_overwrites
    (info1 info2 : LANDiscovery.service_info)
    (name ip1 host1 ip2 host2 : string) (c : LANDiscovery.t) :
  service_entry info1 = Some (ip1, host1) ->
  service_entry info2 = Some (ip2, host2) ->
  exists c1 c2,
    LANDiscovery.add_service (Some info1) name c = (inl tt, c1)
    /\ LANDiscovery.update_service (Some info2) name c1 = (inl tt, c2)
    /\ LANDiscovery.peers c2
       = <[name := (ip2, host2)]> (LANDiscovery.peers c)
    /\ LANDiscovery.called c2
       = LANDiscovery.called c
         ++ (if LANDiscovery.on_found c
             then [LANDiscovery.Found name ip1 host1;
                   LANDiscovery.Found name ip2 host2]
             else []).
Proof.
  intros H1 H2. eexists _, _.
  split; [by apply add_service_entry|].
  split; [unfold LANDiscovery.update_service; by apply add_service_entry|].
  cbn [LANDiscovery.peers LANDiscovery.called LANDiscovery.on_found].
  split; [by rewrite insert_insert_eq|].
  destruct (LANDiscovery.on_found c); by rewrite <- ?app_assoc, ?app_nil_r.
Qed.

(** [add_service] changes nothing when it fails or finds no service:
    without the service information it returns at once; when it raises,
    on a service without addresses, on an address that is not of 4
    bytes, on a [hostname] without a value or one that is no text, the
    peers are as they were and no callback has been called. *)
Theorem add_service_failure_keeps_state
    (info : option LANDiscovery.service_info) (name : string)
    (c : LANDiscovery.t) :
  (info = None -> LANDiscovery.add_service info name c = (inl tt, c))
  /\ (forall e c',
        LANDiscovery.add_service info name c = (inr e, c') ->
        c' = c
        /\ exists i,
             info = Some i
             /\ service_entry i = None
             /\ (e = LANDiscovery.IndexError <-> LANDiscovery.addresses i = [])
             /\ (e = LANDiscovery.InetError <->
                 exists packed l,
                   LANDiscovery.addresses i = packed :: l
                   /\ length packed <> 4%nat)).
Proof.
  split; [by intros ->|].
  intros e c'. unfold LANDiscovery.add_service.
  destruct info as [i|]; [|done].
  destruct (LANDiscovery.addresses i) as [|packed l] eqn:Ha.
  - intros [= <- <-]. split; [done|]. exists i.
    split; [done|]. split; [unfold service_entry; by rewrite Ha|].
    split; [done|]. split; [done|]. intros (? & ? & ? & ?). congruence.
  - pose proof (inet_ntoa_length packed) as Hlen.
    destruct (LANDiscovery.inet_ntoa packed) as [ip|] eqn:Hip.
    + assert (length packed = 4%nat) as H4 by (by apply Hlen).
      destruct (LANDiscovery.get _ _ _) as [raw|] eqn:Hg.
      * destruct (utf8_decode raw) as [h|e'] eqn:Hd; [done|].
        intros [= <- <-]. split; [done|]. exists i. split; [done|].
        split.
        { unfold service_entry. rewrite Ha, Hip. cbn [mbind option_bind].
          unfold bytes in *. rewrite Hg. cbn [mbind option_bind].
          by rewrite Hd. }
        split; [split; [discriminate | congruence]|].
        split; [discriminate|].
        intros (? & ? & Heq & Hn). rewrite Ha in Heq. by simplify_eq.
      * intros [= <- <-]. split; [done|]. exists i. split; [done|].
        split.
        { unfold service_entry. rewrite Ha, Hip. cbn [mbind option_bind].
          unfold bytes in *. by rewrite Hg. }
        split; [split; [discriminate | congruence]|].
        split; [discriminate|].
        intros (? & ? & Heq & Hn). rewrite Ha in Heq. by simplify_eq.
    + intros [= <- <-]. split; [done|]. exists i. split; [done|].
      split; [unfold service_entry; by rewrite Ha, Hip|].
      split; [split; [discriminate | congruence]|].
      split; [|done]. intros _. exists packed, l.
      split; [done|]. intros H4. apply Hlen in H4. by destruct H4.
Qed.

End DiscoveryExtras.

(** Removing a service twice is removing it once: the second call
    finds no entry, changes nothing and calls nothing; so does the
    removal of a name that was never found. *)
Theorem remove_service_once (name : string) (c : LANDiscovery.t) :
  LANDiscovery.remove_service name (LANDiscovery.remove_service name c)
  = LANDiscovery.remove_service name c
  /\ LANDiscovery.peers (LANDiscovery.remove_service name c) !! name = None
  /\ (LANDiscovery.peers c !! name = None ->
      LANDiscovery.remove_service name c = c).
Proof.
  unfold LANDiscovery.remove_service.
  destruct (LANDiscovery.peers c !! name) as [p|] eqn:Hp.
  - cbn [LANDiscovery.peers]. rewrite lookup_delete_eq. done.
  - by rewrite Hp.
Qed.

Lemma service_found_then_removed_witness :
  exists c1,
    LANDiscovery.add_service (L := Ref.library)
      (Some MoreInputs.named_service) "desk._chendesk._tcp.local."
      MoreInputs.browser = (inl tt, c1)
    /\ LANDiscovery.peers c1 !! "desk._chendesk._tcp.local."%string
       = Some ("192.168.1.5"%string, "desk"%string)
    /\ LANDiscovery.called
         (LANDiscovery.remove_service "desk._chendesk._tcp.local." c1)
       = [LANDiscovery.Found "desk._chendesk._tcp.local." "192.168.1.5" "desk";
          LANDiscovery.Removed "desk._chendesk._tcp.local."].
Proof.
  destruct (service_found_then_removed (L := Ref.library)
              MoreInputs.named_service "desk._chendesk._tcp.local."
              "192.168.1.5" "desk" MoreInputs.browser eq_refl)
    as (c1 & Ha & Hp & _ & Hc & _ & Hr).
  exists c1. split; [exact Ha|]. split; [exact Hp|].
  rewrite Hr, Hc. reflexivity.
Defined.

Lemma service_without_hostname_is_unknown_witness :
  exists c1,
    LANDiscovery.add_service (L := Ref.library)
      (Some MoreInputs.bare_service) "x" MoreInputs.browser = (inl tt, c1)
    /\ LANDiscovery.peers c1 !! "x"%string
       = Some ("10.0.0.7"%string, "Unknown"%string).
Proof.
  apply (service_without_hostname_is_unknown (L := Ref.library)
           MoreInputs.bare_service "x" "10.0.0.7" "Unknown"
           [x0a; x00; x00; x07] [] MoreInputs.browser
           eq_refl eq_refl (List.Forall_nil _) eq_refl).
Defined.

Lemma update_service_overwrites_witness :
  exists c1 c2,
    LANDiscovery.add_service (L := Ref.library)
      (Some MoreInputs.bare_service) "x" MoreInputs.browser = (inl tt, c1)
    /\ LANDiscovery.update_service (L := Ref.library)
         (Some MoreInputs.named_service) "x" c1 = (inl tt, c2)
    /\ LANDiscovery.peers c2
       = {[ "x"%string := ("192.168.1.5"%string, "desk"%string) ]}.
Proof.
  destruct (update_service_overwrites (L := Ref.library)
              MoreInputs.bare_service MoreInputs.named_service "x"
              "10.0.0.7" "Unknown" "192.168.1.5" "desk" MoreInputs.browser
              eq_refl eq_refl)
    as (c1 & c2 & Ha & Hu & Hp & _).
  exists c1, c2. split; [exact Ha|]. split; [exact Hu | exact Hp].
Defined.
